(** * StreamBench: the streaming load tester [stream_test_enhanced.py]

    A shallow embedding of the request metrics, the SSE parser, the
    request body selection, the single-request driver [make_request],
    the worker pool of [run]/[worker] and the percentile selection of
    [print_report], with the properties of the specification stated over
    them.

    Modelling conventions.
    - A Python [float] timestamp is a rational number ([Q]); the
      truthiness tests the source applies to timestamps ([if self.end_time:])
      are kept: [0.0] is falsy.
    - A Python [str] is a [string] holding the UTF-8 encoding of its code
      points, so that every [str] has one representation; slices and
      [strip] count and classify code points.  [bytes] are [list byte].
    - A JSON value / Python object is a [pyval]; a [dict] with string keys
      is a [gmap string pyval].
    - [time.time()] is an oracle [clock : nat -> Q] indexed by the number
      of calls made so far by the request.
    - Library functions whose code is not part of the repository
      ([bytes.decode], [json.loads], [repr]) are fields of a [PyRuntime]. *)

From Stdlib Require Import ZArith QArith Qround List String Ascii Lia.
From Stdlib.Strings Require Import Byte.
From Stdlib Require Import Sorting.Permutation Sorting.Sorted.
From stdpp Require Import gmap strings list fin_maps pretty.
Import ListNotations.

Local Open Scope Z_scope.

(** ** Python values *)

#[warnings="-register-all"]
Inductive pyval :=
| VNone
| VBool (b : bool)
| VInt (z : Z)
| VFloat (q : Q)
| VStr (s : string)
| VList (l : list pyval)
| VDict (m : gmap string pyval).

Abbreviation bytes := (list byte).
Abbreviation pydict := (gmap string pyval).

(** Python truthiness ([bool(v)]). *)
Definition truthy (v : pyval) : bool :=
  match v with
  | VNone => false
  | VBool b => b
  | VInt z => negb (z =? 0)
  | VFloat q => negb (Qeq_bool q 0)
  | VStr s => negb (String.eqb s "")
  | VList l => match l with [] => false | _ => true end
  | VDict m => negb (bool_decide (m = ∅))
  end.

(** Truthiness of an [Optional[float]]: [None] and [0.0] are falsy. *)
Definition float_truthy (o : option Q) : bool :=
  match o with
  | Some t => negb (Qeq_bool t 0)
  | None => false
  end.

(** Truthiness of an [Optional[str]]: [None] and [''] are falsy. *)
Definition str_truthy (o : option string) : bool :=
  match o with
  | Some s => negb (String.eqb s "")
  | None => false
  end.

(** ** Strings

    A [str] is held as the UTF-8 encoding of its code points, one byte
    per character of the [string] (a lone surrogate, which [json.loads]
    can return, takes its three-byte form).  Equality, concatenation,
    [startswith], [in], [replace] and [split] on an ASCII separator act
    on the encoding as they act on the code points, since no encoded
    character occurs inside another one; slices and [strip] are written
    in terms of code points. *)

(** [s.startswith(p)] *)
Fixpoint startswith (p s : string) : bool :=
  match p, s with
  | EmptyString, _ => true
  | String a p', String b s' => Ascii.eqb a b && startswith p' s'
  | String _ _, EmptyString => false
  end.

(** [sub in s] *)
Fixpoint str_contains (sub s : string) : bool :=
  startswith sub s ||
  match s with
  | EmptyString => false
  | String _ s' => str_contains sub s'
  end.

(** A byte that continues a character of several bytes: [10xxxxxx]. *)
Definition is_continuation (a : ascii) : bool :=
  let n := nat_of_ascii a in ((128 <=? n) && (n <=? 191))%nat.

(** [len(s)]: the number of code points. *)
Fixpoint py_len (s : string) : nat :=
  match s with
  | EmptyString => O
  | String a s' => if is_continuation a then py_len s' else S (py_len s')
  end.

(** [s[n:]]: [inside] tells that the first byte of a dropped character
    has just been passed, so that its other bytes go with it. *)
Fixpoint drop_chars (inside : bool) (n : nat) (s : string) : string :=
  match s with
  | EmptyString => EmptyString
  | String a s' =>
      if inside && is_continuation a then drop_chars true n s'
      else match n with
           | O => s
           | S n' => drop_chars true n' s'
           end
  end.

Definition str_drop (n : nat) (s : string) : string := drop_chars false n s.

(** [s[:n]]: the first [n] code points, each with all its bytes. *)
Fixpoint str_take (n : nat) (s : string) : string :=
  match s with
  | EmptyString => EmptyString
  | String a s' =>
      if is_continuation a then String a (str_take n s')
      else match n with
           | O => EmptyString
           | S n' => String a (str_take n' s')
           end
  end.

(** [s.replace(old, new)] for a non-empty [old]: occurrences are replaced
    from left to right without overlap.  [skip] counts the characters of
    a matched occurrence that are still to be dropped. *)
Fixpoint replace_from (old new : string) (skip : nat) (s : string) : string :=
  match s with
  | EmptyString => EmptyString
  | String a s' =>
      match skip with
      | S k => replace_from old new k s'
      | O =>
          if startswith old s
          then new +:+ replace_from old new (String.length old - 1) s'
          else String a (replace_from old new 0 s')
      end
  end.

(** [s.replace(old, new)]; with an empty [old] Python inserts [new]
    before every character and at the end. *)
Fixpoint interleave (new s : string) : string :=
  match s with
  | EmptyString => new
  | String a s' => new +:+ String a (interleave new s')
  end.

Definition str_replace (old new s : string) : string :=
  match old with
  | EmptyString => interleave new s
  | _ => replace_from old new 0 s
  end.

(** [s.split(c)] for a one-character separator: never the empty list. *)
Fixpoint str_split (c : ascii) (s : string) : list string :=
  match s with
  | EmptyString => [EmptyString]
  | String a s' =>
      if Ascii.eqb a c then EmptyString :: str_split c s'
      else match str_split c s' with
           | h :: t => String a h :: t
           | [] => [String a EmptyString]
           end
  end.

(** The characters [str.strip()] removes, in their encoding.  One byte:
    TAB, LF, VT, FF, CR, FS, GS, RS, US and SPACE.  Two bytes: NEL
    (U+0085) and NBSP (U+00A0).  Three bytes: U+1680, U+2000 to U+200A,
    U+2028, U+2029, U+202F, U+205F and U+3000. *)
Definition space1 (a : ascii) : bool :=
  let n := nat_of_ascii a in
  ((9 <=? n) && (n <=? 13) || (28 <=? n) && (n <=? 32))%nat.

Definition space2 (a c : ascii) : bool :=
  let x := nat_of_ascii a in
  let y := nat_of_ascii c in
  ((x =? 194) && ((y =? 133) || (y =? 160)))%nat.

Definition space3 (a c d : ascii) : bool :=
  let x := nat_of_ascii a in
  let y := nat_of_ascii c in
  let z := nat_of_ascii d in
  ((x =? 225) && (y =? 154) && (z =? 128)
   || (x =? 226) && (y =? 128)
      && ((128 <=? z) && (z <=? 138) || (z =? 168) || (z =? 169) || (z =? 175))
   || (x =? 226) && (y =? 129) && (z =? 159)
   || (x =? 227) && (y =? 128) && (z =? 128))%nat.

Fixpoint lstrip (s : string) : string :=
  match s with
  | EmptyString => EmptyString
  | String a s1 =>
      if space1 a then lstrip s1
      else match s1 with
           | EmptyString => s
           | String c s2 =>
               if space2 a c then lstrip s2
               else match s2 with
                    | EmptyString => s
                    | String d s3 => if space3 a c d then lstrip s3 else s
                    end
           end
  end.

(** The string is cut where nothing but white space follows. *)
Fixpoint rstrip (s : string) : string :=
  match s with
  | EmptyString => EmptyString
  | String a s' =>
      match lstrip s with
      | EmptyString => EmptyString
      | _ => String a (rstrip s')
      end
  end.

(** [s.strip()] *)
Definition strip (s : string) : string := rstrip (lstrip s).

(** [s.lower()] on the ASCII letters; the other characters are left as
    they are, which does not change whether the lowered text contains
    the ASCII words the handlers look for. *)
Definition lower_ascii (a : ascii) : ascii :=
  let n := nat_of_ascii a in
  if ((65 <=? n) && (n <=? 90))%nat then ascii_of_nat (n + 32) else a.

Fixpoint lower (s : string) : string :=
  match s with
  | EmptyString => EmptyString
  | String a s' => String (lower_ascii a) (lower s')
  end.

(** ** Bytes *)

(** Bytes [bytes.strip()] removes: SPACE, TAB, LF, CR, VT, FF. *)
Definition is_space_byte (b : byte) : bool :=
  match b with
  | x20 | x09 | x0a | x0d | x0b | x0c => true
  | _ => false
  end.

(** [not line.strip()] on bytes: nothing but white space. *)
Definition bytes_blank (l : bytes) : bool := forallb is_space_byte l.

(** [buffer.split(b'\n\n', 1)] when [b'\n\n' in buffer]: the bytes before
    and after the leftmost occurrence; [None] when there is none. *)
Fixpoint split_nn (buffer : bytes) : option (bytes * bytes) :=
  match buffer with
  | [] => None
  | b :: tl =>
      match b, tl with
      | x0a, x0a :: rest => Some ([], rest)
      | _, _ =>
          match split_nn tl with
          | Some (blk, rest) => Some (b :: blk, rest)
          | None => None
          end
      end
  end.

(** [block.split(b'\n')] *)
Fixpoint split_lines (block : bytes) : list bytes :=
  match block with
  | [] => [[]]
  | b :: tl =>
      match b with
      | x0a => [] :: split_lines tl
      | _ =>
          match split_lines tl with
          | h :: t => (b :: h) :: t
          | [] => [[b]]
          end
      end
  end.

(** ** Request metrics ([RequestMetrics], lines 39-71) *)

Record RequestMetrics := {
  request_id : Z;
  start_time : Q;
  response_headers_time : option Q;
  first_token_time : option Q;
  end_time : option Q;
  total_tokens : Z;
  total_bytes : Z;
  error : option string;
  events : list pydict
}.

(** [ttft]: [first_token_time - start_time] when [first_token_time] is
    truthy. *)
Definition ttft (m : RequestMetrics) : option Q :=
  match first_token_time m with
  | Some t => if float_truthy (Some t) then Some (t - start_time m)%Q else None
  | None => None
  end.

(** [total_time]: [end_time - start_time] when [end_time] is truthy. *)
Definition total_time (m : RequestMetrics) : option Q :=
  match end_time m with
  | Some t => if float_truthy (Some t) then Some (t - start_time m)%Q else None
  | None => None
  end.

(** [tokens_per_second]: guarded by
    [self.total_time and self.total_time > 0]. *)
Definition tokens_per_second (m : RequestMetrics) : option Q :=
  match total_time m with
  | Some d =>
      if float_truthy (Some d)
      then if Qlt_le_dec 0 d
           then Some (inject_Z (total_tokens m) / d)%Q
           else None
      else None
  | None => None
  end.

(** ** [SSEParser.extract_value] (lines 169-185) *)

(** The loop [for key in keys] over the current [value]. *)
Fixpoint extract_keys (value : pyval) (keys : list string) : pyval :=
  match keys with
  | [] => value
  | key :: rest =>
      match value with
      | VDict d =>
          match d !! key with
          | None | Some VNone => VNone
          | Some v => extract_keys v rest
          end
      | _ => VNone
      end
  end.

Definition extract_value (data : pyval) (path : string) : pyval :=
  extract_keys data (str_split "." path).

(** The reading of the specification: a path resolves to a value when
    every key on it is present in a dictionary and maps to a value that
    is not [None]. *)
Inductive path_resolves : pyval -> list string -> pyval -> Prop :=
| resolves_here v : path_resolves v [] v
| resolves_step d key v rest r :
    d !! key = Some v -> v <> VNone ->
    path_resolves v rest r ->
    path_resolves (VDict d) (key :: rest) r.

(** ** Request configuration ([RequestConfig], lines 21-36) *)

(** A data row as [csv.DictReader] yields it: column names and cell texts,
    in column order. *)
Abbreviation row := (list (string * string)).

Record RequestConfig := {
  url : string;
  method : string;
  headers : gmap string string;
  body : pyval;
  timeout : Z;
  data_source : option pyval;
  data_rows : option (list row);
  stream_format : option string;
  first_token_event : option string;
  completion_event : option string;
  output_path : option string
}.

(** ** Request bodies ([_replace_placeholders], [_get_request_body]) *)

(** [lst[i]] for a Python list: a negative index counts from the end,
    [None] stands for [IndexError]. *)
Definition py_list_get {A} (l : list A) (i : Z) : option A :=
  if i <? 0
  then (if i + Z.of_nat (length l) <? 0 then None
        else l !! Z.to_nat (i + Z.of_nat (length l)))
  else l !! Z.to_nat i.

(** The string case of [_replace_placeholders]: one pass over
    [row_data.items()]. *)
Definition replace_in_str (row_data : row) (data : string) : string :=
  fold_left
    (fun result kv =>
       let placeholder := "{{" +:+ fst kv +:+ "}}" in
       if str_contains placeholder result
       then str_replace placeholder (snd kv) result
       else result)
    row_data data.

Fixpoint _replace_placeholders (data : pyval) (row_data : row) : pyval :=
  match data with
  | VStr s => VStr (replace_in_str row_data s)
  | VDict m => VDict ((fun v => _replace_placeholders v row_data) <$> m)
  | VList l => VList (map (fun item => _replace_placeholders item row_data) l)
  | _ => data
  end.

(** [json.loads(json.dumps(body))]: a deep copy, the identity on values. *)
Definition json_copy (v : pyval) : pyval := v.

(** [(request_id - 1) % len(self.config.data_rows)]; Python's [%] takes
    the sign of the divisor, as [Z.modulo] does. *)
Definition row_index (request_id : Z) (row_count : nat) : Z :=
  (request_id - 1) mod Z.of_nat row_count.

(** [_get_request_body]; [None] stands for an [IndexError]. *)
Definition _get_request_body (config : RequestConfig) (request_id : Z)
  : option pyval :=
  match data_rows config with
  | Some ((_ :: _) as rows) =>
      match py_list_get rows (row_index request_id (length rows)) with
      | Some row_data =>
          Some (_replace_placeholders (json_copy (body config)) row_data)
      | None => None
      end
  | _ => Some (body config)
  end.

(** ** Percentiles of [print_report] (lines 549-576) *)

(** [int(x)]: truncation toward zero. *)
Definition py_int (x : Q) : Z :=
  if Qlt_le_dec x 0 then Qceiling x else Qfloor x.

(** [sorted(xs)]: stable, ascending. *)
Fixpoint insert_sorted (x : Q) (l : list Q) : list Q :=
  match l with
  | [] => [x]
  | y :: l' => if Qle_bool x y then x :: l else y :: insert_sorted x l'
  end.

Definition py_sorted (xs : list Q) : list Q := foldr insert_sorted [] xs.

(** [int(len(sorted_xs) * f)] *)
Definition pct_index (n : nat) (f : Q) : Z :=
  py_int (inject_Z (Z.of_nat n) * f).

(** [sorted_xs[int(len(sorted_xs) * f)]] *)
Definition percentile_at (sorted_xs : list Q) (f : Q) : option Q :=
  py_list_get sorted_xs (pct_index (length sorted_xs) f).

Definition f50 : Q := 50 # 100.
Definition f90 : Q := 90 # 100.
Definition f95 : Q := 95 # 100.
Definition f99 : Q := 99 # 100.
Definition thresholds : list Q := [f50; f90; f95; f99].

Definition successful (metrics : list RequestMetrics) : list RequestMetrics :=
  List.filter (fun m => match error m with None => true | Some _ => false end)
              metrics.

(** The P50, P90, P95 and P99 lines of the TTFT block; [None] when the
    block is not printed, an inner [None] for an [IndexError]. *)
Definition ttft_percentiles (metrics : list RequestMetrics)
  : option (list (option Q)) :=
  match omap ttft (successful metrics) with
  | [] => None
  | ttfts =>
      let sorted_ttfts := py_sorted ttfts in
      Some (map (percentile_at sorted_ttfts) thresholds)
  end.

(** The P95 and P99 lines of the total-time block. *)
Definition total_time_percentiles (metrics : list RequestMetrics)
  : option (list (option Q)) :=
  match omap total_time (successful metrics) with
  | [] => None
  | total_times =>
      let sorted_times := py_sorted total_times in
      Some (map (percentile_at sorted_times) [f95; f99])
  end.

(** The index of the specification: [floor(f * n)] clamped to
    [[0, n - 1]]. *)
Definition clamped_index (n : nat) (f : Q) : Z :=
  Z.max 0 (Z.min (Z.of_nat n - 1) (Qfloor (f * inject_Z (Z.of_nat n)))).

(** ** The Python runtime *)

Record PyRuntime := {
  (** [line.decode('utf-8', errors='ignore')] *)
  utf8_decode_ignore : bytes -> string;
  (** [json.loads]; [None] when it raises *)
  json_loads : string -> option pyval;
  (** [str(v)] of a value that is not a string *)
  py_repr : pyval -> string
}.

(** A runtime for plain ASCII input: bytes above 127 are dropped by the
    decoder, and no payload is accepted as JSON. *)
Definition ascii_decode (l : bytes) : string :=
  string_of_list_ascii
    (map ascii_of_byte (List.filter (fun b => (Byte.to_nat b <? 128)%nat) l)).

Definition ascii_runtime : PyRuntime :=
  {| utf8_decode_ignore := ascii_decode;
     json_loads := fun _ => None;
     py_repr := fun _ => "?"%string |}.

(** The bytes of an ASCII string literal. *)
Definition b (s : string) : bytes := map byte_of_ascii (list_ascii_of_string s).

(** ** The loop [while b'\n\n' in buffer] *)

Section Drain.
Context {S : Type}.
(** What the loop body does with one extracted event block. *)
Variable on_block : S -> bytes -> S.
(** What the [for] body does with a non-empty chunk before the loop. *)
Variable on_chunk : S -> bytes -> S.

(** Each turn removes at least the two bytes of the separator, so
    [length buffer] turns are enough. *)
Fixpoint drain (fuel : nat) (st : S) (buffer : bytes) : S * bytes :=
  match fuel with
  | O => (st, buffer)
  | Datatypes.S fuel' =>
      match split_nn buffer with
      | Some (event_block, rest) => drain fuel' (on_block st event_block) rest
      | None => (st, buffer)
      end
  end.

(** One turn of [async for chunk in stream]. *)
Definition feed (sb : S * bytes) (chunk : bytes) : S * bytes :=
  match chunk with
  | [] => sb
  | _ =>
      let buffer := snd sb ++ chunk in
      drain (length buffer) (on_chunk (fst sb) chunk) buffer
  end.

Definition feed_all (chunks : list bytes) (sb : S * bytes) : S * bytes :=
  fold_left feed chunks sb.
End Drain.

Section Model.
Context (rt : PyRuntime).

(** ** [SSEParser.parse_sse_line] (lines 77-111) *)

Definition parse_sse_line (line : bytes) : option pydict :=
  let line_str := strip (utf8_decode_ignore rt line) in
  if String.eqb line_str "" then None
  else
    let result : pydict :=
      if startswith "event:" line_str then
        {[ "event"%string := VStr (strip (str_drop 6 line_str)) ]}
      else if startswith "data:" line_str then
        let data_str := strip (str_drop 5 line_str) in
        match json_loads rt data_str with
        | Some j =>
            <[ "data_json"%string := j ]>
              {[ "data"%string := VStr data_str ]}
        | None => {[ "data"%string := VStr data_str ]}
        end
      else if startswith "id:" line_str then
        {[ "id"%string := VStr (strip (str_drop 3 line_str)) ]}
      else if startswith "retry:" line_str then
        {[ "retry"%string := VStr (strip (str_drop 6 line_str)) ]}
      else ∅
    in
    if bool_decide (result = ∅) then None else Some result.

(** The loop over the lines of a block or of the remainder:
    [event.update(parsed)] lets the later line win. *)
Definition parse_lines (event : pydict) (block : bytes) : pydict :=
  fold_left
    (fun ev line =>
       if bytes_blank line then ev
       else match parse_sse_line line with
            | Some parsed => parsed ∪ ev
            | None => ev
            end)
    (split_lines block) event.

(** ** [SSEParser.parse_sse_stream] (lines 113-167) *)

Definition stream_block (events : list pydict) (event_block : bytes)
  : list pydict :=
  let event_data := parse_lines ∅ event_block in
  if bool_decide (event_data = ∅) then events else events ++ [event_data].

(** The remainder after the stream is exhausted. *)
Definition remainder_event (buffer : bytes) : option pydict :=
  if bytes_blank buffer then None
  else
    let current_event := parse_lines ∅ buffer in
    if bool_decide (current_event = ∅) then None else Some current_event.

Definition parse_sse_stream (stream : list bytes) : list pydict :=
  let '(events, buffer) :=
    feed_all stream_block (fun events _ => events) stream ([], []) in
  match remainder_event buffer with
  | Some current_event => events ++ [current_event]
  | None => events
  end.

(** The events of a whole byte string, by the same extraction: the
    complete blocks from left to right, then the remainder. *)
Definition decode_bytes (data : bytes) : list pydict :=
  let '(events, buffer) := drain stream_block (length data) [] data in
  match remainder_event buffer with
  | Some current_event => events ++ [current_event]
  | None => events
  end.

(** ** Exceptions, the network and the clock *)

(** The exception classes [make_request] tells apart.
    [aiohttp.ServerTimeoutError] derives from [asyncio.TimeoutError]. *)
Inductive exn :=
| TimeoutError
| ServerTimeoutError (msg : string)
| ClientConnectorError (msg : string)
| OtherException (msg : string).

Definition is_TimeoutError (e : exn) : bool :=
  match e with
  | TimeoutError | ServerTimeoutError _ => true
  | _ => false
  end.

(** [str(e)] *)
Definition exn_str (e : exn) : string :=
  match e with
  | TimeoutError => ""
  | ServerTimeoutError msg | ClientConnectorError msg
  | OtherException msg => msg
  end.

(** What [await response.text()] does. *)
Inductive text_script :=
| TextOk (error_body : string)
| TextRaises (msg : string).

(** What [response.content.iter_any()] does: it yields [chunks], then
    stops, or raises [stream_end]. *)
Record stream_script := {
  chunks : list bytes;
  stream_end : option exn
}.

(** What [session.request] does. *)
Inductive net_script :=
| RequestRaises (e : exn)
| Response (status : Z) (text : text_script) (stream : stream_script).

(** The state a request threads: the number of [time.time()] calls
    made, and the metric under construction. *)
Record req_state := {
  now : nat;
  metric : RequestMetrics
}.

Inductive result (A : Type) :=
| Done (a : A)
| Raised (e : exn).
Arguments Done {A} a.
Arguments Raised {A} e.

Definition M (A : Type) : Type := req_state -> result A * req_state.

Definition ret {A} (a : A) : M A := fun st => (Done a, st).
Definition raise {A} (e : exn) : M A := fun st => (Raised e, st).
Definition bind {A B} (c : M A) (k : A -> M B) : M B :=
  fun st =>
    match c st with
    | (Done a, st') => k a st'
    | (Raised e, st') => (Raised e, st')
    end.

Notation "x <- c ;; k" := (bind c (fun x => k))
  (at level 100, c at next level, right associativity).
Notation "c ;; k" := (bind c (fun _ => k))
  (at level 100, right associativity).

Variable clock : nat -> Q.

(** [time.time()] *)
Definition tick : M Q :=
  fun st => (Done (clock (now st)), {| now := S (now st); metric := metric st |}).

Definition get_metric : M RequestMetrics := fun st => (Done (metric st), st).

Definition update (f : RequestMetrics -> RequestMetrics) : M unit :=
  fun st => (Done tt, {| now := now st; metric := f (metric st) |}).

Definition set_response_headers_time (t : Q) (m : RequestMetrics) :=
  {| request_id := request_id m; start_time := start_time m;
     response_headers_time := Some t;
     first_token_time := first_token_time m; end_time := end_time m;
     total_tokens := total_tokens m; total_bytes := total_bytes m;
     error := error m; events := events m |}.

Definition set_first_token_time (t : Q) (m : RequestMetrics) :=
  {| request_id := request_id m; start_time := start_time m;
     response_headers_time := response_headers_time m;
     first_token_time := Some t; end_time := end_time m;
     total_tokens := total_tokens m; total_bytes := total_bytes m;
     error := error m; events := events m |}.

Definition set_end_time (t : Q) (m : RequestMetrics) :=
  {| request_id := request_id m; start_time := start_time m;
     response_headers_time := response_headers_time m;
     first_token_time := first_token_time m; end_time := Some t;
     total_tokens := total_tokens m; total_bytes := total_bytes m;
     error := error m; events := events m |}.

Definition set_total_tokens (n : Z) (m : RequestMetrics) :=
  {| request_id := request_id m; start_time := start_time m;
     response_headers_time := response_headers_time m;
     first_token_time := first_token_time m; end_time := end_time m;
     total_tokens := n; total_bytes := total_bytes m;
     error := error m; events := events m |}.

Definition add_total_bytes (n : Z) (m : RequestMetrics) :=
  {| request_id := request_id m; start_time := start_time m;
     response_headers_time := response_headers_time m;
     first_token_time := first_token_time m; end_time := end_time m;
     total_tokens := total_tokens m; total_bytes := total_bytes m + n;
     error := error m; events := events m |}.

Definition set_error (s : string) (m : RequestMetrics) :=
  {| request_id := request_id m; start_time := start_time m;
     response_headers_time := response_headers_time m;
     first_token_time := first_token_time m; end_time := end_time m;
     total_tokens := total_tokens m; total_bytes := total_bytes m;
     error := Some s; events := events m |}.

Definition set_events (evs : list pydict) (m : RequestMetrics) :=
  {| request_id := request_id m; start_time := start_time m;
     response_headers_time := response_headers_time m;
     first_token_time := first_token_time m; end_time := end_time m;
     total_tokens := total_tokens m; total_bytes := total_bytes m;
     error := error m; events := evs |}.

(** Formatting [None] with [:.3f] or [:.2f] raises this [TypeError]. *)
Definition format_None : exn :=
  OtherException "unsupported format string passed to NoneType.__format__".

(** [f"{x:.3f}"]: only whether it raises matters. *)
Definition format_float (x : option Q) : M unit :=
  match x with
  | Some _ => ret tt
  | None => raise format_None
  end.

Fixpoint for_each {A B} (f : B -> A -> M B) (l : list A) (acc : B) : M B :=
  match l with
  | [] => ret acc
  | x :: l' => acc' <- f acc x ;; for_each f l' acc'
  end.

(** ** [StreamTester.make_request] (lines 229-445) *)

Variable config : RequestConfig.

(** *** A status other than 200 (lines 250-265) *)

(** [error_json.get('message', error_body)], or [error_body] when the
    body is not JSON or not a JSON object. *)
Definition error_message (error_body : string) : pyval :=
  match json_loads rt error_body with
  | Some (VDict d) => default (VStr error_body) (d !! "message"%string)
  | _ => VStr error_body
  end.

(** [error_msg[:200]]: a text keeps its first 200 characters, a list
    its first 200 items; on the left the text of the [TypeError] raised
    by a value that cannot be sliced (for a [dict], the text CPython
    gives before version 3.12). *)
Definition slice200 (v : pyval) : string + pyval :=
  match v with
  | VStr s => inr (VStr (str_take 200 s))
  | VList l => inr (VList (take 200 l))
  | VNone => inl "'NoneType' object is not subscriptable"%string
  | VBool _ => inl "'bool' object is not subscriptable"%string
  | VInt _ => inl "'int' object is not subscriptable"%string
  | VFloat _ => inl "'float' object is not subscriptable"%string
  | VDict _ => inl "unhashable type: 'slice'"%string
  end.

(** [f"{v}"] *)
Definition py_format (v : pyval) : string :=
  match v with
  | VStr s => s
  | _ => py_repr rt v
  end.

Definition unreadable (status : Z) (msg : string) : string :=
  "HTTP " +:+ pretty status +:+ " (无法读取错误信息: " +:+ msg +:+ ")".

Definition http_error (status : Z) (text : text_script) : string :=
  match text with
  | TextRaises msg => unreadable status msg
  | TextOk error_body =>
      match slice200 (error_message error_body) with
      | inr excerpt => "HTTP " +:+ pretty status +:+ ": " +:+ py_format excerpt
      | inl msg => unreadable status msg
      end
  end.

(** *** The SSE branch (lines 271-385) *)

Record sse_locals := {
  sse_events : list pydict;
  first_token_found : bool;
  first_event_time : option Q;
  event_count : Z
}.

Definition sse_init : sse_locals :=
  {| sse_events := []; first_token_found := false;
     first_event_time := None; event_count := 0 |}.

(** [v == s] for a string [s]. *)
Definition pyval_is_str (v : pyval) (s : string) : bool :=
  match v with
  | VStr s' => String.eqb s' s
  | _ => false
  end.

(** The effective event type (lines 305-313). *)
Definition event_type_of (event_data : pydict) : pyval :=
  let sse_level := default (VStr "") (event_data !! "event"%string) in
  match default (VDict ∅) (event_data !! "data_json"%string) with
  | VDict d =>
      match d !! "event"%string with
      | Some v => v
      | None => sse_level
      end
  | _ => sse_level
  end.

(** The output a completion event surfaces (lines 333-345); it is only
    printed. *)
Definition completion_output (event_data : pydict) : option pyval :=
  let data_json := default (VDict ∅) (event_data !! "data_json"%string) in
  let event_type := event_type_of event_data in
  let extracted :=
    if str_truthy (output_path config) && truthy data_json then
      let output := extract_value data_json (default "" (output_path config)) in
      if truthy output then Some output else None
    else None in
  if str_truthy (completion_event config) then
    if pyval_is_str event_type (default "" (completion_event config))
    then extracted else None
  else if pyval_is_str event_type "workflow_finished" then extracted
  else None.

(** Lines 323-326 and 328-331. *)
Definition mark_first_token (loc : sse_locals) : M sse_locals :=
  t <- tick ;;
  update (set_first_token_time t) ;;
  m <- get_metric ;;
  format_float (ttft m) ;;
  ret {| sse_events := sse_events loc; first_token_found := true;
         first_event_time := first_event_time loc;
         event_count := event_count loc |}.

(** The body of [if event_data:] (lines 302-345). *)
Definition handle_event (loc : sse_locals) (event_data : pydict)
  : M sse_locals :=
  let loc1 :=
    {| sse_events := sse_events loc ++ [event_data];
       first_token_found := first_token_found loc;
       first_event_time := first_event_time loc;
       event_count := event_count loc + 1 |} in
  let event_type := event_type_of event_data in
  loc2 <- (if (event_count loc1 =? 1) && negb (first_token_found loc1)
           then t <- tick ;;
                ret {| sse_events := sse_events loc1;
                       first_token_found := first_token_found loc1;
                       first_event_time := Some t;
                       event_count := event_count loc1 |}
           else ret loc1) ;;
  if first_token_found loc2 then ret loc2
  else if str_truthy (first_token_event config) then
    if pyval_is_str event_type (default "" (first_token_event config))
    then mark_first_token loc2 else ret loc2
  else if truthy event_type then mark_first_token loc2
  else ret loc2.

(** The loop state: the locals, or the exception that ended the loop. *)
Definition sse_loop_state : Type := result sse_locals * req_state.

Definition sse_block (r : sse_loop_state) (event_block : bytes)
  : sse_loop_state :=
  match r with
  | (Done loc, st) =>
      let event_data := parse_lines ∅ event_block in
      if bool_decide (event_data = ∅) then r
      else handle_event loc event_data st
  | (Raised _, _) => r
  end.

(** [metric.total_bytes += len(chunk)] *)
Definition sse_chunk (r : sse_loop_state) (chunk : bytes) : sse_loop_state :=
  match r with
  | (Done loc, st) =>
      (Done loc, {| now := now st;
                    metric := add_total_bytes (Z.of_nat (length chunk))
                                              (metric st) |})
  | (Raised _, _) => r
  end.

(** The event type the statistics are keyed by (lines 374-381). *)
Definition stat_event_type (event : pydict) : pyval :=
  let sse_level := default (VStr "unknown") (event !! "event"%string) in
  match default (VDict ∅) (event !! "data_json"%string) with
  | VDict d =>
      match d !! "event"%string with
      | Some v => v
      | None => sse_level
      end
  | _ => sse_level
  end.

(** Using a value as a dictionary key. *)
Definition hash_key (v : pyval) : M unit :=
  match v with
  | VList _ => raise (OtherException "unhashable type: 'list'")
  | VDict _ => raise (OtherException "unhashable type: 'dict'")
  | _ => ret tt
  end.

(** Lines 359-364: without a first-token event, the time of the first
    event, or else the current time when some event was recorded. *)
Definition first_token_fallback (loc : sse_locals) : M unit :=
  if first_token_found loc then ret tt
  else if float_truthy (first_event_time loc) then
    match first_event_time loc with
    | Some t0 => update (set_first_token_time t0)
    | None => ret tt
    end
  else match sse_events loc with
       | [] => ret tt
       | _ => t <- tick ;; update (set_first_token_time t)
       end.

(** Lines 372-385: the statistics by event type and the summary line. *)
Definition event_statistics (evs : list pydict) : M unit :=
  for_each (fun _ event => hash_key (stat_event_type event)) evs tt ;;
  m <- get_metric ;;
  format_float (total_time m).

(** Lines 347-357: the remainder of the buffer. *)
Definition with_remainder (loc : sse_locals) (buffer : bytes) : sse_locals :=
  match remainder_event buffer with
  | Some current_event =>
      {| sse_events := sse_events loc ++ [current_event];
         first_token_found := first_token_found loc;
         first_event_time := first_event_time loc;
         event_count := event_count loc + 1 |}
  | None => loc
  end.

(** Lines 347-385. *)
Definition sse_finish (loc : sse_locals) (buffer : bytes) : M unit :=
  let loc' := with_remainder loc buffer in
  first_token_fallback loc' ;;
  update (set_events (sse_events loc')) ;;
  t <- tick ;;
  update (set_end_time t) ;;
  update (set_total_tokens (Z.of_nat (length (sse_events loc')))) ;;
  event_statistics (sse_events loc').

Definition sse_path (stream : stream_script) : M unit :=
  fun st =>
    match feed_all sse_block sse_chunk (chunks stream) ((Done sse_init, st), [])
    with
    | ((Raised e, st'), _) => (Raised e, st')
    | ((Done loc, st'), buffer) =>
        match stream_end stream with
        | Some e => (Raised e, st')
        | None => sse_finish loc buffer st'
        end
    end.

(** *** The raw branch (lines 387-416) *)

Record raw_locals := {
  chunk_count : Z;
  stream_started : bool;
  raw_buffer : bytes
}.

Definition raw_chunk (loc : raw_locals) (chunk : bytes) : M raw_locals :=
  match chunk with
  | [] => ret loc
  | _ =>
      (if stream_started loc then ret tt
       else t <- tick ;;
            update (set_first_token_time t) ;;
            m <- get_metric ;;
            format_float (ttft m)) ;;
      update (add_total_bytes (Z.of_nat (length chunk))) ;;
      ret {| chunk_count := chunk_count loc + 1;
             stream_started := true;
             raw_buffer := raw_buffer loc ++ chunk |}
  end.

Definition raw_path (stream : stream_script) : M unit :=
  loc <- for_each raw_chunk (chunks stream)
           {| chunk_count := 0; stream_started := false; raw_buffer := [] |} ;;
  match stream_end stream with
  | Some e => raise e
  | None =>
      update (set_total_tokens (chunk_count loc)) ;;
      t <- tick ;;
      update (set_end_time t) ;;
      m <- get_metric ;;
      format_float (total_time m) ;;
      format_float (tokens_per_second m)
  end.

(** *** The [try] block and its handlers *)

Definition is_sse : bool :=
  match stream_format config with
  | Some f => String.eqb f "sse"
  | None => false
  end.

Definition try_block (net : net_script) (request_id : Z) : M unit :=
  match _get_request_body config request_id with
  | None => raise (OtherException "list index out of range")
  | Some _ =>
      match net with
      | RequestRaises e => raise e
      | Response status text stream =>
          if negb (status =? 200) then
            update (set_error (http_error status text)) ;;
            t <- tick ;;
            update (set_end_time t)
          else
            t <- tick ;;
            update (set_response_headers_time t) ;;
            if is_sse then sse_path stream else raw_path stream
      end
  end.

(** The [except] clauses, tried in order (lines 418-443). *)
Definition handler (e : exn) : M unit :=
  if is_TimeoutError e then
    update (set_error ("Timeout (>" +:+ pretty (timeout config) +:+ "s)")) ;;
    t <- tick ;;
    update (set_end_time t) ;;
    m <- get_metric ;;
    format_float (total_time m)
  else
    match e with
    | ServerTimeoutError msg =>
        update (set_error ("Server Timeout: " +:+ msg)) ;;
        t <- tick ;;
        update (set_end_time t) ;;
        m <- get_metric ;;
        format_float (total_time m)
    | ClientConnectorError msg =>
        update (set_error
                  (if str_contains "timeout" (lower msg)
                      || str_contains "timed out" (lower msg)
                   then "Connection Timeout: " +:+ msg
                   else "Connection Error: " +:+ msg)) ;;
        t <- tick ;;
        update (set_end_time t)
    | _ =>
        update (set_error (exn_str e)) ;;
        t <- tick ;;
        update (set_end_time t)
    end.

(** What a call of [make_request] comes to: the metric it returns, or
    the exception that escapes it. *)
Inductive outcome :=
| Returned (m : RequestMetrics)
| Propagated (e : exn).

Definition new_metric (request_id : Z) : RequestMetrics :=
  {| request_id := request_id; start_time := clock 0;
     response_headers_time := None; first_token_time := None;
     end_time := None; total_tokens := 0; total_bytes := 0;
     error := None; events := [] |}.

Definition make_request (net : net_script) (request_id : Z) : outcome :=
  let st0 := {| now := 1; metric := new_metric request_id |} in
  match try_block net request_id st0 with
  | (Done _, st) => Returned (metric st)
  | (Raised e, st) =>
      match handler e st with
      | (Done _, st') => Returned (metric st')
      | (Raised e', _) => Propagated e'
      end
  end.
End Model.

Arguments Done {A} a.
Arguments Raised {A} e.

(** [time.time()] never returns [0.0]. *)
Definition clock_nonzero (clock : nat -> Q) : Prop :=
  forall i, ~ (clock i == 0)%Q.

(** [time.time()] never goes back. *)
Definition clock_monotone (clock : nat -> Q) : Prop :=
  forall i j, (i <= j)%nat -> (clock i <= clock j)%Q.

(** ** The worker pool ([worker] and [run], lines 447-529) *)

(** Where a worker task stands: before [async with self.semaphore],
    before [await request_queue.get()], inside [make_request], or after
    [break]. *)
Inductive worker_pc :=
| AtAcquire
| AtGet
| InRequest (request_id : Z)
| Exited.

Record pool_state := {
  queue : list (option Z);
  unfinished_tasks : Z;
  semaphore_value : Z;
  workers : list worker_pc;
  metrics : list RequestMetrics;
  completed_count : Z
}.

Definition set_worker (i : nat) (pc : worker_pc) (s : pool_state) : pool_state :=
  {| queue := queue s; unfinished_tasks := unfinished_tasks s;
     semaphore_value := semaphore_value s;
     workers := <[ i := pc ]> (workers s);
     metrics := metrics s; completed_count := completed_count s |}.

(** Entering and leaving [async with self.semaphore]. *)
Definition add_semaphore (d : Z) (s : pool_state) : pool_state :=
  {| queue := queue s; unfinished_tasks := unfinished_tasks s;
     semaphore_value := semaphore_value s + d;
     workers := workers s;
     metrics := metrics s; completed_count := completed_count s |}.

Definition set_queue (q : list (option Z)) (s : pool_state) : pool_state :=
  {| queue := q; unfinished_tasks := unfinished_tasks s;
     semaphore_value := semaphore_value s;
     workers := workers s;
     metrics := metrics s; completed_count := completed_count s |}.

(** [self.metrics.append(metric); self.completed_count += 1] *)
Definition record_metric (m : RequestMetrics) (s : pool_state) : pool_state :=
  {| queue := queue s; unfinished_tasks := unfinished_tasks s;
     semaphore_value := semaphore_value s;
     workers := workers s;
     metrics := metrics s ++ [m]; completed_count := completed_count s + 1 |}.

(** [request_queue.task_done()]; [None] stands for its [ValueError]. *)
Definition task_done (s : pool_state) : option pool_state :=
  if unfinished_tasks s <=? 0 then None
  else Some {| queue := queue s; unfinished_tasks := unfinished_tasks s - 1;
               semaphore_value := semaphore_value s;
               workers := workers s;
               metrics := metrics s; completed_count := completed_count s |}.

(** Worker [i] has taken the sentinel: [task_done(); break].  If
    [task_done] raised, the handler of the loop would call it again,
    ignore the second [ValueError], and the loop would go on. *)
Definition after_sentinel (i : nat) (s : pool_state) : pool_state :=
  match task_done s with
  | Some s' => add_semaphore 1 (set_worker i Exited s')
  | None => add_semaphore 1 (set_worker i AtAcquire s)
  end.

(** Worker [i] got [m] back from [make_request]: the metric is
    recorded, then [task_done()], and the loop goes on either way. *)
Definition after_request (i : nat) (m : RequestMetrics) (s : pool_state)
  : pool_state :=
  let s1 := record_metric m s in
  match task_done s1 with
  | Some s2 => add_semaphore 1 (set_worker i AtAcquire s2)
  | None => add_semaphore 1 (set_worker i AtAcquire s1)
  end.

Section Pool.
Context (rt : PyRuntime) (config : RequestConfig).

(** One scheduling step of the event loop: some worker task runs up
    to its next suspension point. *)
Inductive step : pool_state -> pool_state -> Prop :=
| step_acquire i s :
    workers s !! i = Some AtAcquire ->
    0 < semaphore_value s ->
    step s (set_worker i AtGet (add_semaphore (-1) s))
| step_get_sentinel i s q :
    workers s !! i = Some AtGet ->
    queue s = None :: q ->
    step s (after_sentinel i (set_queue q s))
| step_get_request i s request_id q :
    workers s !! i = Some AtGet ->
    queue s = Some request_id :: q ->
    step s (set_worker i (InRequest request_id) (set_queue q s))
| step_request_done i s request_id clock net m :
    workers s !! i = Some (InRequest request_id) ->
    clock_nonzero clock ->
    make_request rt clock config net request_id = Returned m ->
    step s (after_request i m s).

(** The state in which [run] creates the workers: the identifiers
    [1..total_requests], then one sentinel per worker. *)
Definition pool_init (concurrency total_requests : Z) : pool_state :=
  {| queue := map (fun i => Some (Z.of_nat i + 1)) (seq 0 (Z.to_nat total_requests))
              ++ replicate (Z.to_nat concurrency) None;
     unfinished_tasks := Z.of_nat (Z.to_nat total_requests)
                         + Z.of_nat (Z.to_nat concurrency);
     semaphore_value := concurrency;
     workers := replicate (Z.to_nat concurrency) AtAcquire;
     metrics := []; completed_count := 0 |}.

(** [await request_queue.join()] and [await asyncio.gather( *workers)]
    have both returned. *)
Definition run_completed (s : pool_state) : Prop :=
  unfinished_tasks s = 0 /\ Forall (fun pc => pc = Exited) (workers s).
End Pool.

(** ** The summary of [print_report] (lines 539-547 and 584-590) *)

Definition failed (metrics : list RequestMetrics) : list RequestMetrics :=
  List.filter (fun m => match error m with None => false | Some _ => true end)
              metrics.

(** [a / b] on numbers; [None] stands for [ZeroDivisionError]. *)
Definition py_div (a d : Q) : option Q :=
  if Qeq_bool d 0 then None else Some (a / d)%Q.

Record overall := {
  n_successful : nat;
  successful_pct : Q;
  n_failed : nat;
  failed_pct : Q;
  throughput : Q
}.

(** The block of overall statistics, printed first (lines 539-547):
    [len(successful)/self.total_requests*100],
    [len(failed)/self.total_requests*100] and
    [self.total_requests/total_elapsed], in this order. *)
Definition overall_statistics (metrics : list RequestMetrics)
           (total_requests : Z) (total_elapsed : Q) : option overall :=
  let n_ok := length (successful metrics) in
  let n_ko := length (failed metrics) in
  match py_div (inject_Z (Z.of_nat n_ok)) (inject_Z total_requests) with
  | None => None
  | Some r_ok =>
      match py_div (inject_Z (Z.of_nat n_ko)) (inject_Z total_requests) with
      | None => None
      | Some r_ko =>
          match py_div (inject_Z total_requests) total_elapsed with
          | None => None
          | Some rate =>
              Some {| n_successful := n_ok; successful_pct := (r_ok * 100)%Q;
                      n_failed := n_ko; failed_pct := (r_ko * 100)%Q;
                      throughput := rate |}
          end
      end
  end.

(** The grouping of the failures by error text (lines 586-588):
    [error_counts[m.error] = error_counts.get(m.error, 0) + 1]. *)
Definition error_counts (metrics : list RequestMetrics) : gmap string Z :=
  fold_left
    (fun counts m =>
       match error m with
       | Some e => <[ e := default 0 (counts !! e) + 1 ]> counts
       | None => counts
       end)
    (failed metrics) ∅.

(** * Properties *)

(** ** Derived metrics *)

Lemma float_truthy_Some (t : Q) :
  float_truthy (Some t) = true <-> ~ (t == 0)%Q.
Proof.
  unfold float_truthy. rewrite negb_true_iff.
  split.
  - intros H E. apply Qeq_bool_iff in E. congruence.
  - intros H. destruct (Qeq_bool t 0) eqn:E; [|reflexivity].
    apply Qeq_bool_iff in E. contradiction.
Qed.

Lemma total_time_None_of_end (m : RequestMetrics) :
  end_time m = None -> total_time m = None.
Proof. unfold total_time. intros ->. reflexivity. Qed.

(** C9: [tokens_per_second] never divides by zero.  It is [None] when
    [end_time] is absent, when [total_time] is absent, and when
    [total_time] is not strictly positive; otherwise it is
    [total_tokens / total_time], and the divisor is not zero. *)
Theorem tokens_per_second_guarded (m : RequestMetrics) :
  (end_time m = None -> tokens_per_second m = None) /\
  (total_time m = None -> tokens_per_second m = None) /\
  (forall d, total_time m = Some d -> ~ (0 < d)%Q ->
             tokens_per_second m = None) /\
  (forall d, total_time m = Some d -> (0 < d)%Q ->
             tokens_per_second m = Some (inject_Z (total_tokens m) / d)%Q
             /\ ~ (d == 0)%Q) /\
  (forall r, tokens_per_second m = Some r ->
             exists d, total_time m = Some d /\ (0 < d)%Q /\ ~ (d == 0)%Q
                       /\ r = (inject_Z (total_tokens m) / d)%Q).
Proof.
  unfold tokens_per_second.
  split; [|split; [|split; [|split]]].
  - intros H. rewrite (total_time_None_of_end m H). reflexivity.
  - intros ->. reflexivity.
  - intros d -> Hd.
    destruct (float_truthy (Some d)); [|reflexivity].
    destruct (Qlt_le_dec 0 d); [contradiction|reflexivity].
  - intros d -> Hd.
    assert (Hn : ~ (d == 0)%Q).
    { intros E0. rewrite E0 in Hd. revert Hd. apply Qlt_irrefl. }
    split; [|exact Hn].
    apply float_truthy_Some in Hn. rewrite Hn.
    destruct (Qlt_le_dec 0 d) as [_|Hle]; [reflexivity|].
    exfalso. revert Hle. now apply Qlt_not_le.
  - intros r H.
    destruct (total_time m) as [d|]; [|discriminate].
    destruct (float_truthy (Some d)) eqn:E; [|discriminate].
    destruct (Qlt_le_dec 0 d) as [Hlt|]; [|discriminate].
    exists d. split; [reflexivity|]. split; [assumption|].
    split; [now apply float_truthy_Some | congruence].
Qed.

(** ** [extract_value] *)

Lemma str_split_nonempty (c : ascii) (s : string) : str_split c s <> [].
Proof.
  induction s as [|a s IH]; simpl; [discriminate|].
  destruct (Ascii.eqb a c); [discriminate|].
  destruct (str_split c s); [contradiction|discriminate].
Qed.

Lemma extract_keys_resolves (keys : list string) :
  forall value r, path_resolves value keys r -> extract_keys value keys = r.
Proof.
  induction keys as [|key rest IH]; intros value r H; inversion H; subst.
  - reflexivity.
  - simpl. rewrite H2. destruct v; try contradiction; now apply IH.
Qed.

Lemma extract_keys_unresolved (keys : list string) :
  forall value, (forall r, ~ path_resolves value keys r) ->
                extract_keys value keys = VNone.
Proof.
  induction keys as [|key rest IH]; intros value H.
  - exfalso. apply (H value). constructor.
  - simpl. destruct value; try reflexivity.
    destruct (m !! key) as [v|] eqn:E; [|reflexivity].
    assert (Hv : v <> VNone -> extract_keys v rest = VNone).
    { intros Hne. apply IH. intros r Hr. apply (H r).
      now apply resolves_step with (v := v). }
    destruct v; try reflexivity; apply Hv; discriminate.
Qed.

Lemma path_resolves_functional (keys : list string) :
  forall value r1 r2,
    path_resolves value keys r1 -> path_resolves value keys r2 -> r1 = r2.
Proof.
  intros value r1 r2 H1 H2.
  rewrite <- (extract_keys_resolves keys value r1 H1).
  now apply extract_keys_resolves.
Qed.

(** C10: [extract_value] is a total function of the dictionary and the
    path: it yields the value at the end of the path when every key on
    the path is found in a dictionary with a value other than [None], and
    [None] in every other case (a key is missing, maps to [None], or is
    looked up in something that is not a dictionary). *)
Theorem extract_value_total (data : pyval) (path : string) :
  str_split "." path <> [] /\
  (forall r, path_resolves data (str_split "." path) r ->
             extract_value data path = r) /\
  ((forall r, ~ path_resolves data (str_split "." path) r) ->
   extract_value data path = VNone) /\
  (extract_value data path <> VNone ->
   path_resolves data (str_split "." path) (extract_value data path)).
Proof.
  split; [apply str_split_nonempty|].
  split; [apply extract_keys_resolves|].
  split; [apply extract_keys_unresolved|].
  unfold extract_value.
  generalize (str_split "." path) as keys. intros keys. revert data.
  induction keys as [|key rest IH]; intros data H; simpl in *.
  - constructor.
  - destruct data; try contradiction.
    destruct (m !! key) as [v|] eqn:E; [|contradiction].
    apply resolves_step with (v := v); [exact E | |].
    + intros ->. contradiction.
    + destruct v; try contradiction; now apply IH.
Qed.

(** ** Request bodies *)

Lemma row_index_range (request_id : Z) (n : nat) :
  (0 < n)%nat -> 0 <= row_index request_id n < Z.of_nat n.
Proof. intros H. unfold row_index. apply Z.mod_pos_bound. lia. Qed.

Lemma py_list_get_nonneg {A} (l : list A) (i : Z) :
  0 <= i -> py_list_get l i = l !! Z.to_nat i.
Proof.
  intros H. unfold py_list_get.
  destruct (i <? 0) eqn:E; [|reflexivity]. apply Z.ltb_lt in E. lia.
Qed.

(** C7: with a non-empty list of data rows, the body of request
    [request_id] is built from row [(request_id - 1) mod row_count], a
    function of the identifier alone; with three rows the identifiers
    1..7 use the rows 0, 1, 2, 0, 1, 2, 0. *)
Theorem request_body_row (config : RequestConfig) (rows : list row)
        (request_id : Z) :
  data_rows config = Some rows -> rows <> [] ->
  (0 <= row_index request_id (length rows) < Z.of_nat (length rows)) /\
  (exists row_data,
      rows !! Z.to_nat ((request_id - 1) mod Z.of_nat (length rows))
        = Some row_data /\
      _get_request_body config request_id
        = Some (_replace_placeholders (body config) row_data)) /\
  map (fun i => row_index i 3) [1; 2; 3; 4; 5; 6; 7] = [0; 1; 2; 0; 1; 2; 0].
Proof.
  intros Hrows Hne.
  assert (Hlen : (0 < length rows)%nat).
  { destruct rows; [contradiction|simpl; lia]. }
  pose proof (row_index_range request_id (length rows) Hlen) as Hr.
  split; [exact Hr|]. split; [|reflexivity].
  destruct (lookup_lt_is_Some_2 rows (Z.to_nat (row_index request_id (length rows))))
    as [row_data Hrow]; [lia|].
  exists row_data. split; [exact Hrow|].
  unfold _get_request_body. rewrite Hrows.
  destruct rows as [|r0 rows']; [contradiction|].
  rewrite py_list_get_nonneg by lia.
  rewrite Hrow. reflexivity.
Qed.

(** ** Percentiles *)

Lemma insert_sorted_perm (x : Q) (l : list Q) :
  Permutation (x :: l) (insert_sorted x l).
Proof.
  induction l as [|y l IH]; simpl; [reflexivity|].
  destruct (Qle_bool x y); [reflexivity|].
  rewrite perm_swap. now apply perm_skip.
Qed.

Lemma py_sorted_perm (xs : list Q) : Permutation xs (py_sorted xs).
Proof.
  induction xs as [|x xs IH]; simpl; [reflexivity|].
  etransitivity; [apply perm_skip, IH|apply insert_sorted_perm].
Qed.

Lemma py_sorted_length (xs : list Q) : length (py_sorted xs) = length xs.
Proof. symmetry. apply Permutation_length, py_sorted_perm. Qed.

Lemma insert_sorted_hdrel (a x : Q) (l : list Q) :
  (a <= x)%Q -> HdRel Qle a l -> HdRel Qle a (insert_sorted x l).
Proof.
  intros Hax H. destruct l as [|y l]; simpl; [now constructor|].
  destruct (Qle_bool x y); constructor; [assumption|].
  now inversion H.
Qed.

Lemma insert_sorted_sorted (x : Q) (l : list Q) :
  Sorted Qle l -> Sorted Qle (insert_sorted x l).
Proof.
  induction 1 as [|y l Hs IH Hhd]; simpl; [repeat constructor|].
  destruct (Qle_bool x y) eqn:E.
  - apply Qle_bool_iff in E. repeat constructor; assumption.
  - constructor; [exact IH|].
    apply insert_sorted_hdrel; [|exact Hhd].
    apply Qlt_le_weak, Qnot_le_lt. intros Hle.
    apply Qle_bool_iff in Hle. congruence.
Qed.

Lemma py_sorted_sorted (xs : list Q) : Sorted Qle (py_sorted xs).
Proof.
  induction xs as [|x xs IH]; simpl; [constructor|].
  now apply insert_sorted_sorted.
Qed.

(** On the four thresholds the index is [floor(k * n / 100)]. *)
Lemma pct_index_div (n : nat) (k : positive) :
  pct_index n (Zpos k # 100) = (Z.of_nat n * Zpos k) / 100.
Proof.
  unfold pct_index, py_int.
  destruct (Qlt_le_dec (inject_Z (Z.of_nat n) * (Z.pos k # 100)) 0) as [Hneg|_].
  - exfalso. revert Hneg. apply Qle_not_lt.
    apply Qmult_le_0_compat; unfold Qle; simpl; lia.
  - unfold Qfloor, Qmult, inject_Z. simpl. reflexivity.
Qed.

Lemma clamped_index_div (n : nat) (k : positive) :
  (0 < n)%nat -> (k < 100)%positive ->
  clamped_index n (Zpos k # 100) = (Z.of_nat n * Zpos k) / 100.
Proof.
  intros Hn Hk. unfold clamped_index.
  assert (E : Qfloor ((Z.pos k # 100) * inject_Z (Z.of_nat n))
              = (Z.of_nat n * Zpos k) / 100).
  { unfold Qfloor, Qmult, inject_Z. simpl.
    rewrite Pos.mul_1_r. f_equal. lia. }
  rewrite E.
  assert (0 <= Z.of_nat n * Z.pos k / 100) by (apply Z.div_pos; lia).
  assert (Z.of_nat n * Z.pos k / 100 < Z.of_nat n).
  { apply Z.div_lt_upper_bound; [lia|nia]. }
  lia.
Qed.

Lemma threshold_cases (f : Q) :
  In f thresholds ->
  exists k, f = (Zpos k # 100) /\ (k < 100)%positive.
Proof.
  unfold thresholds, f50, f90, f95, f99.
  intros [<-|[<-|[<-|[<-|[]]]]]; eexists; (split; [reflexivity|lia]).
Qed.

(** C4: for a non-empty sample of [n] values and each threshold [f] of
    P50, P90, P95 and P99, the percentile printed is the element of the
    ascending-sorted sample at index [floor(f * n)]; that index already
    lies in [[0, n-1]], so clamping does not change it.  For the sample
    1..10, P50 selects index 5 and the value 6. *)
Theorem percentile_nearest_rank (xs : list Q) (f : Q) :
  xs <> [] -> In f thresholds ->
  Sorted Qle (py_sorted xs) /\ Permutation xs (py_sorted xs) /\
  pct_index (length (py_sorted xs)) f = Qfloor (f * inject_Z (Z.of_nat (length xs))) /\
  pct_index (length (py_sorted xs)) f = clamped_index (length xs) f /\
  0 <= clamped_index (length xs) f <= Z.of_nat (length xs) - 1 /\
  (exists v, percentile_at (py_sorted xs) f = Some v /\
             py_sorted xs !! Z.to_nat (clamped_index (length xs) f) = Some v) /\
  pct_index 10 f50 = 5 /\
  percentile_at (py_sorted (map inject_Z [1; 2; 3; 4; 5; 6; 7; 8; 9; 10])) f50
    = Some (inject_Z 6).
Proof.
  intros Hne Hf.
  destruct (threshold_cases f Hf) as (k & -> & Hk).
  assert (Hn : (0 < length xs)%nat).
  { destruct xs; [contradiction|simpl; lia]. }
  rewrite py_sorted_length, pct_index_div, clamped_index_div by assumption.
  assert (H0 : 0 <= Z.of_nat (length xs) * Z.pos k / 100)
    by (apply Z.div_pos; lia).
  assert (H1 : Z.of_nat (length xs) * Z.pos k / 100 < Z.of_nat (length xs))
    by (apply Z.div_lt_upper_bound; [lia|nia]).
  split; [apply py_sorted_sorted|]. split; [apply py_sorted_perm|].
  split.
  { unfold Qfloor, Qmult, inject_Z. simpl.
    rewrite Pos.mul_1_r. f_equal. lia. }
  split; [reflexivity|]. split; [lia|].
  split; [|split; reflexivity].
  destruct (lookup_lt_is_Some_2 (py_sorted xs)
              (Z.to_nat (Z.of_nat (length xs) * Z.pos k / 100))) as [v Hv].
  { rewrite py_sorted_length. lia. }
  exists v. split; [|exact Hv].
  unfold percentile_at.
  rewrite py_sorted_length, pct_index_div, py_list_get_nonneg by assumption.
  exact Hv.
Qed.

(** ** The extraction loop does not see chunk boundaries *)

Lemma split_nn_app (buffer more blk rest : bytes) :
  split_nn buffer = Some (blk, rest) ->
  split_nn (buffer ++ more) = Some (blk, rest ++ more).
Proof.
  revert blk rest.
  induction buffer as [|x tl IH]; intros blk rest H; [discriminate|].
  simpl in *.
  destruct (split_nn tl) as [[blk' rest']|] eqn:E.
  - rewrite (IH blk' rest' eq_refl).
    destruct x; try (injection H as <- <-; reflexivity).
    destruct tl as [|y tl']; [discriminate|].
    destruct y; simpl; try (injection H as <- <-; reflexivity).
  - destruct x; try discriminate.
    destruct tl as [|y tl']; [discriminate|].
    destruct y; try discriminate.
    injection H as <- <-. reflexivity.
Qed.

Lemma split_nn_length (buffer blk rest : bytes) :
  split_nn buffer = Some (blk, rest) ->
  (length blk + 2 + length rest = length buffer)%nat.
Proof.
  revert blk rest.
  induction buffer as [|x tl IH]; intros blk rest H; [discriminate|].
  simpl in H.
  destruct (split_nn tl) as [[blk' rest']|] eqn:E.
  - specialize (IH blk' rest' eq_refl).
    destruct x; try (injection H as <- <-; simpl; lia).
    destruct tl as [|y tl']; [discriminate|].
    destruct y; try (injection H as <- <-; simpl in *; lia).
  - destruct x; try discriminate.
    destruct tl as [|y tl']; [discriminate|].
    destruct y; try discriminate.
    injection H as <- <-. simpl. lia.
Qed.

Section DrainFacts.
Context {S : Type} (on_block : S -> bytes -> S).

(** More fuel than the length of the buffer changes nothing. *)
Lemma drain_fuel (fuel : nat) :
  forall st buffer,
    (length buffer <= fuel)%nat ->
    drain on_block fuel st buffer = drain on_block (length buffer) st buffer.
Proof.
  induction fuel as [fuel IH] using lt_wf_ind.
  intros st buffer Hlen.
  destruct fuel as [|fuel].
  - destruct buffer; [reflexivity|simpl in Hlen; lia].
  - destruct buffer as [|x tl]; [reflexivity|].
    cbn [drain length].
    destruct (split_nn (x :: tl)) as [[blk rest]|] eqn:E; [|reflexivity].
    apply split_nn_length in E. simpl in E, Hlen.
    rewrite (IH fuel) by lia.
    rewrite (IH (length tl)) by lia.
    reflexivity.
Qed.

(** The loop ends because no separator is left, not for lack of fuel. *)
Lemma drain_exit (fuel : nat) :
  forall st buffer,
    (length buffer <= fuel)%nat ->
    split_nn (snd (drain on_block fuel st buffer)) = None.
Proof.
  induction fuel as [|fuel IH]; intros st buffer Hlen.
  - destruct buffer; [reflexivity|simpl in Hlen; lia].
  - cbn [drain].
    destruct (split_nn buffer) as [[blk rest]|] eqn:E; [|exact E].
    apply IH. apply split_nn_length in E. lia.
Qed.

Lemma drain_no_separator (fuel : nat) (st : S) (buffer : bytes) :
  split_nn buffer = None -> drain on_block fuel st buffer = (st, buffer).
Proof. intros H. destruct fuel; [reflexivity|]. cbn [drain]. now rewrite H. Qed.

(** Extracting from [buffer ++ more] is extracting from [buffer], then
    from what is left followed by [more]. *)
Lemma drain_app (fuel : nat) :
  forall st buffer more,
    (length buffer <= fuel)%nat ->
    drain on_block (length (buffer ++ more)) st (buffer ++ more)
    = let '(st', rest) := drain on_block fuel st buffer in
      drain on_block (length (rest ++ more)) st' (rest ++ more).
Proof.
  induction fuel as [|fuel IH]; intros st buffer more Hlen.
  - destruct buffer; [reflexivity|simpl in Hlen; lia].
  - cbn [drain].
    destruct (split_nn buffer) as [[blk rest]|] eqn:E; [|reflexivity].
    pose proof (split_nn_length _ _ _ E) as Hl.
    rewrite <- (IH (on_block st blk) rest more) by lia.
    pose proof (split_nn_app buffer more blk rest E) as Ea.
    pose proof (split_nn_length _ _ _ Ea) as Hla.
    destruct (length (buffer ++ more)) as [|n] eqn:En; [lia|].
    cbn [drain]. rewrite Ea.
    apply drain_fuel. lia.
Qed.

(** Feeding chunks with nothing done per chunk is one extraction over
    their concatenation. *)
Lemma feed_all_concat (stream : list bytes) :
  forall st buffer,
    split_nn buffer = None ->
    feed_all on_block (fun s _ => s) stream (st, buffer)
    = drain on_block (length (buffer ++ concat stream)) st
            (buffer ++ concat stream).
Proof.
  induction stream as [|chunk stream IH]; intros st buffer Hb.
  - simpl. rewrite app_nil_r. now rewrite drain_no_separator.
  - cbn [feed_all fold_left concat].
    destruct chunk as [|c0 chunk'].
    + simpl. apply IH, Hb.
    + unfold feed at 2. cbn [fst snd].
      set (chunk := c0 :: chunk').
      destruct (drain on_block (length (buffer ++ chunk)) st (buffer ++ chunk))
        as [st' rest] eqn:E.
      fold (feed_all on_block (fun s (_ : bytes) => s) stream (st', rest)).
      rewrite IH.
      * rewrite (app_assoc buffer chunk (concat stream)).
        rewrite (drain_app (length (buffer ++ chunk)) st (buffer ++ chunk)
                           (concat stream)) by lia.
        rewrite E. reflexivity.
      * pose proof (drain_exit (length (buffer ++ chunk)) st (buffer ++ chunk)
                               (Nat.le_refl _)) as Hx.
        now rewrite E in Hx.
Qed.
End DrainFacts.

(** ** [total_bytes] is only ever added to *)

(** Nothing in [make_request] reads [total_bytes], so a computation run
    from a state with [n] more bytes counted ends in the same way, with
    [n] more bytes counted. *)
Definition shift (n : Z) (st : req_state) : req_state :=
  {| now := now st; metric := add_total_bytes n (metric st) |}.

Definition shift_result {A} (n : Z) (x : result A * req_state)
  : result A * req_state :=
  (fst x, shift n (snd x)).

Definition blind {A} (c : M A) : Prop :=
  forall n st, c (shift n st) = shift_result n (c st).

Lemma shift_0 (st : req_state) : shift 0 st = st.
Proof.
  destruct st as [k m]. destruct m. unfold shift, add_total_bytes. simpl.
  now rewrite Z.add_0_r.
Qed.

Lemma shift_shift (n k : Z) (st : req_state) :
  shift n (shift k st) = shift (k + n) st.
Proof.
  unfold shift, add_total_bytes. simpl. now rewrite Z.add_assoc.
Qed.

Lemma blind_ret {A} (a : A) : blind (ret a).
Proof. intros n st. reflexivity. Qed.

Lemma blind_raise {A} (e : exn) : blind (raise (A := A) e).
Proof. intros n st. reflexivity. Qed.

Lemma blind_bind {A B} (c : M A) (k : A -> M B) :
  blind c -> (forall a, blind (k a)) -> blind (bind c k).
Proof.
  intros Hc Hk n st. unfold bind. rewrite Hc.
  destruct (c st) as [[a|e] st']; unfold shift_result; simpl.
  - apply Hk.
  - reflexivity.
Qed.

Lemma blind_tick (clock : nat -> Q) : blind (tick clock).
Proof. intros n st. reflexivity. Qed.

Lemma blind_update (f : RequestMetrics -> RequestMetrics) :
  (forall n m, f (add_total_bytes n m) = add_total_bytes n (f m)) ->
  blind (update f).
Proof.
  intros Hf n st. unfold update, shift_result, shift. simpl. now rewrite Hf.
Qed.

Lemma blind_get_metric {A} (k : RequestMetrics -> M A) :
  (forall n m, k (add_total_bytes n m) = k m) ->
  (forall m, blind (k m)) ->
  blind (bind get_metric k).
Proof.
  intros Hk Hb n st. unfold bind, get_metric. simpl.
  rewrite Hk. apply Hb.
Qed.

Lemma blind_format_float (x : option Q) : blind (format_float x).
Proof. destruct x; [apply blind_ret|apply blind_raise]. Qed.

Lemma blind_for_each {A B} (f : B -> A -> M B) (l : list A) :
  (forall acc x, blind (f acc x)) -> forall acc, blind (for_each f l acc).
Proof.
  intros Hf. induction l as [|x l IH]; intros acc; simpl.
  - apply blind_ret.
  - apply blind_bind; [apply Hf|apply IH].
Qed.

Create HintDb blind.
#[local] Hint Resolve blind_ret blind_raise blind_tick blind_format_float : blind.

Ltac blind_step :=
  first
    [ apply blind_ret | apply blind_raise | apply blind_tick
    | apply blind_format_float
    | apply blind_update; reflexivity
    | apply blind_get_metric; [reflexivity|intros ?]
    | apply blind_bind; [|intros ?] ].

Ltac blind_auto := repeat blind_step.

Section RequestFacts.
Context (rt : PyRuntime) (clock : nat -> Q) (config : RequestConfig).

Lemma blind_mark_first_token (loc : sse_locals) :
  blind (mark_first_token clock loc).
Proof. unfold mark_first_token. blind_auto. Qed.

Lemma blind_handle_event (loc : sse_locals) (event_data : pydict) :
  blind (handle_event clock config loc event_data).
Proof.
  unfold handle_event.
  apply blind_bind.
  - destruct (_ && _); blind_auto.
  - intros loc2.
    destruct (first_token_found loc2); [blind_auto|].
    destruct (str_truthy _).
    + destruct (pyval_is_str _ _);
        [apply blind_mark_first_token|blind_auto].
    + destruct (truthy _); [apply blind_mark_first_token|blind_auto].
Qed.

Lemma blind_first_token_fallback (loc : sse_locals) :
  blind (first_token_fallback clock loc).
Proof.
  unfold first_token_fallback.
  destruct (first_token_found _); [blind_auto|].
  destruct (float_truthy _).
  - destruct (first_event_time _); blind_auto.
  - destruct (sse_events _); blind_auto.
Qed.

Lemma blind_event_statistics (evs : list pydict) :
  blind (event_statistics evs).
Proof.
  unfold event_statistics. apply blind_bind; [|intros _; blind_auto].
  apply blind_for_each. intros _ event.
  unfold hash_key. destruct (stat_event_type event); blind_auto.
Qed.

Lemma blind_sse_finish (loc : sse_locals) (buffer : bytes) :
  blind (sse_finish rt clock loc buffer).
Proof.
  unfold sse_finish.
  apply blind_bind; [apply blind_first_token_fallback|intros _].
  do 4 (apply blind_bind; [blind_step|intros ?]).
  apply blind_event_statistics.
Qed.

Lemma blind_handler (e : exn) : blind (handler clock config e).
Proof.
  unfold handler.
  destruct (is_TimeoutError e); [blind_auto|].
  destruct e; blind_auto.
Qed.
End RequestFacts.

(** ** Chunk boundaries and the request driver *)

(** The end of the SSE branch, after the [async for]. *)
Definition sse_tail (rt : PyRuntime) (clock : nat -> Q)
           (stream_end : option exn) (x : sse_loop_state * bytes)
  : result unit * req_state :=
match x with
| ((Raised e, st'), _) => (Raised e, st')
| ((Done loc, st'), buffer) =>
    match stream_end with
    | Some e => (Raised e, st')
    | None => sse_finish rt clock loc buffer st'
    end
end.

(** The SSE branch run on the whole body at once. *)
Definition sse_whole (rt : PyRuntime) (clock : nat -> Q)
           (config : RequestConfig) (stream_end : option exn) (data : bytes)
  : M unit :=
fun st =>
  sse_tail rt clock stream_end
           (drain (sse_block rt clock config) (length data)
                  (Done sse_init, st) data).

(** The [return metric] after the [try] statement. *)
Definition finish_request (clock : nat -> Q) (config : RequestConfig)
           (x : result unit * req_state) : outcome :=
match x with
| (Done _, st) => Returned (metric st)
| (Raised e, st) =>
    match handler clock config e st with
    | (Done _, st') => Returned (metric st')
    | (Raised e', _) => Propagated e'
    end
end.

Definition shift_outcome (n : Z) (o : outcome) : outcome :=
match o with
| Returned m => Returned (add_total_bytes n m)
| Propagated e => Propagated e
end.

(** The [events] field of the metric that is returned. *)
Definition outcome_events (o : outcome) : option (list pydict) :=
match o with
| Returned m => Some (events m)
| Propagated _ => None
end.

Section ChunkFacts.
Context (rt : PyRuntime) (clock : nat -> Q) (config : RequestConfig).

Lemma sse_block_shift (n : Z) (r : sse_loop_state) (blk : bytes) :
  sse_block rt clock config (shift_result n r) blk
  = shift_result n (sse_block rt clock config r blk).
Proof.
  destruct r as [[loc|e] st]; unfold sse_block, shift_result; simpl;
    [|reflexivity].
  destruct (bool_decide _); [reflexivity|].
  apply blind_handle_event.
Qed.

Lemma drain_shift (n : Z) (fuel : nat) :
  forall (r : sse_loop_state) (buffer : bytes),
    drain (sse_block rt clock config) fuel (shift_result n r) buffer
    = (shift_result n (fst (drain (sse_block rt clock config) fuel r buffer)),
       snd (drain (sse_block rt clock config) fuel r buffer)).
Proof.
  induction fuel as [|fuel IH]; intros r buffer; cbn [drain]; [reflexivity|].
  destruct (split_nn buffer) as [[blk rest]|]; [|reflexivity].
  rewrite sse_block_shift. apply IH.
Qed.

Lemma sse_chunk_shift (r : sse_loop_state) (chunk : bytes) :
  exists n, sse_chunk r chunk = shift_result n r.
Proof.
  destruct r as [[loc|e] st].
  - exists (Z.of_nat (length chunk)). reflexivity.
  - exists 0. unfold shift_result. simpl. now rewrite shift_0.
Qed.

Lemma shift_result_shift {A} (n k : Z) (x : result A * req_state) :
  shift_result n (shift_result k x) = shift_result (k + n) x.
Proof. unfold shift_result. simpl. now rewrite shift_shift. Qed.

(** Counting the bytes of each chunk only shifts [total_bytes]. *)
Lemma feed_all_counting (stream : list bytes) :
  forall (r : sse_loop_state) (buffer : bytes) (k : Z),
  exists n,
    feed_all (sse_block rt clock config) sse_chunk stream
             (shift_result k r, buffer)
    = (shift_result n
         (fst (feed_all (sse_block rt clock config) (fun s _ => s) stream
                        (r, buffer))),
       snd (feed_all (sse_block rt clock config) (fun s _ => s) stream
                     (r, buffer))).
Proof.
  induction stream as [|chunk stream IH]; intros r buffer k.
  - exists k. reflexivity.
  - cbn [feed_all fold_left].
    destruct chunk as [|c0 chunk'].
    + simpl. apply IH.
    + set (chunk := c0 :: chunk').
      unfold feed at 2 4 6. cbn [fst snd].
      destruct (sse_chunk_shift (shift_result k r) chunk) as [n1 ->].
      rewrite shift_result_shift, drain_shift.
      destruct (drain (sse_block rt clock config) (length (buffer ++ chunk))
                      r (buffer ++ chunk)) as [r' rest].
      cbn [fst snd]. apply IH.
Qed.

Lemma sse_tail_shift (n : Z) (stream_end : option exn)
      (r : sse_loop_state) (buffer : bytes) :
  sse_tail rt clock stream_end (shift_result n r, buffer)
  = shift_result n (sse_tail rt clock stream_end (r, buffer)).
Proof.
  destruct r as [[loc|e] st]; unfold sse_tail, shift_result; simpl;
    [|reflexivity].
  destruct stream_end; [reflexivity|]. apply blind_sse_finish.
Qed.

(** The SSE branch on a chunked body is the SSE branch on the whole
    body, up to the bytes counted. *)
Lemma sse_path_whole (stream : stream_script) (st : req_state) :
  exists n,
    sse_path rt clock config stream st
    = shift_result n
        (sse_whole rt clock config (stream_end stream)
                   (concat (chunks stream)) st).
Proof.
  unfold sse_path, sse_whole.
  destruct (feed_all_counting (chunks stream) (Done sse_init, st) [] 0)
    as [n Hn].
  unfold shift_result in Hn at 1. cbn [fst snd] in Hn.
  rewrite shift_0 in Hn.
  exists n.
  change (sse_tail rt clock (stream_end stream)
            (feed_all (sse_block rt clock config) sse_chunk (chunks stream)
                      (Done sse_init, st, []))
          = shift_result n
              (sse_tail rt clock (stream_end stream)
                 (drain (sse_block rt clock config)
                        (length (concat (chunks stream)))
                        (Done sse_init, st) (concat (chunks stream))))).
  rewrite Hn.
  rewrite (feed_all_concat (sse_block rt clock config) (chunks stream)
                           (Done sse_init, st) [] eq_refl).
  cbn [app].
  destruct (drain _ _ _ _) as [r' rest]. cbn [fst snd].
  apply sse_tail_shift.
Qed.

Lemma finish_request_shift (n : Z) (x : result unit * req_state) :
  finish_request clock config (shift_result n x)
  = shift_outcome n (finish_request clock config x).
Proof.
  destruct x as [[u|e] st]; unfold finish_request, shift_result; simpl;
    [reflexivity|].
  rewrite blind_handler.
  destruct (handler clock config e st) as [[u|e'] st']; reflexivity.
Qed.

Lemma make_request_finish (net : net_script) (request_id : Z) :
  make_request rt clock config net request_id
  = finish_request clock config
      (try_block rt clock config net request_id
                 {| now := 1; metric := new_metric clock request_id |}).
Proof. reflexivity. Qed.

Lemma outcome_events_shift (n : Z) (o : outcome) :
  outcome_events (shift_outcome n o) = outcome_events o.
Proof. destruct o; reflexivity. Qed.

(** In SSE mode the events of the outcome depend on the chunks only
    through their concatenation. *)
Lemma make_request_events_concat (status : Z) (text : text_script)
      (chunks1 chunks2 : list bytes) (ending : option exn)
      (request_id : Z) :
  is_sse config = true ->
  concat chunks1 = concat chunks2 ->
  outcome_events
    (make_request rt clock config
       (Response status text {| chunks := chunks1; stream_end := ending |})
       request_id)
  = outcome_events
      (make_request rt clock config
         (Response status text {| chunks := chunks2; stream_end := ending |})
         request_id).
Proof.
  intros Hsse Hcat.
  rewrite !make_request_finish. unfold try_block.
  destruct (_get_request_body config request_id); [|reflexivity].
  destruct (negb (status =? 200)); [reflexivity|].
  rewrite Hsse.
  unfold bind, tick, update. cbn [now metric].
  destruct (sse_path_whole {| chunks := chunks1; stream_end := ending |}
              {| now := 2;
                 metric := set_response_headers_time (clock 1%nat)
                             (new_metric clock request_id) |}) as [n1 H1].
  destruct (sse_path_whole {| chunks := chunks2; stream_end := ending |}
              {| now := 2;
                 metric := set_response_headers_time (clock 1%nat)
                             (new_metric clock request_id) |}) as [n2 H2].
  cbn [chunks stream_end now metric] in *.
  rewrite H1, H2, Hcat.
  now rewrite !finish_request_shift, !outcome_events_shift.
Qed.

(** [parse_sse_stream] is the decoding of the concatenated chunks. *)
Lemma parse_sse_stream_concat (stream : list bytes) :
  parse_sse_stream rt stream = decode_bytes rt (concat stream).
Proof.
  unfold parse_sse_stream, decode_bytes.
  now rewrite (feed_all_concat (stream_block rt) stream [] [] eq_refl).
Qed.
End ChunkFacts.


(** ** Invariants of the extraction loop *)

Section LoopInvariants.
Context {S : Type} (on_block on_chunk : S -> bytes -> S) (I : S -> Prop).
Hypothesis block_inv : forall s blk, I s -> I (on_block s blk).
Hypothesis chunk_inv : forall s chunk, I s -> I (on_chunk s chunk).

Lemma drain_inv (fuel : nat) :
  forall s buffer, I s -> I (fst (drain on_block fuel s buffer)).
Proof.
  induction fuel as [|fuel IH]; intros s buffer Hs; cbn [drain]; [exact Hs|].
  destruct (split_nn buffer) as [[blk rest]|]; [|exact Hs].
  apply IH, block_inv, Hs.
Qed.

Lemma feed_all_inv (stream : list bytes) :
  forall sb, I (fst sb) -> I (fst (feed_all on_block on_chunk stream sb)).
Proof.
  induction stream as [|chunk stream IH]; intros sb Hs; [exact Hs|].
  cbn [feed_all fold_left]. apply IH.
  destruct chunk; [exact Hs|].
  unfold feed. apply drain_inv, chunk_inv, Hs.
Qed.
End LoopInvariants.

(** ** Timestamps of a request *)

Section Timing.
Context (rt : PyRuntime) (clock : nat -> Q) (config : RequestConfig).

(** [t] is a clock reading already made. *)
Definition read_before (st : req_state) (t : Q) : Prop :=
  exists k, (k < now st)%nat /\ t = clock k.

(** What holds of the metric all along the 200 branch. *)
Definition streaming (st : req_state) : Prop :=
  error (metric st) = None /\
  start_time (metric st) = clock 0 /\
  (1 <= now st)%nat /\
  (forall t, first_token_time (metric st) = Some t -> read_before st t).

(** What holds of the metric when the 200 branch is done. *)
Definition completed (st : req_state) : Prop :=
  error (metric st) = None /\
  start_time (metric st) = clock 0 /\
  (exists j, (j < now st)%nat /\
             end_time (metric st) = Some (clock j) /\
             forall t, first_token_time (metric st) = Some t ->
                       exists k, (k <= j)%nat /\ t = clock k) /\
  (first_token_time (metric st) = None <-> total_tokens (metric st) = 0).

Definition raw_inv (loc : raw_locals) (st : req_state) : Prop :=
  streaming st /\
  (stream_started loc = false -> first_token_time (metric st) = None) /\
  (stream_started loc = true -> first_token_time (metric st) <> None) /\
  (stream_started loc = false -> chunk_count loc = 0) /\
  (stream_started loc = true -> 0 < chunk_count loc).

Definition sse_inv (loc : sse_locals) (st : req_state) : Prop :=
  streaming st /\
  (first_token_found loc = false -> first_token_time (metric st) = None) /\
  (first_token_found loc = true ->
   first_token_time (metric st) <> None /\ sse_events loc <> []) /\
  (forall t, first_event_time loc = Some t ->
             sse_events loc <> [] /\ read_before st t).

Definition sse_loop_inv (r : sse_loop_state) : Prop :=
  match r with
  | (Done loc, st) => sse_inv loc st
  | (Raised _, _) => True
  end.

Ltac run :=
  unfold bind, tick, update, get_metric, ret, raise, format_float in *;
  cbn [fst snd now metric first_token_time start_time end_time error
       total_tokens total_bytes events request_id response_headers_time
       set_first_token_time set_end_time set_total_tokens add_total_bytes
       set_error set_events set_response_headers_time
       sse_events first_token_found first_event_time event_count
       chunk_count stream_started raw_buffer] in *.

Lemma raw_chunk_inv (loc : raw_locals) (chunk : bytes) (st : req_state) :
  raw_inv loc st ->
  match raw_chunk clock loc chunk st with
  | (Done loc', st') => raw_inv loc' st'
  | (Raised _, _) => True
  end.
Proof.
  intros [(He & Hs & Hn & Hf) (H1 & H2 & H3 & H4)].
  unfold raw_chunk. destruct chunk as [|c0 chunk']; [run; repeat split; auto|].
  destruct (stream_started loc) eqn:Est.
  - run. unfold raw_inv, streaming. run.
    repeat split; auto; try discriminate.
    specialize (H4 eq_refl). lia.
  - unfold ttft. run.
    destruct (float_truthy (Some (clock (now st)))); run; [|exact Logic.I].
    unfold raw_inv, streaming. run.
    repeat split; auto; try discriminate; try (simpl; lia).
    intros t [= <-]. exists (now st). split; [simpl; lia|reflexivity].
Qed.

Lemma raw_loop_inv (stream : list bytes) :
  forall loc st,
    raw_inv loc st ->
    match for_each (raw_chunk clock) stream loc st with
    | (Done loc', st') => raw_inv loc' st'
    | (Raised _, _) => True
    end.
Proof.
  induction stream as [|chunk stream IH]; intros loc st H; [exact H|].
  cbn [for_each]. unfold bind.
  pose proof (raw_chunk_inv loc chunk st H) as Hc.
  destruct (raw_chunk clock loc chunk st) as [[loc'|e] st']; [|exact Logic.I].
  now apply IH.
Qed.

Lemma raw_path_completed (stream : stream_script) (st : req_state) :
  streaming st -> first_token_time (metric st) = None ->
  match raw_path clock stream st with
  | (Done _, st') => completed st'
  | (Raised _, _) => True
  end.
Proof.
  intros Hst Hf. unfold raw_path. unfold bind at 1.
  pose proof (raw_loop_inv (chunks stream)
                {| chunk_count := 0; stream_started := false; raw_buffer := [] |}
                st) as Hl.
  destruct (for_each _ _ _ _) as [[loc|e] st']; [|exact Logic.I].
  destruct Hl as [(He & Hs & Hn & Hft) (H1 & H2 & H3 & H4)].
  { repeat split; try apply Hst; auto; discriminate. }
  destruct (stream_end stream); [exact Logic.I|].
  run.
  destruct (total_time _); run; [|exact Logic.I].
  destruct (tokens_per_second _); run; [|exact Logic.I].
  unfold completed. run.
  split; [exact He|]. split; [exact Hs|]. split.
  - exists (now st'). split; [lia|]. split; [reflexivity|].
    intros t Ht. destruct (Hft t Ht) as (k & Hk & ->).
    exists k. split; [lia|reflexivity].
  - destruct (stream_started loc) eqn:Est.
    + specialize (H2 eq_refl). specialize (H4 eq_refl).
      split; [intros; contradiction|lia].
    + rewrite (H1 eq_refl), (H3 eq_refl). tauto.
Qed.

Lemma read_before_later (st st' : req_state) (t : Q) :
  (now st <= now st')%nat -> read_before st t -> read_before st' t.
Proof. intros Hle (k & Hk & ->). exists k. split; [lia|reflexivity]. Qed.

Lemma mark_first_token_inv (loc : sse_locals) (st : req_state) :
  sse_inv loc st -> sse_events loc <> [] ->
  match mark_first_token clock loc st with
  | (Done loc', st') => sse_inv loc' st'
  | (Raised _, _) => True
  end.
Proof.
  intros [(He & Hs & Hn & Hf) (H1 & H2 & H3)] Hev.
  unfold mark_first_token, ttft. run.
  destruct (float_truthy (Some (clock (now st)))); run; [|exact Logic.I].
  unfold sse_inv, streaming. run.
  split; [split; [exact He|split; [exact Hs|split; [lia|]]]|].
  - intros t [= <-]. exists (now st). split; [simpl; lia|reflexivity].
  - split; [discriminate|].
    split; [intros _; split; [discriminate|exact Hev]|].
    intros t Ht. destruct (H3 t Ht) as [Ha Hr]. split; [exact Ha|].
    revert Hr. apply read_before_later. simpl. lia.
Qed.

Lemma handle_event_inv (loc : sse_locals) (event_data : pydict)
      (st : req_state) :
  sse_inv loc st ->
  match handle_event clock config loc event_data st with
  | (Done loc', st') => sse_inv loc' st'
  | (Raised _, _) => True
  end.
Proof.
  intros Hinv.
  assert (Hne : sse_events loc ++ [event_data] <> []).
  { destruct (sse_events loc); discriminate. }
  unfold handle_event. unfold bind at 1.
  set (loc1 := {| sse_events := sse_events loc ++ [event_data];
                  first_token_found := first_token_found loc;
                  first_event_time := first_event_time loc;
                  event_count := event_count loc + 1 |}).
  assert (H1 : sse_inv loc1 st).
  { destruct Hinv as [Hst (H1 & H2 & H3)].
    split; [exact Hst|]. split; [exact H1|]. split.
    - intros Hf. split; [now apply H2|exact Hne].
    - intros t Ht. split; [exact Hne|now apply (H3 t)]. }
  set (c := if (event_count loc1 =? 1) && negb (first_token_found loc1)
            then _ else _).
  assert (H2 : match c st with
               | (Done loc2, st2) =>
                   sse_inv loc2 st2 /\ sse_events loc2 <> []
               | (Raised _, _) => True
               end).
  { subst c. destruct (_ && _); run; [|split; [exact H1|exact Hne]].
    split; [|exact Hne].
    destruct H1 as [(He & Hs & Hn & Hf) (Ha & Hb & Hc)].
    unfold sse_inv, streaming. run.
    split; [split; [exact He|split; [exact Hs|split; [lia|]]]|].
    - intros t Ht. generalize (Hf t Ht). apply read_before_later. simpl. lia.
    - split; [exact Ha|]. split; [exact Hb|].
      intros t [= <-]. split; [exact Hne|].
      exists (now st). split; [simpl; lia|reflexivity]. }
  destruct (c st) as [[loc2|e] st2]; [|exact Logic.I].
  destruct H2 as [H2 Hev2].
  destruct (first_token_found loc2); [exact H2|].
  destruct (str_truthy _).
  - destruct (pyval_is_str _ _); [now apply mark_first_token_inv|exact H2].
  - destruct (truthy _); [now apply mark_first_token_inv|exact H2].
Qed.

Lemma sse_block_inv (r : sse_loop_state) (blk : bytes) :
  sse_loop_inv r -> sse_loop_inv (sse_block rt clock config r blk).
Proof.
  destruct r as [[loc|e] st]; [|exact (fun H => H)].
  intros H. unfold sse_block.
  destruct (bool_decide _); [exact H|].
  pose proof (handle_event_inv loc (parse_lines rt ∅ blk) st H) as Hh.
  destruct (handle_event _ _ _ _ _) as [[loc'|e] st']; exact Hh.
Qed.

Lemma sse_chunk_inv (r : sse_loop_state) (chunk : bytes) :
  sse_loop_inv r -> sse_loop_inv (sse_chunk r chunk).
Proof.
  destruct r as [[loc|e] st]; [|exact (fun H => H)].
  intros [(He & Hs & Hn & Hf) (H1 & H2 & H3)].
  unfold sse_chunk, sse_loop_inv, sse_inv, streaming. run.
  split; [split; [exact He|split; [exact Hs|split; [exact Hn|exact Hf]]]|].
  split; [exact H1|]. split; [exact H2|exact H3].
Qed.

Lemma with_remainder_inv (loc : sse_locals) (buffer : bytes)
      (st : req_state) :
  sse_inv loc st -> sse_inv (with_remainder rt loc buffer) st.
Proof.
  intros [Hst (H1 & H2 & H3)]. unfold with_remainder.
  destruct (remainder_event rt buffer) as [ev|];
    [|split; [exact Hst|split; [exact H1|split; [exact H2|exact H3]]]].
  assert (Hne : sse_events loc ++ [ev] <> []).
  { destruct (sse_events loc); discriminate. }
  split; [exact Hst|]. split; [exact H1|]. split.
  - intros Hf. split; [now apply H2|exact Hne].
  - intros t Ht. split; [exact Hne|now apply (H3 t)].
Qed.

(** After the fallback, [first_token_time] is absent exactly when no
    event was recorded. *)
Lemma first_token_fallback_spec (loc : sse_locals) (st : req_state) :
  sse_inv loc st ->
  exists st',
    first_token_fallback clock loc st = (Done tt, st') /\
    streaming st' /\
    (first_token_time (metric st') = None <-> sse_events loc = []).
Proof.
  intros [(He & Hs & Hn & Hf) (H1 & H2 & H3)].
  unfold first_token_fallback.
  destruct (first_token_found loc) eqn:Ef.
  - exists st. split; [reflexivity|]. split; [repeat split; assumption|].
    destruct (H2 eq_refl) as [Ha Hb]. split; intros; contradiction.
  - specialize (H1 eq_refl).
    destruct (float_truthy (first_event_time loc)) eqn:Et.
    + destruct (first_event_time loc) as [t0|] eqn:E0; [|discriminate].
      destruct (H3 t0 eq_refl) as [Ha Hb].
      eexists. split; [reflexivity|]. run. unfold streaming. run.
      split; [split; [exact He|split; [exact Hs|split; [exact Hn|]]]|].
      * intros t [= <-]. exact Hb.
      * split; [discriminate|intros; contradiction].
    + destruct (sse_events loc) as [|ev evs] eqn:Ev.
      * exists st. split; [reflexivity|].
        split; [repeat split; assumption|]. tauto.
      * eexists. split; [reflexivity|]. run. unfold streaming. run.
        split; [split; [exact He|split; [exact Hs|split; [lia|]]]|].
        -- intros t [= <-]. exists (now st). split; [simpl; lia|reflexivity].
        -- split; discriminate.
Qed.

(** The statistics change nothing in the state. *)
Lemma hash_loop_state (evs : list pydict) (st : req_state) :
  snd (for_each (fun _ event => hash_key (stat_event_type event)) evs tt st) = st.
Proof.
  induction evs as [|ev evs IH]; [reflexivity|].
  cbn [for_each]. unfold bind, hash_key.
  destruct (stat_event_type ev); try exact IH; reflexivity.
Qed.

Lemma event_statistics_state (evs : list pydict) (st : req_state) :
  snd (event_statistics evs st) = st.
Proof.
  unfold event_statistics. unfold bind at 1.
  pose proof (hash_loop_state evs st) as H.
  destruct (for_each _ evs tt st) as [[u|e] st']; simpl in H; subst st';
    [|reflexivity].
  run. destruct (total_time (metric st)); reflexivity.
Qed.

Lemma sse_finish_completed (loc : sse_locals) (buffer : bytes)
      (st : req_state) :
  sse_inv loc st ->
  match sse_finish rt clock loc buffer st with
  | (Done _, st') => completed st'
  | (Raised _, _) => True
  end.
Proof.
  intros Hinv. apply (with_remainder_inv loc buffer) in Hinv.
  unfold sse_finish.
  generalize dependent (with_remainder rt loc buffer). intros loc' Hinv.
  destruct (first_token_fallback_spec loc' st Hinv)
    as (st1 & E1 & (He & Hs & Hn & Hf) & Hiff).
  unfold bind at 1. rewrite E1. run.
  pose proof (event_statistics_state (sse_events loc')
    {| now := S (now st1);
       metric := set_total_tokens (Z.of_nat (length (sse_events loc')))
                   (set_end_time (clock (now st1))
                      (set_events (sse_events loc') (metric st1))) |}) as Hstat.
  destruct (event_statistics _ _) as [[u|e] st2]; [|exact Logic.I].
  simpl in Hstat. subst st2.
  unfold completed. run.
  split; [exact He|]. split; [exact Hs|]. split.
  - exists (now st1). split; [lia|]. split; [reflexivity|].
    intros t Ht. destruct (Hf t Ht) as (k & Hk & ->).
    exists k. split; [lia|reflexivity].
  - rewrite Hiff. destruct (sse_events loc'); simpl; split;
      intros; try reflexivity; try discriminate; lia.
Qed.

Lemma sse_path_completed (stream : stream_script) (st : req_state) :
  streaming st -> first_token_time (metric st) = None ->
  match sse_path rt clock config stream st with
  | (Done _, st') => completed st'
  | (Raised _, _) => True
  end.
Proof.
  intros Hst Hf. unfold sse_path.
  pose proof (feed_all_inv (sse_block rt clock config) sse_chunk sse_loop_inv
                sse_block_inv sse_chunk_inv (chunks stream)
                ((Done sse_init, st), [])) as Hl.
  destruct (feed_all _ _ _ _) as [[[loc|e] st'] buffer]; [|exact Logic.I].
  destruct (stream_end stream); [exact Logic.I|].
  apply sse_finish_completed. apply Hl.
  split; [exact Hst|]. split; [intros _; exact Hf|].
  split; [discriminate|]. intros t. discriminate.
Qed.

(** The request body is always available. *)
Lemma get_request_body_total (request_id : Z) :
  exists p, _get_request_body config request_id = Some p.
Proof.
  unfold _get_request_body.
  destruct (data_rows config) as [[|r rows]|]; try (eexists; reflexivity).
  pose proof (row_index_range request_id (length (r :: rows))) as Hr.
  rewrite py_list_get_nonneg by (apply Hr; simpl; lia).
  destruct (lookup_lt_is_Some_2 (r :: rows)
              (Z.to_nat (row_index request_id (length (r :: rows)))))
    as [row_data ->]; [|eexists; reflexivity].
  assert (0 < length (r :: rows))%nat by (simpl; lia).
  specialize (Hr H). lia.
Qed.

(** The state in which the [try] block starts. *)
Definition start_state (request_id : Z) : req_state :=
  {| now := 1; metric := new_metric clock request_id |}.

(** A [try] block that ends normally has either recorded an HTTP error
    and the end time, or completed the 200 branch. *)
Lemma try_block_done (net : net_script) (request_id : Z) :
  match try_block rt clock config net request_id (start_state request_id) with
  | (Done _, st') =>
      (exists status text stream,
          net = Response status text stream /\ status <> 200 /\
          metric st' = set_end_time (clock 1%nat)
                         (set_error (http_error rt status text)
                                    (new_metric clock request_id)))
      \/ (error (metric st') = None /\ completed st')
  | (Raised _, _) => True
  end.
Proof.
  unfold try_block.
  destruct (get_request_body_total request_id) as [p ->].
  destruct net as [e|status text stream]; [exact Logic.I|].
  unfold start_state.
  destruct (status =? 200) eqn:Es; cbn [negb].
  - run.
    set (st1 := {| now := 2; metric := _ |}).
    assert (Hst : streaming st1).
    { unfold st1, streaming. run.
      repeat split; try reflexivity; try lia. discriminate. }
    assert (Hc : match (if is_sse config
                        then sse_path rt clock config stream
                        else raw_path clock stream) st1 with
                 | (Done _, st') => completed st'
                 | (Raised _, _) => True
                 end).
    { destruct (is_sse config);
        [apply sse_path_completed|apply raw_path_completed];
        auto; reflexivity. }
    destruct ((if is_sse config
               then sse_path rt clock config stream
               else raw_path clock stream) st1) as [[u|e] st'];
      [|exact Logic.I].
    right. split; [apply Hc|exact Hc].
  - run. left. exists status, text, stream.
    split; [reflexivity|]. split; [|reflexivity].
    apply Z.eqb_neq, Es.
Qed.

(** Every handler records an error and the end time. *)
Lemma handler_sets_end_time (e : exn) (st : req_state) :
  error (metric (snd (handler clock config e st))) <> None /\
  end_time (metric (snd (handler clock config e st))) = Some (clock (now st)).
Proof.
  unfold handler.
  destruct (is_TimeoutError e).
  - run. destruct (total_time _); split; try discriminate; reflexivity.
  - destruct e; run; try (destruct (total_time _));
      split; try discriminate; reflexivity.
Qed.

(** With a clock that never reads [0.0] no handler raises. *)
Lemma handler_done (e : exn) (st : req_state) :
  clock_nonzero clock ->
  exists st', handler clock config e st = (Done tt, st').
Proof.
  intros Hnz.
  assert (Ht : float_truthy (Some (clock (now st))) = true)
    by (apply float_truthy_Some, Hnz).
  unfold handler.
  destruct (is_TimeoutError e).
  - run. unfold total_time. run. rewrite Ht. eexists. reflexivity.
  - destruct e; run; unfold total_time; run; try rewrite Ht;
      eexists; reflexivity.
Qed.
End Timing.

(** ** Outcomes of [make_request] *)

(** Sample inputs: a clock that reads 100, 101, 102, ..., a raw and an
    SSE configuration, and the line feed. *)
Definition sample_clock (i : nat) : Q := inject_Z (Z.of_nat i + 100).

Definition raw_config : RequestConfig :=
  {| url := "http://localhost/stream"; method := "POST"; headers := ∅;
     body := VDict ∅; timeout := 300; data_source := None;
     data_rows := None; stream_format := None; first_token_event := None;
     completion_event := None; output_path := None |}.

Definition sse_config : RequestConfig :=
  {| url := "http://localhost/stream"; method := "POST"; headers := ∅;
     body := VDict ∅; timeout := 300; data_source := None;
     data_rows := None; stream_format := Some "sse"%string;
     first_token_event := None;
     completion_event := None; output_path := None |}.

Definition LF : string := String (ascii_of_nat 10) EmptyString.

Definition ends_normally (l : list bytes) : stream_script :=
  {| chunks := l; stream_end := None |}.

Lemma sample_clock_nonzero : clock_nonzero sample_clock.
Proof.
  intros i. unfold sample_clock, Qeq. simpl. lia.
Qed.

Lemma sample_clock_monotone : clock_monotone sample_clock.
Proof.
  intros i j Hij. unfold sample_clock, Qle. simpl. lia.
Qed.

Lemma make_request_cases (rt : PyRuntime) (clock : nat -> Q)
      (config : RequestConfig) (net : net_script) (request_id : Z)
      (m : RequestMetrics) :
  make_request rt clock config net request_id = Returned m ->
  (error m <> None /\ exists j, end_time m = Some (clock j))
  \/ (error m = None /\ exists st, metric st = m /\ completed clock st).
Proof.
  rewrite make_request_finish. unfold finish_request.
  pose proof (try_block_done rt clock config net request_id) as Ht.
  unfold start_state in Ht.
  destruct (try_block _ _ _ _ _ _) as [[u|e] st].
  - intros [= <-].
    destruct Ht as [(status & text & stream & _ & _ & ->)|[He Hc]].
    + left. split; [discriminate|]. exists 1%nat. reflexivity.
    + right. split; [exact He|]. exists st. split; [reflexivity|exact Hc].
  - pose proof (handler_sets_end_time clock config e st) as [He Hend].
    destruct (handler clock config e st) as [[u|e'] st']; [|discriminate].
    intros [= <-]. left. split; [exact He|].
    exists (now st). exact Hend.
Qed.

(** C8: whenever [make_request] returns a metric whose [error] is set,
    its [end_time] is set too, so that the total time can be computed
    (the clock never reading [0.0]); every handler of the [try]
    statement records the error and then the current time as
    [end_time]. *)
Theorem error_implies_end_time (rt : PyRuntime) (clock : nat -> Q)
        (config : RequestConfig) (net : net_script) (request_id : Z)
        (m : RequestMetrics) :
  make_request rt clock config net request_id = Returned m ->
  error m <> None ->
  end_time m <> None /\
  (clock_nonzero clock -> exists d, total_time m = Some d) /\
  (forall e st,
      error (metric (snd (handler clock config e st))) <> None /\
      end_time (metric (snd (handler clock config e st)))
        = Some (clock (now st))).
Proof.
  intros Hm He.
  assert (Hend : exists j, end_time m = Some (clock j)).
  { destruct (make_request_cases rt clock config net request_id m Hm)
      as [[_ H]|[H _]]; [exact H|contradiction]. }
  destruct Hend as [j Hj].
  split; [rewrite Hj; discriminate|].
  split; [|intros e st; apply handler_sets_end_time].
  intros Hnz. unfold total_time. rewrite Hj.
  assert (E : float_truthy (Some (clock j)) = true)
    by (apply float_truthy_Some, Hnz).
  rewrite E. eexists. reflexivity.
Qed.

(** [make_request] returns whenever the clock never reads [0.0]. *)
Lemma make_request_returns (rt : PyRuntime) (clock : nat -> Q)
      (config : RequestConfig) (net : net_script) (request_id : Z) :
  clock_nonzero clock ->
  exists m, make_request rt clock config net request_id = Returned m.
Proof.
  intros Hnz. rewrite make_request_finish. unfold finish_request.
  destruct (try_block _ _ _ _ _ _) as [[u|e] st]; [eexists; reflexivity|].
  destruct (handler_done clock config e st Hnz) as [st' ->].
  eexists. reflexivity.
Qed.

(** C2, as the code has it: a metric returned without [error] has its
    [end_time]; its [first_token_time] is present exactly when at least
    one unit (chunk or event) was counted; and the first-token time,
    when present, is a clock reading made after the start and not after
    the end, so that with a clock that never goes back
    [start_time <= first_token_time <= end_time]. *)
Theorem success_timestamps (rt : PyRuntime) (clock : nat -> Q)
        (config : RequestConfig) (net : net_script) (request_id : Z)
        (m : RequestMetrics) :
  make_request rt clock config net request_id = Returned m ->
  error m = None ->
  (exists j, end_time m = Some (clock j) /\ start_time m = clock 0%nat /\
             forall t, first_token_time m = Some t ->
                       exists k, (k <= j)%nat /\ t = clock k) /\
  (first_token_time m = None <-> total_tokens m = 0) /\
  (clock_monotone clock ->
   forall t e, first_token_time m = Some t -> end_time m = Some e ->
               (start_time m <= t)%Q /\ (t <= e)%Q).
Proof.
  intros Hm He.
  destruct (make_request_cases rt clock config net request_id m Hm)
    as [[H _]|[_ (st & <- & Hc)]]; [contradiction|].
  destruct Hc as (_ & Hs & (j & Hj & Hend & Hf) & Hiff).
  split; [exists j; split; [exact Hend|split; [exact Hs|exact Hf]]|].
  split; [exact Hiff|].
  intros Hmono t e Ht Hee.
  destruct (Hf t Ht) as (k & Hk & ->).
  rewrite Hend in Hee. injection Hee as <-. rewrite Hs.
  split; apply Hmono; lia.
Qed.

(** The claim C2 as stated fails on an empty 200 response: in raw mode
    with no chunk, and in SSE mode with no event, the metric has no
    [error] and no [first_token_time]. *)
Lemma empty_response_no_first_token :
  (exists m,
      make_request ascii_runtime sample_clock raw_config
                   (Response 200 (TextOk "") (ends_normally [])) 1
      = Returned m /\
      error m = None /\ first_token_time m = None /\
      end_time m = Some (sample_clock 2)) /\
  (exists m,
      make_request ascii_runtime sample_clock sse_config
                   (Response 200 (TextOk "") (ends_normally [])) 1
      = Returned m /\
      error m = None /\ first_token_time m = None /\
      end_time m = Some (sample_clock 2)).
Proof.
  split; eexists; (split; [vm_compute; reflexivity|]);
    repeat split; reflexivity.
Qed.

(** ** A status other than 200 *)

Lemma startswith_append (p q r : string) :
  startswith (p +:+ q) (p +:+ q +:+ r) = true.
Proof.
  induction p as [|a p IH]; simpl.
  - induction q as [|c q IHq]; simpl; [reflexivity|].
    now rewrite Ascii.eqb_refl.
  - now rewrite Ascii.eqb_refl.
Qed.

Lemma str_take_length (s : string) :
  forall n, py_len (str_take n s) = Nat.min n (py_len s).
Proof.
  induction s as [|a s IH]; intros n; simpl; [now rewrite Nat.min_0_r|].
  destruct (is_continuation a) eqn:E; simpl; rewrite ?E; [apply IH|].
  destruct n as [|n]; simpl; [reflexivity|]. rewrite E. now rewrite IH.
Qed.

Lemma str_take_prefix (s : string) :
  forall n, exists rest, s = (str_take n s +:+ rest)%string.
Proof.
  induction s as [|a s IH]; intros n; simpl; [exists ""%string; reflexivity|].
  destruct (is_continuation a).
  - destruct (IH n) as [rest Hr]. exists rest.
    change (String a s = String a (str_take n s +:+ rest)).
    f_equal. exact Hr.
  - destruct n as [|n]; [exists (String a s); reflexivity|].
    destruct (IH n) as [rest Hr]. exists rest.
    change (String a s = String a (str_take n s +:+ rest)).
    f_equal. exact Hr.
Qed.

Lemma str_take_all (s : string) :
  forall n, (py_len s <= n)%nat -> str_take n s = s.
Proof.
  induction s as [|a s IH]; intros n H; simpl in *; [reflexivity|].
  destruct (is_continuation a); [now rewrite IH|].
  destruct n as [|n]; [lia|]. rewrite IH; [reflexivity|lia].
Qed.

Lemma http_error_prefix (rt : PyRuntime) (status : Z) (text : text_script) :
  startswith ("HTTP " +:+ pretty status) (http_error rt status text) = true.
Proof.
  unfold http_error, unreadable.
  destruct text as [error_body|msg]; [|apply startswith_append].
  destruct (slice200 _); apply startswith_append.
Qed.



(** ** The first-token time in SSE mode *)

(** An event that ends the search for the first token: its effective
    type is the configured name, or, with no name configured, any
    non-empty type. *)
Definition eligible (config : RequestConfig) (event_data : pydict) : bool :=
  if str_truthy (first_token_event config)
  then pyval_is_str (event_type_of event_data)
                    (default ""%string (first_token_event config))
  else truthy (event_type_of event_data).

(** The locals after an event that changes no time. *)
Definition counted_event (loc : sse_locals) (event_data : pydict)
  : sse_locals :=
  {| sse_events := sse_events loc ++ [event_data];
     first_token_found := first_token_found loc;
     first_event_time := first_event_time loc;
     event_count := event_count loc + 1 |}.

Section FirstToken.
Context (rt : PyRuntime) (clock : nat -> Q) (config : RequestConfig).

Ltac run :=
  unfold bind, tick, update, get_metric, ret, raise, format_float in *;
  cbn [fst snd now metric first_token_time start_time end_time error
       total_tokens total_bytes events request_id response_headers_time
       set_first_token_time set_end_time set_total_tokens add_total_bytes
       set_error set_events set_response_headers_time
       sse_events first_token_found first_event_time event_count
       chunk_count stream_started raw_buffer] in *.

(** Once found, the first-token time is not assigned again, and the
    clock is not read. *)
Lemma handle_event_found (loc : sse_locals) (event_data : pydict)
      (st : req_state) :
  first_token_found loc = true ->
  handle_event clock config loc event_data st
  = (Done (counted_event loc event_data), st).
Proof.
  intros Hf. unfold handle_event, counted_event. run. rewrite Hf.
  cbn [negb]. rewrite andb_false_r. run. reflexivity.
Qed.

(** The clock reading an eligible event stores: the next one, or the
    one after it when the event is the first and its time is recorded
    as well. *)
Definition reading_at (loc : sse_locals) (st : req_state) : Q :=
  if event_count loc + 1 =? 1 then clock (S (now st)) else clock (now st).

Lemma handle_event_eligible (loc : sse_locals) (event_data : pydict)
      (st : req_state) :
  first_token_found loc = false ->
  eligible config event_data = true ->
  first_token_time (metric (snd (handle_event clock config loc event_data st)))
  = Some (reading_at loc st) /\
  (float_truthy (Some (reading_at loc st)) = true ->
   exists loc',
     fst (handle_event clock config loc event_data st) = Done loc' /\
     first_token_found loc' = true /\
     sse_events loc' = sse_events loc ++ [event_data]).
Proof.
  intros Hf He. unfold eligible in He.
  unfold handle_event, reading_at, mark_first_token, ttft. run.
  rewrite Hf. cbn [negb]. rewrite andb_true_r.
  destruct (event_count loc + 1 =? 1); run;
    destruct (str_truthy (first_token_event config)); rewrite He; run;
    (split; [destruct (float_truthy _); reflexivity|]);
    intros ->; run; eexists; repeat split; reflexivity.
Qed.

Lemma handle_event_not_eligible (loc : sse_locals) (event_data : pydict)
      (st : req_state) :
  first_token_found loc = false ->
  eligible config event_data = false ->
  exists loc' st',
    handle_event clock config loc event_data st = (Done loc', st') /\
    first_token_found loc' = false /\
    sse_events loc' = sse_events loc ++ [event_data] /\
    metric st' = metric st /\
    first_event_time loc'
    = (if event_count loc + 1 =? 1 then Some (clock (now st))
       else first_event_time loc).
Proof.
  intros Hf He. unfold eligible in He.
  unfold handle_event. run. rewrite Hf. cbn [negb]. rewrite andb_true_r.
  destruct (event_count loc + 1 =? 1); run;
    destruct (str_truthy (first_token_event config)); rewrite He;
    eexists; eexists; repeat split; reflexivity.
Qed.

(** The fallback after the stream. *)
Lemma first_token_fallback_cases (loc : sse_locals) (st : req_state) :
  fst (first_token_fallback clock loc st) = Done tt /\
  first_token_time (metric (snd (first_token_fallback clock loc st)))
  = (if first_token_found loc then first_token_time (metric st)
     else if float_truthy (first_event_time loc) then first_event_time loc
     else match sse_events loc with
          | [] => first_token_time (metric st)
          | _ => Some (clock (now st))
          end).
Proof.
  unfold first_token_fallback.
  destruct (first_token_found loc); [split; reflexivity|].
  destruct (float_truthy (first_event_time loc)) eqn:Et.
  - destruct (first_event_time loc); [split; reflexivity|discriminate].
  - destruct (sse_events loc); split; reflexivity.
Qed.
End FirstToken.

Section EventCount.
Context (rt : PyRuntime) (clock : nat -> Q) (config : RequestConfig).

Lemma sse_finish_counted (loc : sse_locals) (buffer : bytes)
      (st : req_state) :
  match sse_finish rt clock loc buffer st with
  | (Done _, st') =>
      total_tokens (metric st') = Z.of_nat (length (events (metric st')))
  | (Raised _, _) => True
  end.
Proof.
  unfold sse_finish. unfold bind at 1.
  destruct (first_token_fallback_cases clock
              (with_remainder rt loc buffer) st) as [Hd _].
  destruct (first_token_fallback clock _ st) as [r st1].
  simpl in Hd. subst r.
  unfold bind, tick, update. cbn [now metric].
  match goal with
  | |- context [event_statistics ?evs ?s] =>
      pose proof (event_statistics_state evs s) as Hs;
      destruct (event_statistics evs s) as [[u|e] st2]
  end; [|exact Logic.I].
  simpl in Hs. subst st2. reflexivity.
Qed.

Lemma sse_path_counted (stream : stream_script) (st : req_state) :
  match sse_path rt clock config stream st with
  | (Done _, st') =>
      total_tokens (metric st') = Z.of_nat (length (events (metric st')))
  | (Raised _, _) => True
  end.
Proof.
  unfold sse_path.
  destruct (feed_all _ _ _ _) as [[[loc|e] st'] buffer]; [|exact Logic.I].
  destruct (stream_end stream); [exact Logic.I|].
  apply sse_finish_counted.
Qed.

Lemma try_block_sse_counted (net : net_script) (request_id : Z)
      (st : req_state) :
  is_sse config = true ->
  match try_block rt clock config net request_id st with
  | (Done _, st') =>
      error (metric st') = None ->
      total_tokens (metric st') = Z.of_nat (length (events (metric st')))
  | (Raised _, _) => True
  end.
Proof.
  intros Hsse. unfold try_block.
  destruct (_get_request_body config request_id); [|exact Logic.I].
  destruct net as [e|status text stream]; [exact Logic.I|].
  destruct (negb (status =? 200)).
  - unfold bind, tick, update. cbn. discriminate.
  - rewrite Hsse. unfold bind, tick, update. cbn [now metric].
    match goal with
    | |- context [sse_path rt clock config stream ?s] =>
        pose proof (sse_path_counted stream s) as Hc;
        destruct (sse_path rt clock config stream s) as [[u|e] st']
    end; [|exact Logic.I].
    intros _. exact Hc.
Qed.

(** In SSE mode a metric returned without error counts its events, and
    has a first-token time exactly when it has an event. *)
Lemma sse_first_token_iff_events (net : net_script) (request_id : Z)
      (m : RequestMetrics) :
  is_sse config = true ->
  make_request rt clock config net request_id = Returned m ->
  error m = None ->
  total_tokens m = Z.of_nat (length (events m)) /\
  (first_token_time m = None <-> events m = []).
Proof.
  intros Hsse Hm He.
  assert (Hc : total_tokens m = Z.of_nat (length (events m))).
  { revert Hm. rewrite make_request_finish. unfold finish_request.
    pose proof (try_block_sse_counted net request_id
                  {| now := 1; metric := new_metric clock request_id |} Hsse)
      as Ht.
    destruct (try_block _ _ _ _ _ _) as [[u|e] st].
    - intros [= <-]. now apply Ht.
    - pose proof (handler_sets_end_time clock config e st) as [Hne _].
      destruct (handler clock config e st) as [[u|e'] st']; [|discriminate].
      intros [= <-]. contradiction. }
  split; [exact Hc|].
  destruct (make_request_cases rt clock config net request_id m Hm)
    as [[H _]|[_ (st & Hst & Hdone)]]; [contradiction|].
  destruct Hdone as (_ & _ & _ & Hiff).
  rewrite Hst in Hiff.
  rewrite Hiff, Hc. destruct (events m); simpl; split;
    intros; try reflexivity; try discriminate; lia.
Qed.
End EventCount.

(** ** The two decoders agree *)

Section Simulation.
Context {S T : Type} (f c1 : S -> bytes -> S) (g c2 : T -> bytes -> T).
Context (R : S -> T -> Prop).
Hypothesis block_sim : forall s t blk, R s t -> R (f s blk) (g t blk).
Hypothesis chunk_sim : forall s t chunk, R s t -> R (c1 s chunk) (c2 t chunk).

Lemma drain_sim (fuel : nat) :
  forall s t buffer,
    R s t ->
    R (fst (drain f fuel s buffer)) (fst (drain g fuel t buffer)) /\
    snd (drain f fuel s buffer) = snd (drain g fuel t buffer).
Proof.
  induction fuel as [|fuel IH]; intros s t buffer H; cbn [drain];
    [split; [exact H|reflexivity]|].
  destruct (split_nn buffer) as [[blk rest]|]; [|split; [exact H|reflexivity]].
  apply IH, block_sim, H.
Qed.

Lemma feed_all_sim (stream : list bytes) :
  forall sb tb,
    R (fst sb) (fst tb) -> snd sb = snd tb ->
    R (fst (feed_all f c1 stream sb)) (fst (feed_all g c2 stream tb)) /\
    snd (feed_all f c1 stream sb) = snd (feed_all g c2 stream tb).
Proof.
  induction stream as [|chunk stream IH]; intros sb tb H Hb;
    [split; assumption|].
  cbn [feed_all fold_left].
  destruct chunk as [|c0 chunk']; [now apply IH|].
  unfold feed. rewrite Hb.
  apply IH; apply drain_sim, chunk_sim, H.
Qed.
End Simulation.

Section DecoderAgreement.
Context (rt : PyRuntime) (clock : nat -> Q) (config : RequestConfig).
Hypothesis nonzero : clock_nonzero clock.

(** With a clock that never reads [0.0], handling an event never
    raises: the event is recorded and the loop goes on. *)
Lemma handle_event_appends (loc : sse_locals) (event_data : pydict)
      (st : req_state) :
  exists loc' st',
    handle_event clock config loc event_data st = (Done loc', st') /\
    sse_events loc' = sse_events loc ++ [event_data].
Proof.
  destruct (first_token_found loc) eqn:Ef.
  - rewrite (handle_event_found clock config loc event_data st Ef).
    eexists. eexists. split; reflexivity.
  - destruct (eligible config event_data) eqn:Ee.
    + destruct (handle_event_eligible clock config loc event_data st Ef Ee)
        as [_ H].
      destruct H as (loc' & Hd & _ & Hev).
      { apply float_truthy_Some. unfold reading_at.
        destruct (_ =? _); apply nonzero. }
      destruct (handle_event clock config loc event_data st) as [r st'].
      simpl in Hd. subst r. exists loc', st'. split; [reflexivity|exact Hev].
    + destruct (handle_event_not_eligible clock config loc event_data st Ef Ee)
        as (loc' & st' & Hd & _ & Hev & _).
      exists loc', st'. split; assumption.
Qed.

(** The loop of [make_request] has raised nothing and has recorded the
    events [evs] of the loop of [parse_sse_stream]. *)
Definition records (r : sse_loop_state) (evs : list pydict) : Prop :=
  exists loc st, r = (Done loc, st) /\ sse_events loc = evs.

Lemma sse_block_records (r : sse_loop_state) (evs : list pydict)
      (blk : bytes) :
  records r evs ->
  records (sse_block rt clock config r blk) (stream_block rt evs blk).
Proof.
  intros (loc & st & -> & <-). unfold sse_block, stream_block.
  destruct (bool_decide _); [exists loc, st; split; reflexivity|].
  destruct (handle_event_appends loc (parse_lines rt ∅ blk) st)
    as (loc' & st' & -> & Hev).
  exists loc', st'. split; [reflexivity|exact Hev].
Qed.

Lemma sse_chunk_records (r : sse_loop_state) (evs : list pydict)
      (chunk : bytes) :
  records r evs -> records (sse_chunk r chunk) evs.
Proof.
  intros (loc & st & -> & <-). eexists. eexists. split; reflexivity.
Qed.

(** The events [sse_finish] stores, whether or not the statistics
    raise afterwards. *)
Lemma sse_finish_events (loc : sse_locals) (buffer : bytes)
      (st : req_state) :
  events (metric (snd (sse_finish rt clock loc buffer st)))
  = sse_events (with_remainder rt loc buffer).
Proof.
  unfold sse_finish. unfold bind at 1.
  destruct (first_token_fallback_cases clock
              (with_remainder rt loc buffer) st) as [Hd _].
  destruct (first_token_fallback clock _ st) as [r st1].
  simpl in Hd. subst r.
  unfold bind, tick, update. cbn [now metric].
  match goal with
  | |- context [event_statistics ?evs ?s] =>
      pose proof (event_statistics_state evs s) as Hs;
      destruct (event_statistics evs s) as [[u|e] st2]
  end; simpl in Hs; subst st2; reflexivity.
Qed.

Lemma sse_path_events (stream : stream_script) (st : req_state) :
  stream_end stream = None ->
  events (metric (snd (sse_path rt clock config stream st)))
  = parse_sse_stream rt (chunks stream).
Proof.
  intros Hend. unfold sse_path, parse_sse_stream.
  destruct (feed_all_sim (sse_block rt clock config) sse_chunk
              (stream_block rt) (fun evs _ => evs) records
              sse_block_records sse_chunk_records (chunks stream)
              ((Done sse_init, st), []) ([], []))
    as [(loc & st' & Hr & Hev) Hbuf];
    [exists sse_init, st; split; reflexivity|reflexivity|].
  destruct (feed_all (sse_block rt clock config) sse_chunk (chunks stream)
                     (Done sse_init, st, [])) as [r buffer].
  destruct (feed_all (stream_block rt) (fun evs _ => evs) (chunks stream)
                     ([], [])) as [evs buffer'].
  simpl in Hr, Hev, Hbuf. subst r evs buffer'.
  rewrite Hend, sse_finish_events. unfold with_remainder.
  destruct (remainder_event rt buffer); reflexivity.
Qed.

Lemma handler_events (e : exn) (st : req_state) :
  events (metric (snd (handler clock config e st))) = events (metric st).
Proof.
  unfold handler.
  destruct (is_TimeoutError e); [|destruct e];
    unfold bind, tick, update, get_metric, format_float;
    cbn [now metric fst snd];
    repeat match goal with
           | |- context [match total_time ?m with _ => _ end] =>
               destruct (total_time m)
           end;
    reflexivity.
Qed.

(** In SSE mode, for a 200 response whose stream ends normally,
    [make_request] returns the events [parse_sse_stream] decodes from
    the same chunks. *)
Lemma make_request_events (text : text_script) (stream : stream_script)
      (request_id : Z) :
  is_sse config = true ->
  stream_end stream = None ->
  exists m,
    make_request rt clock config (Response 200 text stream) request_id
    = Returned m /\
    events m = parse_sse_stream rt (chunks stream).
Proof.
  intros Hsse Hend.
  rewrite make_request_finish. unfold try_block.
  destruct (get_request_body_total config request_id) as [p ->].
  cbn [Z.eqb Pos.eqb negb]. rewrite Hsse.
  unfold bind, tick, update. cbn [now metric].
  match goal with
  | |- context [sse_path rt clock config stream ?s] =>
      pose proof (sse_path_events stream s Hend) as Hev;
      destruct (sse_path rt clock config stream s) as [[u|e] st']
  end; cbn [snd] in Hev; unfold finish_request.
  - eexists. split; [reflexivity|exact Hev].
  - pose proof (handler_events e st') as Hh.
    destruct (handler_done clock config e st' nonzero) as [st'' Hd].
    rewrite Hd in *. cbn [snd] in Hh.
    eexists. split; [reflexivity|]. now rewrite Hh.
Qed.
End DecoderAgreement.



(** ** The worker pool *)

#[local] Instance worker_pc_eq_dec : EqDecision worker_pc.
Proof. solve_decision. Defined.

(** The sum of [f] over the workers. *)
Definition tally (f : worker_pc -> nat) (ws : list worker_pc) : nat :=
  foldr (fun w acc => (f w + acc)%nat) 0%nat ws.

Definition holds_slot (w : worker_pc) : nat :=
  match w with AtGet | InRequest _ => 1 | _ => 0 end.

Definition in_request (w : worker_pc) : nat :=
  match w with InRequest _ => 1 | _ => 0 end.

Definition has_exited (w : worker_pc) : nat :=
  match w with Exited => 1 | _ => 0 end.

(** How many steps a worker can still take without a new queue item. *)
Definition rank (w : worker_pc) : nat :=
  match w with
  | AtAcquire => 2
  | AtGet => 1
  | InRequest _ => 3
  | Exited => 0
  end.

Definition measure (s : pool_state) : nat :=
  (3 * length (queue s) + tally rank (workers s))%nat.

(** What holds in every state [run] can reach. *)
Definition pool_inv (concurrency total_requests : Z) (s : pool_state) : Prop :=
  Z.of_nat (length (workers s)) = concurrency /\
  semaphore_value s + Z.of_nat (tally holds_slot (workers s)) = concurrency /\
  unfinished_tasks s
  = Z.of_nat (length (queue s)) + Z.of_nat (tally in_request (workers s)) /\
  completed_count s = Z.of_nat (length (metrics s)) /\
  exists (ids : list Z) (sentinels : nat),
    queue s = map Some ids ++ replicate sentinels None /\
    (ids <> [] -> Z.of_nat sentinels = concurrency) /\
    Z.of_nat sentinels + Z.of_nat (tally has_exited (workers s)) = concurrency /\
    Z.of_nat (length (metrics s)) + Z.of_nat (tally in_request (workers s))
    + Z.of_nat (length ids) = total_requests.

Lemma tally_insert (f : worker_pc -> nat) (ws : list worker_pc) (i : nat)
      (old new : worker_pc) :
  ws !! i = Some old ->
  (tally f (<[ i := new ]> ws) + f old = tally f ws + f new)%nat.
Proof.
  revert i. induction ws as [|w ws IH]; intros i H; [discriminate|].
  destruct i as [|i]; simpl in *.
  - injection H as ->. lia.
  - specialize (IH i H). lia.
Qed.

Lemma tally_le (f : worker_pc -> nat) (ws : list worker_pc) :
  (forall w, (f w <= 1)%nat) -> (tally f ws <= length ws)%nat.
Proof.
  intros Hf. induction ws as [|w ws IH]; simpl; [lia|].
  specialize (Hf w). lia.
Qed.

Lemma tally_lt (f : worker_pc -> nat) (ws : list worker_pc) (i : nat)
      (w : worker_pc) :
  (forall w, (f w <= 1)%nat) -> ws !! i = Some w -> f w = 0%nat ->
  (tally f ws < length ws)%nat.
Proof.
  intros Hf. revert i. induction ws as [|w' ws IH]; intros i H H0;
    [discriminate|].
  destruct i as [|i]; simpl in *.
  - injection H as ->. pose proof (tally_le f ws Hf). lia.
  - specialize (IH i H H0). specialize (Hf w'). lia.
Qed.

Lemma tally_all (f : worker_pc -> nat) (ws : list worker_pc) :
  Forall (fun w => f w = 1%nat) ws -> tally f ws = length ws.
Proof. induction 1 as [|w ws Hw _ IH]; simpl; [reflexivity|lia]. Qed.

Lemma tally_replicate (f : worker_pc -> nat) (n : nat) (w : worker_pc) :
  tally f (replicate n w) = (n * f w)%nat.
Proof. induction n as [|n IH]; simpl; [reflexivity|lia]. Qed.

Lemma holds_slot_le w : (holds_slot w <= 1)%nat.
Proof. destruct w; simpl; lia. Qed.

Lemma has_exited_le w : (has_exited w <= 1)%nat.
Proof. destruct w; simpl; lia. Qed.

Section PoolFacts.
Context (rt : PyRuntime) (config : RequestConfig).
Context (concurrency total_requests : Z).
Hypothesis concurrency_pos : 0 < concurrency.
Hypothesis total_nonneg : 0 <= total_requests.

Lemma pool_init_inv :
  pool_inv concurrency total_requests (pool_init concurrency total_requests).
Proof.
  unfold pool_inv, pool_init. simpl.
  rewrite !tally_replicate, length_replicate. simpl.
  rewrite length_app, length_map, length_seq, length_replicate.
  repeat split; try lia.
  exists (map (fun i => Z.of_nat i + 1) (seq 0 (Z.to_nat total_requests))),
         (Z.to_nat concurrency).
  rewrite map_map, length_map, length_seq.
  repeat split; try lia.
Qed.

Lemma step_inv (s s' : pool_state) :
  step rt config s s' ->
  pool_inv concurrency total_requests s ->
  pool_inv concurrency total_requests s'.
Proof.
  intros Hstep (Hlen & Hsem & Hunf & Hcnt & ids & k & Hq & Hids & Hk & Htot).
  destruct Hstep as [i s Hw Hpos|i s q Hw Hqs|i s request_id q Hw Hqs
                    |i s request_id clock net m Hw Hnz Hm].
  - (* acquire *)
    pose proof (tally_insert holds_slot _ i _ AtGet Hw) as T1.
    pose proof (tally_insert in_request _ i _ AtGet Hw) as T2.
    pose proof (tally_insert has_exited _ i _ AtGet Hw) as T3.
    unfold pool_inv. simpl in *. rewrite length_insert.
    repeat split; simpl; try lia.
    exists ids, k. repeat split; simpl; try assumption; lia.
  - (* sentinel *)
    rewrite Hqs in Hq.
    destruct ids as [|x ids]; [|discriminate].
    destruct k as [|k]; [discriminate|].
    simpl in Hq. injection Hq as ->.
    rewrite Hqs in Hunf. simpl in Hunf.
    unfold after_sentinel, task_done. simpl.
    destruct (unfinished_tasks s <=? 0) eqn:E; [apply Z.leb_le in E; lia|].
    pose proof (tally_insert holds_slot _ i _ Exited Hw) as T1.
    pose proof (tally_insert in_request _ i _ Exited Hw) as T2.
    pose proof (tally_insert has_exited _ i _ Exited Hw) as T3.
    unfold pool_inv. simpl in *. rewrite length_insert, length_replicate in *.
    repeat split; simpl; try lia.
    exists [], k. repeat split; simpl; try lia. contradiction.
  - (* request taken *)
    rewrite Hqs in Hq.
    destruct ids as [|x ids];
      [destruct k; discriminate|].
    simpl in Hq. injection Hq as -> ->.
    rewrite Hqs in Hunf.
    pose proof (tally_insert holds_slot _ i _ (InRequest x) Hw) as T1.
    pose proof (tally_insert in_request _ i _ (InRequest x) Hw) as T2.
    pose proof (tally_insert has_exited _ i _ (InRequest x) Hw) as T3.
    unfold pool_inv. simpl in *. rewrite length_insert.
    repeat split; simpl; try lia.
    exists ids, k. repeat split; simpl; try lia.
    intros _. apply Hids. discriminate.
  - (* request done *)
    pose proof (tally_insert holds_slot _ i _ AtAcquire Hw) as T1.
    pose proof (tally_insert in_request _ i _ AtAcquire Hw) as T2.
    pose proof (tally_insert has_exited _ i _ AtAcquire Hw) as T3.
    unfold after_request, task_done. simpl.
    destruct (unfinished_tasks s <=? 0) eqn:E;
      [apply Z.leb_le in E; simpl in *; lia|].
    unfold pool_inv. simpl in *. rewrite length_insert, length_app. simpl.
    repeat split; simpl; try lia.
    exists ids, k. repeat split; simpl; try assumption; lia.
Qed.

Lemma reachable_inv (s : pool_state) :
  rtc (step rt config) (pool_init concurrency total_requests) s ->
  pool_inv concurrency total_requests s.
Proof.
  intros H. revert s H. apply rtc_ind_r.
  - apply pool_init_inv.
  - intros y z _ Hyz IH. exact (step_inv y z Hyz IH).
Qed.

(** When every worker has exited, nothing is left in the queue and
    every request has its metric. *)
Lemma completed_inv (s : pool_state) :
  pool_inv concurrency total_requests s ->
  Forall (fun pc => pc = Exited) (workers s) ->
  queue s = [] /\ unfinished_tasks s = 0 /\
  Z.of_nat (length (metrics s)) = total_requests /\
  completed_count s = total_requests /\
  semaphore_value s = concurrency.
Proof.
  intros (Hlen & Hsem & Hunf & Hcnt & ids & k & Hq & Hids & Hk & Htot) Hall.
  assert (He : tally has_exited (workers s) = length (workers s)).
  { apply tally_all. eapply Forall_impl; [exact Hall|].
    intros w ->. reflexivity. }
  assert (Hr : tally in_request (workers s) = 0%nat).
  { clear -Hall. induction Hall as [|w ws -> _ IH]; simpl; [reflexivity|lia]. }
  assert (Hh : tally holds_slot (workers s) = 0%nat).
  { clear -Hall. induction Hall as [|w ws -> _ IH]; simpl; [reflexivity|lia]. }
  assert (Hk0 : k = 0%nat) by lia. subst k.
  assert (Hi : ids = []).
  { destruct ids; [reflexivity|]. assert (Z.of_nat 0 = concurrency)
      by (apply Hids; discriminate). lia. }
  subst ids. simpl in *.
  rewrite Hq in *. simpl in *.
  repeat split; lia.
Qed.

(** A worker that has not exited can always take a step: no deadlock. *)
Lemma progress (s : pool_state) (i : nat) (pc : worker_pc) :
  pool_inv concurrency total_requests s ->
  workers s !! i = Some pc -> pc <> Exited ->
  exists s', step rt config s s'.
Proof.
  intros (Hlen & Hsem & Hunf & Hcnt & ids & k & Hq & Hids & Hk & Htot) Hw Hne.
  destruct pc as [| |request_id|]; [| | |contradiction].
  - eexists. eapply step_acquire; [exact Hw|].
    pose proof (tally_lt holds_slot _ i _ holds_slot_le Hw eq_refl). lia.
  - pose proof (tally_lt has_exited _ i _ has_exited_le Hw eq_refl).
    destruct (queue s) as [|[request_id|] q] eqn:Eq.
    + destruct ids; [|discriminate]. destruct k; [lia|discriminate].
    + eexists. eapply step_get_request; [exact Hw|exact Eq].
    + eexists. eapply step_get_sentinel; [exact Hw|exact Eq].
  - destruct (make_request_returns rt sample_clock config
                (RequestRaises TimeoutError) request_id sample_clock_nonzero)
      as [m Hm].
    eexists. eapply step_request_done; [exact Hw| |exact Hm].
    exact sample_clock_nonzero.
Qed.

(** Every step uses up some of the measure: the run terminates. *)
Lemma step_measure (s s' : pool_state) :
  step rt config s s' -> (measure s' < measure s)%nat.
Proof.
  intros Hstep.
  destruct Hstep as [i s Hw Hpos|i s q Hw Hqs|i s request_id q Hw Hqs
                    |i s request_id clock net m Hw Hnz Hm];
    unfold measure.
  - pose proof (tally_insert rank _ i _ AtGet Hw). simpl in *. lia.
  - unfold after_sentinel, task_done. simpl.
    destruct (unfinished_tasks s <=? 0); simpl; rewrite Hqs; simpl.
    + pose proof (tally_insert rank _ i _ AtAcquire Hw). simpl in *. lia.
    + pose proof (tally_insert rank _ i _ Exited Hw). simpl in *. lia.
  - pose proof (tally_insert rank _ i _ (InRequest request_id) Hw).
    simpl in *. rewrite Hqs. simpl. lia.
  - unfold after_request, task_done. simpl.
    pose proof (tally_insert rank _ i _ AtAcquire Hw).
    destruct (unfinished_tasks s <=? 0); simpl in *; lia.
Qed.

Lemma nsteps_measure (n : nat) (s s' : pool_state) :
  nsteps (step rt config) n s s' -> (n + measure s' <= measure s)%nat.
Proof.
  induction 1 as [|n x y z Hxy _ IH]; [lia|].
  apply step_measure in Hxy. lia.
Qed.

Lemma measure_init :
  Z.of_nat (measure (pool_init concurrency total_requests))
  = 3 * total_requests + 5 * concurrency.
Proof.
  unfold measure, pool_init. simpl.
  rewrite tally_replicate, length_app, length_map, length_seq,
    length_replicate. simpl. lia.
Qed.
End PoolFacts.

(** C3: with a positive [concurrency] and a non-negative
    [total_requests], whatever the interleaving of the workers, [run]
    completes (no reachable state is stuck before completion, and no
    execution is longer than [3 * total_requests + 5 * concurrency]
    steps), and when it has completed the metrics list holds exactly
    [total_requests] records. *)
Theorem run_collects_every_outcome (rt : PyRuntime) (config : RequestConfig)
        (concurrency total_requests : Z) :
  0 < concurrency -> 0 <= total_requests ->
  (forall s,
      rtc (step rt config) (pool_init concurrency total_requests) s ->
      run_completed s ->
      Z.of_nat (length (metrics s)) = total_requests /\
      completed_count s = total_requests /\ queue s = []) /\
  (forall s,
      rtc (step rt config) (pool_init concurrency total_requests) s ->
      ~ run_completed s -> exists s', step rt config s s') /\
  (forall n s,
      nsteps (step rt config) n (pool_init concurrency total_requests) s ->
      Z.of_nat n <= 3 * total_requests + 5 * concurrency).
Proof.
  intros Hc Ht.
  split; [|split].
  - intros s Hreach [_ Hall].
    pose proof (reachable_inv rt config concurrency total_requests Hc Ht s
                              Hreach) as Hinv.
    destruct (completed_inv concurrency total_requests Hc s Hinv Hall)
      as (Hq & _ & Hm & Hcc & _).
    repeat split; assumption.
  - intros s Hreach Hnot.
    pose proof (reachable_inv rt config concurrency total_requests Hc Ht s
                              Hreach) as Hinv.
    destruct (decide (Forall (fun pc => pc = Exited) (workers s)))
      as [Hall|Hsome].
    + exfalso. apply Hnot. split; [|exact Hall].
      now destruct (completed_inv concurrency total_requests Hc s Hinv Hall)
        as (_ & Hu & _).
    + apply not_Forall_Exists in Hsome; [|intros w; apply _].
      apply Exists_exists in Hsome. destruct Hsome as (pc & Hin & Hne).
      apply list_elem_of_lookup in Hin. destruct Hin as [i Hi].
      exact (progress rt config concurrency total_requests s i pc Hinv Hi Hne).
  - intros n s Hn.
    apply nsteps_measure in Hn.
    pose proof (measure_init concurrency total_requests Hc Ht) as Hi. lia.
Qed.

(** * The properties on sample inputs *)

Definition sample_body : bytes :=
  b ("event: a" +:+ LF +:+ "data: x" +:+ LF +:+ LF +:+
     "id: 7" +:+ LF +:+ LF +:+ "retry: 5").

(** Three events: the two complete blocks and the remainder. *)
Example sample_body_events :
  map map_to_list (parse_sse_stream ascii_runtime [sample_body])
  = [[("event"%string, VStr "a"); ("data"%string, VStr "x")];
     [("id"%string, VStr "7")];
     [("retry"%string, VStr "5")]].
Proof. vm_compute. reflexivity. Qed.


Definition two_chunks : net_script :=
  Response 200 (TextOk "") (ends_normally [b "ab"; b "c"]).

Lemma success_timestamps_witness :
  exists m,
    make_request ascii_runtime sample_clock raw_config two_chunks 1
    = Returned m /\
    error m = None /\ total_tokens m = 2 /\
    (first_token_time m = None <-> total_tokens m = 0) /\
    forall t e, first_token_time m = Some t -> end_time m = Some e ->
                (start_time m <= t)%Q /\ (t <= e)%Q.
Proof.
  eexists. split; [vm_compute; reflexivity|].
  split; [reflexivity|]. split; [reflexivity|].
  match goal with
  | |- (first_token_time ?m = _ <-> _) /\ _ =>
      assert (Hm : make_request ascii_runtime sample_clock raw_config
                                two_chunks 1 = Returned m)
        by (vm_compute; reflexivity);
      destruct (success_timestamps ascii_runtime sample_clock raw_config
                                   two_chunks 1 m Hm eq_refl)
        as (_ & Hiff & Hord)
  end.
  split; [exact Hiff|exact (Hord sample_clock_monotone)].
Defined.

Lemma percentile_nearest_rank_witness :
  map inject_Z [3; 1; 2] <> [] /\ In f50 thresholds /\
  Sorted Qle (py_sorted (map inject_Z [3; 1; 2])) /\
  pct_index (length (py_sorted (map inject_Z [3; 1; 2]))) f50 = 1.
Proof.
  assert (H1 : map inject_Z [3; 1; 2] <> []) by (simpl; discriminate).
  assert (H2 : In f50 thresholds) by (simpl; left; reflexivity).
  split; [exact H1|]. split; [exact H2|].
  destruct (percentile_nearest_rank (map inject_Z [3; 1; 2]) f50 H1 H2)
    as (Hs & _ & _ & Hi & _).
  split; [exact Hs|]. rewrite Hi. reflexivity.
Defined.


Definition three_rows : list row :=
  [[("name"%string, "ann"%string)]; [("name"%string, "bob"%string)];
   [("name"%string, "cy"%string)]].

Definition rows_config : RequestConfig :=
  {| url := "http://localhost/stream"; method := "POST"; headers := ∅;
     body := VDict {[ "q"%string := VStr "hi {{name}}!" ]};
     timeout := 300; data_source := None;
     data_rows := Some three_rows; stream_format := None;
     first_token_event := None;
     completion_event := None; output_path := None |}.

(** Request 5 uses row 1. *)
Example request_body_5 :
  _get_request_body rows_config 5
  = Some (VDict {[ "q"%string := VStr "hi bob!" ]}).
Proof. vm_compute. reflexivity. Qed.

Lemma request_body_row_witness :
  data_rows rows_config = Some three_rows /\ three_rows <> [] /\
  0 <= row_index 5 (length three_rows) < Z.of_nat (length three_rows).
Proof.
  assert (H1 : data_rows rows_config = Some three_rows) by reflexivity.
  assert (H2 : three_rows <> []) by (unfold three_rows; discriminate).
  split; [exact H1|]. split; [exact H2|].
  exact (proj1 (request_body_row rows_config three_rows 5 H1 H2)).
Defined.

Lemma error_implies_end_time_witness :
  exists m,
    make_request ascii_runtime sample_clock raw_config
                 (RequestRaises TimeoutError) 1 = Returned m /\
    error m = Some "Timeout (>300s)"%string /\
    end_time m <> None.
Proof.
  eexists. split; [vm_compute; reflexivity|]. split; [reflexivity|].
  match goal with
  | |- end_time ?m <> None =>
      assert (Hm : make_request ascii_runtime sample_clock raw_config
                                (RequestRaises TimeoutError) 1 = Returned m)
        by (vm_compute; reflexivity);
      refine (proj1 (error_implies_end_time ascii_runtime sample_clock
                       raw_config (RequestRaises TimeoutError) 1 m Hm _));
      simpl; discriminate
  end.
Defined.

Definition sample_metric : RequestMetrics :=
  {| request_id := 1; start_time := 1; response_headers_time := None;
     first_token_time := None; end_time := Some 3%Q; total_tokens := 4;
     total_bytes := 0; error := None; events := [] |}.

Lemma tokens_per_second_guarded_witness :
  total_time sample_metric = Some (3 - 1)%Q /\ (0 < 3 - 1)%Q /\
  tokens_per_second sample_metric = Some (inject_Z 4 / (3 - 1))%Q.
Proof.
  assert (H1 : total_time sample_metric = Some (3 - 1)%Q) by reflexivity.
  assert (H2 : (0 < 3 - 1)%Q) by reflexivity.
  split; [exact H1|]. split; [exact H2|].
  destruct (tokens_per_second_guarded sample_metric) as (_ & _ & _ & H & _).
  exact (proj1 (H _ H1 H2)).
Defined.

Definition nested : pyval :=
  VDict {[ "data"%string :=
             VDict {[ "outputs"%string :=
                        VDict {[ "result"%string := VStr "hello" ]} ]} ]}.

Lemma extract_value_total_witness :
  path_resolves nested (str_split "." "data.outputs.result") (VStr "hello") /\
  extract_value nested "data.outputs.result" = VStr "hello" /\
  extract_value nested "data.missing.result" = VNone.
Proof.
  assert (H : path_resolves nested (str_split "." "data.outputs.result")
                            (VStr "hello")).
  { unfold nested. cbn [str_split Ascii.eqb Bool.eqb].
    eapply resolves_step; [vm_compute; reflexivity|discriminate|].
    eapply resolves_step; [vm_compute; reflexivity|discriminate|].
    eapply resolves_step; [vm_compute; reflexivity|discriminate|].
    apply resolves_here. }
  split; [exact H|].
  destruct (extract_value_total nested "data.outputs.result")
    as (_ & Hr & _).
  split; [exact (Hr _ H)|vm_compute; reflexivity].
Defined.

(** A complete run with two workers and one request: worker 0 takes the
    request and then its sentinel, worker 1 goes straight to its
    sentinel. *)
Definition one_chunk : net_script :=
  Response 200 (TextOk "") (ends_normally [b "x"]).

Ltac pool_step rule :=
  eapply rtc_l; [eapply rule; try reflexivity; try (simpl; lia)|].

Lemma sample_run :
  exists s,
    rtc (step ascii_runtime raw_config) (pool_init 2 1) s /\
    run_completed s.
Proof.
  eexists. split.
  - pool_step (step_acquire ascii_runtime raw_config 0%nat).
    pool_step (step_get_request ascii_runtime raw_config 0%nat).
    eapply rtc_l.
    { eapply (step_request_done ascii_runtime raw_config 0%nat _ 1
                                sample_clock one_chunk);
        [reflexivity|exact sample_clock_nonzero|vm_compute; reflexivity]. }
    pool_step (step_acquire ascii_runtime raw_config 1%nat).
    pool_step (step_get_sentinel ascii_runtime raw_config 1%nat).
    pool_step (step_acquire ascii_runtime raw_config 0%nat).
    pool_step (step_get_sentinel ascii_runtime raw_config 0%nat).
    apply rtc_refl.
  - split; [reflexivity|]. repeat constructor.
Qed.

Lemma run_collects_every_outcome_witness :
  0 < 2 /\ 0 <= 1 /\
  exists s,
    rtc (step ascii_runtime raw_config) (pool_init 2 1) s /\
    run_completed s /\
    Z.of_nat (length (metrics s)) = 1.
Proof.
  assert (H1 : 0 < 2) by lia.
  assert (H2 : 0 <= 1) by lia.
  split; [exact H1|]. split; [exact H2|].
  destruct sample_run as (s & Hr & Hc).
  exists s. split; [exact Hr|]. split; [exact Hc|].
  destruct (run_collects_every_outcome ascii_runtime raw_config 2 1 H1 H2)
    as (Hall & _ & _).
  exact (proj1 (Hall s Hr Hc)).
Defined.

(** * Further properties of the code *)

(** ** Paths of [extract_value] *)

Lemma str_split_app (c : ascii) (p1 p2 : string) :
  str_split c (p1 +:+ String c p2) = str_split c p1 ++ str_split c p2.
Proof.
  induction p1 as [|a p1 IH]; simpl.
  - now rewrite Ascii.eqb_refl.
  - rewrite IH. destruct (Ascii.eqb a c); [reflexivity|].
    pose proof (str_split_nonempty c p1) as Hne.
    destruct (str_split c p1); [contradiction|reflexivity].
Qed.

Lemma extract_keys_None (keys : list string) :
  extract_keys VNone keys = VNone.
Proof. destruct keys; reflexivity. Qed.

Lemma extract_keys_app (keys1 keys2 : list string) :
  forall value,
    extract_keys value (keys1 ++ keys2)
    = extract_keys (extract_keys value keys1) keys2.
Proof.
  induction keys1 as [|key rest IH]; intros value; [reflexivity|].
  simpl. destruct value; try (now rewrite extract_keys_None).
  destruct (m !! key) as [v|]; [|now rewrite extract_keys_None].
  destruct v; try apply IH. now rewrite extract_keys_None.
Qed.

(** X1: looking up [p1.p2] is looking up [p1] and then [p2] in what
    was found; when [p1] leads nowhere the whole lookup is [None]. *)
Theorem extract_value_compose (data : pyval) (p1 p2 : string) :
  extract_value data (p1 +:+ "." +:+ p2)
  = extract_value (extract_value data p1) p2 /\
  (extract_value data p1 = VNone ->
   extract_value data (p1 +:+ "." +:+ p2) = VNone).
Proof.
  assert (H : extract_value data (p1 +:+ "." +:+ p2)
              = extract_value (extract_value data p1) p2).
  { unfold extract_value.
    change (p1 +:+ "." +:+ p2) with (p1 +:+ String "." p2).
    rewrite str_split_app. apply extract_keys_app. }
  split; [exact H|].
  intros Hn. rewrite H, Hn. unfold extract_value. apply extract_keys_None.
Qed.

Lemma extract_value_compose_witness :
  extract_value nested "data.outputs" <> VNone /\
  extract_value nested ("data.outputs" +:+ "." +:+ "result") = VStr "hello" /\
  extract_value nested "data.nothing" = VNone /\
  extract_value nested ("data.nothing" +:+ "." +:+ "result") = VNone.
Proof.
  split; [vm_compute; discriminate|].
  split.
  - rewrite (proj1 (extract_value_compose nested "data.outputs" "result")).
    vm_compute. reflexivity.
  - assert (H : extract_value nested "data.nothing" = VNone)
      by (vm_compute; reflexivity).
    split; [exact H|].
    exact (proj2 (extract_value_compose nested "data.nothing" "result") H).
Defined.

(** ** More on request bodies *)

Lemma row_index_period (request_id : Z) (n : nat) :
  row_index (request_id + Z.of_nat n) n = row_index request_id n.
Proof.
  unfold row_index.
  replace (request_id + Z.of_nat n - 1)
    with (request_id - 1 + 1 * Z.of_nat n) by lia.
  destruct n as [|n].
  - simpl. rewrite !Z.mod_0_r. lia.
  - apply Z_mod_plus_full.
Qed.

(** X2: [_get_request_body] never fails with an [IndexError], whatever
    the request identifier (zero and negative ones included), and the
    data rows are used cyclically: the identifiers [i] and
    [i + row_count] get the same body. *)
Theorem request_body_cyclic (config : RequestConfig) (request_id : Z) :
  (exists request_body,
      _get_request_body config request_id = Some request_body) /\
  (forall rows,
      data_rows config = Some rows ->
      _get_request_body config (request_id + Z.of_nat (length rows))
      = _get_request_body config request_id) /\
  (data_rows config = None \/ data_rows config = Some [] ->
   _get_request_body config request_id = Some (body config)).
Proof.
  split; [apply get_request_body_total|]. split.
  - intros rows Hrows. unfold _get_request_body. rewrite Hrows.
    destruct rows as [|r rows]; [reflexivity|].
    now rewrite row_index_period.
  - intros [H|H]; unfold _get_request_body; rewrite H; reflexivity.
Qed.

Lemma request_body_cyclic_witness :
  data_rows rows_config = Some three_rows /\
  _get_request_body rows_config (2 + Z.of_nat (length three_rows))
  = _get_request_body rows_config 2 /\
  _get_request_body rows_config (-4)
  = Some (VDict {[ "q"%string := VStr "hi bob!" ]}).
Proof.
  assert (H : data_rows rows_config = Some three_rows) by reflexivity.
  split; [exact H|]. split.
  - exact (proj1 (proj2 (request_body_cyclic rows_config 2)) three_rows H).
  - vm_compute. reflexivity.
Defined.

(** The size of a value, to reason by induction on nested values. *)
Fixpoint pyval_size (v : pyval) : nat :=
  match v with
  | VList l => S (foldr (fun x acc => (pyval_size x + acc)%nat) 0%nat l)
  | VDict m =>
      S (map_fold (fun (_ : string) (x : pyval) (acc : nat) =>
                     (pyval_size x + acc)%nat) 0%nat m)
  | _ => 1
  end.

Lemma pyval_size_dict (m : gmap string pyval) (k : string) (v : pyval) :
  m !! k = Some v -> (pyval_size v < pyval_size (VDict m))%nat.
Proof.
  intros H. simpl.
  rewrite <- (insert_delete_id m k v H).
  rewrite map_fold_insert_L.
  - lia.
  - intros. lia.
  - apply lookup_delete_eq.
Qed.

Lemma pyval_size_list (l : list pyval) (v : pyval) :
  In v l -> (pyval_size v < pyval_size (VList l))%nat.
Proof.
  intros H. simpl. induction l as [|x l IH]; [contradiction|].
  simpl. destruct H as [->|H]; [lia|]. specialize (IH H). lia.
Qed.

(** The strings found in a value, at any depth; the keys of its
    dictionaries are not among them. *)
Inductive string_leaf : pyval -> string -> Prop :=
| leaf_here s : string_leaf (VStr s) s
| leaf_in_list l v s : In v l -> string_leaf v s -> string_leaf (VList l) s
| leaf_in_dict m k v s :
    m !! k = Some v -> string_leaf v s -> string_leaf (VDict m) s.

(** The placeholder of a column. *)
Definition placeholder (column : string) : string :=
  "{{" +:+ column +:+ "}}".

Lemma replace_in_str_absent (row_data : row) (data : string) :
  (forall kv, In kv row_data ->
              str_contains (placeholder (fst kv)) data = false) ->
  replace_in_str row_data data = data.
Proof.
  unfold replace_in_str.
  induction row_data as [|kv row_data IH]; intros H; [reflexivity|].
  cbn [fold_left].
  change ("{{" +:+ fst kv +:+ "}}") with (placeholder (fst kv)).
  rewrite (H kv (or_introl eq_refl)).
  apply IH. intros kv' Hin. apply H. now right.
Qed.

Lemma replace_placeholders_absent (row_data : row) (n : nat) :
  forall data,
    (pyval_size data < n)%nat ->
    (forall s, string_leaf data s ->
               forall kv, In kv row_data ->
                          str_contains (placeholder (fst kv)) s = false) ->
    _replace_placeholders data row_data = data.
Proof.
  induction n as [|n IH]; intros data Hn H; [lia|].
  destruct data; try reflexivity.
  - simpl. f_equal. apply replace_in_str_absent.
    apply H. constructor.
  - cbn [_replace_placeholders]. f_equal.
    rewrite <- (map_id l) at 2. apply map_ext_in.
    intros v Hv. apply IH.
    + pose proof (pyval_size_list l v Hv). lia.
    + intros s Hs. apply H. now apply leaf_in_list with (v := v).
  - cbn [_replace_placeholders]. f_equal.
    apply map_eq. intros k. rewrite lookup_fmap.
    destruct (m !! k) as [v|] eqn:E; [|reflexivity].
    simpl. f_equal. apply IH.
    + pose proof (pyval_size_dict m k v E). lia.
    + intros s Hs. apply H. now apply leaf_in_dict with (k := k) (v := v).
Qed.

(** X3: substituting the placeholders keeps the shape of the body: a
    dictionary keeps its keys (keys are never rewritten), a list keeps
    its length, and a number, a boolean or [None] is returned as it is.
    A body in which no placeholder of the row occurs, at any depth, is
    returned unchanged; so is every body when the row has no column. *)
Theorem replace_placeholders_shape (data : pyval) (row_data : row) :
  (forall m, data = VDict m ->
             exists m', _replace_placeholders data row_data = VDict m' /\
                        dom m' = dom m /\
                        forall k, m' !! k
                                  = (fun v => _replace_placeholders v row_data)
                                      <$> m !! k) /\
  (forall l, data = VList l ->
             exists l', _replace_placeholders data row_data = VList l' /\
                        length l' = length l) /\
  ((forall m, data <> VDict m) -> (forall l, data <> VList l) ->
   (forall s, data <> VStr s) ->
   _replace_placeholders data row_data = data) /\
  ((forall s, string_leaf data s ->
              forall column cell, In (column, cell) row_data ->
                                  str_contains (placeholder column) s = false) ->
   _replace_placeholders data row_data = data) /\
  _replace_placeholders data [] = data.
Proof.
  split; [|split; [|split; [|split]]].
  - intros m ->. eexists. split; [reflexivity|].
    split; [apply dom_fmap_L|]. intros k. apply lookup_fmap.
  - intros l ->. eexists. split; [reflexivity|]. apply length_map.
  - intros Hd Hl Hs. destruct data; try reflexivity.
    + exfalso. now apply (Hs s).
    + exfalso. now apply (Hl l).
    + exfalso. now apply (Hd m).
  - intros H. apply (replace_placeholders_absent row_data (S (pyval_size data)));
      [lia|].
    intros s Hs [column cell] Hin. exact (H s Hs column cell Hin).
  - apply (replace_placeholders_absent [] (S (pyval_size data))); [lia|].
    intros s _ kv [].
Qed.

Lemma replace_placeholders_shape_witness :
  exists m',
    _replace_placeholders (body rows_config) [("name"%string, "bob"%string)]
    = VDict m' /\
    dom m' = dom ({[ "q"%string := VStr "hi {{name}}!" ]} : gmap string pyval) /\
    m' !! "q"%string = Some (VStr "hi bob!") /\
    _replace_placeholders (VList [VStr "plain"; VInt 3])
                          [("name"%string, "bob"%string)]
    = VList [VStr "plain"; VInt 3].
Proof.
  destruct (proj1 (replace_placeholders_shape (body rows_config)
                     [("name"%string, "bob"%string)])
              {[ "q"%string := VStr "hi {{name}}!" ]} eq_refl)
    as (m' & Hm & Hdom & Hk).
  exists m'. split; [exact Hm|]. split; [exact Hdom|].
  split; [rewrite Hk; vm_compute; reflexivity|].
  vm_compute. reflexivity.
Defined.

(** ** Order of the percentiles *)

Lemma Qle_transitive : Relations_1.Transitive Qle.
Proof. intros x y z. apply Qle_trans. Qed.

Lemma sorted_lookup_le (l : list Q) :
  Sorted Qle l ->
  forall i j x y,
    (i <= j)%nat -> l !! i = Some x -> l !! j = Some y -> (x <= y)%Q.
Proof.
  intros Hs. apply Sorted_StronglySorted in Hs; [|exact Qle_transitive].
  induction Hs as [|a l Hs IH Hall]; intros i j x y Hij Hi Hj; [discriminate|].
  destruct i as [|i], j as [|j]; simpl in *; try lia.
  - injection Hi as <-. injection Hj as <-. apply Qle_refl.
  - injection Hi as <-. rewrite List.Forall_forall in Hall.
    apply Hall. apply list_elem_of_In. eapply list_elem_of_lookup_2, Hj.
  - apply (IH i j); [lia|assumption|assumption].
Qed.

Lemma percentile_at_defined (xs : list Q) (k : positive) :
  xs <> [] -> (k < 100)%positive ->
  exists v,
    percentile_at (py_sorted xs) (Zpos k # 100) = Some v /\
    py_sorted xs !! Z.to_nat (Z.of_nat (length xs) * Zpos k / 100) = Some v /\
    In v xs.
Proof.
  intros Hne Hk.
  assert (Hn : (0 < length xs)%nat) by (destruct xs; [contradiction|simpl; lia]).
  assert (H0 : 0 <= Z.of_nat (length xs) * Z.pos k / 100)
    by (apply Z.div_pos; lia).
  assert (H1 : Z.of_nat (length xs) * Z.pos k / 100 < Z.of_nat (length xs))
    by (apply Z.div_lt_upper_bound; [lia|nia]).
  destruct (lookup_lt_is_Some_2 (py_sorted xs)
              (Z.to_nat (Z.of_nat (length xs) * Z.pos k / 100))) as [v Hv].
  { rewrite py_sorted_length. lia. }
  exists v. split; [|split; [exact Hv|]].
  - unfold percentile_at.
    rewrite py_sorted_length, pct_index_div, py_list_get_nonneg by assumption.
    exact Hv.
  - apply (Permutation_in v (Permutation_sym (py_sorted_perm xs))).
    apply list_elem_of_In. eapply list_elem_of_lookup_2, Hv.
Qed.

(** X4: on a non-empty sample the four percentiles of the report are
    defined (no index is out of range), each is a value of the sample,
    and they are ordered: P50 <= P90 <= P95 <= P99. *)
Theorem percentiles_ordered (xs : list Q) :
  xs <> [] ->
  exists p50 p90 p95 p99,
    percentile_at (py_sorted xs) f50 = Some p50 /\
    percentile_at (py_sorted xs) f90 = Some p90 /\
    percentile_at (py_sorted xs) f95 = Some p95 /\
    percentile_at (py_sorted xs) f99 = Some p99 /\
    In p50 xs /\ In p90 xs /\ In p95 xs /\ In p99 xs /\
    (p50 <= p90)%Q /\ (p90 <= p95)%Q /\ (p95 <= p99)%Q.
Proof.
  intros Hne.
  destruct (percentile_at_defined xs 50 Hne) as (p50 & E50 & L50 & I50); [lia|].
  destruct (percentile_at_defined xs 90 Hne) as (p90 & E90 & L90 & I90); [lia|].
  destruct (percentile_at_defined xs 95 Hne) as (p95 & E95 & L95 & I95); [lia|].
  destruct (percentile_at_defined xs 99 Hne) as (p99 & E99 & L99 & I99); [lia|].
  exists p50, p90, p95, p99.
  repeat (split; [assumption|]).
  pose proof (py_sorted_sorted xs) as Hs.
  assert (Hmono : forall a c : positive,
             (a <= c)%positive ->
             (Z.to_nat (Z.of_nat (length xs) * Z.pos a / 100)
              <= Z.to_nat (Z.of_nat (length xs) * Z.pos c / 100))%nat).
  { intros a c Hac. apply Z2Nat.inj_le.
    - apply Z.div_pos; lia.
    - apply Z.div_pos; lia.
    - apply Z.div_le_mono; [lia|nia]. }
  split; [|split].
  - apply (sorted_lookup_le _ Hs _ _ _ _ (Hmono 50 90 ltac:(lia)) L50 L90)%positive.
  - apply (sorted_lookup_le _ Hs _ _ _ _ (Hmono 90 95 ltac:(lia)) L90 L95)%positive.
  - apply (sorted_lookup_le _ Hs _ _ _ _ (Hmono 95 99 ltac:(lia)) L95 L99)%positive.
Qed.

Lemma percentiles_ordered_witness :
  map inject_Z [3; 1; 2] <> [] /\
  exists p50 p99,
    percentile_at (py_sorted (map inject_Z [3; 1; 2])) f50 = Some p50 /\
    percentile_at (py_sorted (map inject_Z [3; 1; 2])) f99 = Some p99 /\
    In p50 (map inject_Z [3; 1; 2]).
Proof.
  assert (H : map inject_Z [3; 1; 2] <> []) by (simpl; discriminate).
  split; [exact H|].
  destruct (percentiles_ordered (map inject_Z [3; 1; 2]) H)
    as (p50 & p90 & p95 & p99 & E50 & _ & _ & E99 & I50 & _).
  exists p50, p99. split; [exact E50|]. split; [exact E99|exact I50].
Defined.

(** ** The summary of the report *)

Lemma py_div_None (a d : Q) : py_div a d = None <-> (d == 0)%Q.
Proof.
  unfold py_div. destruct (Qeq_bool d 0) eqn:E.
  - apply Qeq_bool_iff in E. tauto.
  - split; [discriminate|]. intros H. apply Qeq_bool_iff in H. congruence.
Qed.

Lemma inject_Z_zero (z : Z) : (inject_Z z == 0)%Q <-> z = 0.
Proof. unfold Qeq, inject_Z. simpl. lia. Qed.

Lemma successful_failed_length (metrics : list RequestMetrics) :
  (length (successful metrics) + length (failed metrics))%nat = length metrics.
Proof.
  unfold successful, failed.
  induction metrics as [|m metrics IH]; [reflexivity|].
  simpl. destruct (error m); simpl; lia.
Qed.

(** X5: the overall statistics of the report divide by
    [total_requests] and by the elapsed time, so [print_report] raises
    [ZeroDivisionError] exactly when [total_requests] is 0 or no time
    has elapsed - in particular for a run of zero requests; otherwise
    the successes and the failures it counts add up to the number of
    metrics. *)
Theorem overall_statistics_division (metrics : list RequestMetrics)
        (total_requests : Z) (total_elapsed : Q) :
  (overall_statistics metrics total_requests total_elapsed = None
   <-> total_requests = 0 \/ (total_elapsed == 0)%Q) /\
  overall_statistics metrics 0 total_elapsed = None /\
  (forall o,
      overall_statistics metrics total_requests total_elapsed = Some o ->
      (n_successful o + n_failed o)%nat = length metrics /\
      n_successful o = length (successful metrics) /\
      n_failed o = length (failed metrics) /\
      (throughput o == inject_Z total_requests / total_elapsed)%Q).
Proof.
  assert (H0 : forall a, py_div a (inject_Z 0) = None) by reflexivity.
  split; [|split].
  - unfold overall_statistics.
    destruct (py_div _ (inject_Z total_requests)) as [r1|] eqn:E1.
    + assert (Hn : total_requests <> 0).
      { intros ->. rewrite H0 in E1. discriminate. }
      destruct (py_div (inject_Z (Z.of_nat (length (failed metrics)))) _)
        as [r2|] eqn:E2.
      * destruct (py_div (inject_Z total_requests) total_elapsed)
          as [r3|] eqn:E3.
        -- split; [discriminate|]. intros [H|H]; [contradiction|].
           apply (py_div_None (inject_Z total_requests)) in H. congruence.
        -- split; [|reflexivity]. intros _. right.
           now apply (py_div_None (inject_Z total_requests)).
      * apply (proj1 (py_div_None _ _)) in E2.
        apply (proj1 (inject_Z_zero _)) in E2. contradiction.
    + apply (proj1 (py_div_None _ _)) in E1.
      apply (proj1 (inject_Z_zero _)) in E1.
      split; [intros _|reflexivity].
      now left.
  - unfold overall_statistics. now rewrite H0.
  - intros o. unfold overall_statistics.
    destruct (py_div _ (inject_Z total_requests)) as [r1|]; [|discriminate].
    destruct (py_div _ (inject_Z total_requests)) as [r2|]; [|discriminate].
    destruct (py_div (inject_Z total_requests) total_elapsed)
      as [r3|] eqn:E3; [|discriminate].
    intros [= <-]. simpl.
    split; [apply successful_failed_length|].
    split; [reflexivity|]. split; [reflexivity|].
    unfold py_div in E3. destruct (Qeq_bool total_elapsed 0); [discriminate|].
    injection E3 as <-. reflexivity.
Qed.

Lemma overall_statistics_division_witness :
  overall_statistics [sample_metric] 1 2 <> None /\
  exists o, overall_statistics [sample_metric] 1 2 = Some o /\
            (n_successful o + n_failed o)%nat = 1%nat.
Proof.
  destruct (overall_statistics [sample_metric] 1 2) as [o|] eqn:E;
    [|vm_compute in E; discriminate E].
  split; [discriminate|].
  exists o. split; [reflexivity|].
  exact (proj1 (proj2 (proj2 (overall_statistics_division [sample_metric] 1 2))
                  o E)).
Defined.

(** The number of metrics that carry the error [e]. *)
Definition count_error (e : string) (metrics : list RequestMetrics) : Z :=
  Z.of_nat (length (List.filter
                      (fun m => bool_decide (error m = Some e)) metrics)).

Definition count_step (counts : gmap string Z) (m : RequestMetrics)
  : gmap string Z :=
  match error m with
  | Some e => <[ e := default 0 (counts !! e) + 1 ]> counts
  | None => counts
  end.

Lemma count_fold (l : list RequestMetrics) (e : string) :
  forall counts,
    default 0 (fold_left count_step l counts !! e)
    = default 0 (counts !! e) + count_error e l.
Proof.
  unfold count_error.
  induction l as [|m l IH]; intros counts; simpl; [lia|].
  rewrite IH. unfold count_step.
  destruct (error m) as [e'|] eqn:E.
  - destruct (decide (e' = e)) as [->|Hne].
    + rewrite lookup_insert_eq, bool_decide_eq_true_2 by reflexivity.
      simpl. lia.
    + rewrite lookup_insert_ne by assumption.
      rewrite bool_decide_eq_false_2 by congruence. lia.
  - rewrite bool_decide_eq_false_2 by congruence. lia.
Qed.

Lemma count_fold_present (l : list RequestMetrics) (e : string) :
  forall counts,
    is_Some (fold_left count_step l counts !! e)
    <-> is_Some (counts !! e) \/ exists m, In m l /\ error m = Some e.
Proof.
  induction l as [|m l IH]; intros counts; simpl.
  - split; [now left|]. intros [H|(m & [] & _)]. exact H.
  - rewrite IH. unfold count_step.
    destruct (error m) as [e'|] eqn:E.
    + destruct (decide (e' = e)) as [->|Hne].
      * rewrite lookup_insert_eq. split.
        -- intros _. right. exists m. split; [now left|exact E].
        -- intros _. left. eexists. reflexivity.
      * rewrite lookup_insert_ne by assumption. split.
        -- intros [H|(m' & Hin & Hm')]; [now left|].
           right. exists m'. split; [now right|exact Hm'].
        -- intros [H|(m' & [<-|Hin] & Hm')]; [now left|congruence|].
           right. exists m'. split; assumption.
    + split.
      * intros [H|(m' & Hin & Hm')]; [now left|].
        right. exists m'. split; [now right|exact Hm'].
      * intros [H|(m' & [<-|Hin] & Hm')]; [now left|congruence|].
        right. exists m'. split; assumption.
Qed.

Lemma count_error_failed (e : string) (metrics : list RequestMetrics) :
  count_error e (failed metrics) = count_error e metrics.
Proof.
  unfold count_error, failed. f_equal. f_equal.
  induction metrics as [|m metrics IH]; [reflexivity|].
  simpl. destruct (error m) eqn:E; simpl; rewrite IH, ?E; reflexivity.
Qed.

(** X6: the failure details group the failed requests by error text:
    an error text is listed exactly when some metric carries it, and its
    count is the number of metrics that carry it; the counts are
    positive. *)
Theorem error_counts_exact (metrics : list RequestMetrics) (e : string) :
  default 0 (error_counts metrics !! e) = count_error e metrics /\
  (is_Some (error_counts metrics !! e)
   <-> exists m, In m metrics /\ error m = Some e) /\
  (forall n, error_counts metrics !! e = Some n ->
             0 < n /\ n = count_error e metrics).
Proof.
  assert (H1 : default 0 (error_counts metrics !! e) = count_error e metrics).
  { unfold error_counts.
    change (fun counts m => match error m with
                            | Some e0 => <[e0:=default 0 (counts !! e0) + 1]> counts
                            | None => counts
                            end) with count_step.
    rewrite count_fold, lookup_empty, count_error_failed. simpl. lia. }
  assert (H2 : is_Some (error_counts metrics !! e)
               <-> exists m, In m metrics /\ error m = Some e).
  { unfold error_counts.
    change (fun counts m => match error m with
                            | Some e0 => <[e0:=default 0 (counts !! e0) + 1]> counts
                            | None => counts
                            end) with count_step.
    rewrite count_fold_present, lookup_empty. split.
    - intros [[x Hx]|(m & Hin & Hm)]; [discriminate|].
      exists m. split; [|exact Hm].
      unfold failed in Hin. apply filter_In in Hin. tauto.
    - intros (m & Hin & Hm). right. exists m. split; [|exact Hm].
      unfold failed. apply filter_In. split; [exact Hin|]. now rewrite Hm. }
  split; [exact H1|]. split; [exact H2|].
  intros n Hn. rewrite Hn in H1. simpl in H1. split; [|exact H1].
  rewrite H1.
  destruct (proj1 H2 (ex_intro _ n Hn)) as (m & Hin & Hm).
  unfold count_error.
  assert (Hf : In m (List.filter (fun m0 => bool_decide (error m0 = Some e))
                                 metrics)).
  { apply filter_In. split; [exact Hin|]. now apply bool_decide_eq_true_2. }
  destruct (List.filter _ metrics); [contradiction|simpl; lia].
Qed.

Definition failed_metric (e : string) : RequestMetrics :=
  set_error e sample_metric.

Lemma error_counts_exact_witness :
  error_counts [failed_metric "boom"; sample_metric; failed_metric "boom"]
    !! "boom"%string = Some 2 /\
  count_error "boom"
    [failed_metric "boom"; sample_metric; failed_metric "boom"] = 2 /\
  error_counts [failed_metric "boom"; sample_metric; failed_metric "boom"]
    !! "other"%string = None.
Proof.
  assert (H : error_counts
                [failed_metric "boom"; sample_metric; failed_metric "boom"]
                !! "boom"%string = Some 2) by (vm_compute; reflexivity).
  split; [exact H|]. split; [|vm_compute; reflexivity].
  destruct (error_counts_exact
              [failed_metric "boom"; sample_metric; failed_metric "boom"]
              "boom") as (_ & _ & Hn).
  symmetry. exact (proj2 (Hn 2 H)).
Defined.

(** ** The SSE parser *)

Definition sse_keys : list string :=
  ["event"; "data"; "data_json"; "id"; "retry"]%string.

Lemma singleton_not_empty (k : string) (v : pyval) :
  bool_decide (({[ k := v ]} : gmap string pyval) = ∅) = false.
Proof. apply bool_decide_eq_false_2, insert_non_empty. Qed.

Lemma insert_not_empty_b (k : string) (v : pyval) (m : gmap string pyval) :
  bool_decide (<[ k := v ]> m = ∅) = false.
Proof. apply bool_decide_eq_false_2, insert_non_empty. Qed.

(** X7: [parse_sse_line] ignores a line exactly when, decoded and
    stripped, it starts with none of [event:], [data:], [id:] and
    [retry:] (blank lines, comments and unknown fields); otherwise it
    returns a non-empty mapping with keys among the five SSE keys, in
    which [data_json] only comes with [data] and is the JSON value of
    that text. *)
Theorem parse_sse_line_fields (rt : PyRuntime) (line : bytes) :
  (parse_sse_line rt line = None <->
   startswith "event:" (strip (utf8_decode_ignore rt line)) = false /\
   startswith "data:" (strip (utf8_decode_ignore rt line)) = false /\
   startswith "id:" (strip (utf8_decode_ignore rt line)) = false /\
   startswith "retry:" (strip (utf8_decode_ignore rt line)) = false) /\
  (forall d,
      parse_sse_line rt line = Some d ->
      d <> ∅ /\
      (forall k, is_Some (d !! k) -> In k sse_keys) /\
      (forall j, d !! "data_json"%string = Some j ->
                 exists t, d !! "data"%string = Some (VStr t) /\
                           json_loads rt t = Some j) /\
      (forall k v, k <> "data_json"%string -> d !! k = Some v ->
                   exists t, v = VStr t)).
Proof.
  unfold parse_sse_line.
  set (s := strip (utf8_decode_ignore rt line)).
  destruct (String.eqb s "") eqn:Es.
  { apply String.eqb_eq in Es. rewrite Es.
    split; [split; [intros _; repeat split; reflexivity|reflexivity]|].
    intros d. discriminate. }
  destruct (startswith "event:" s) eqn:E1.
  { rewrite singleton_not_empty.
    split; [split; [discriminate|intros [H _]; discriminate]|].
    intros d [= <-]. split; [apply insert_non_empty|].
    split; [|split].
    - intros k [v Hk]. apply lookup_singleton_Some in Hk as [<- _].
      simpl. tauto.
    - intros j Hj. apply lookup_singleton_Some in Hj as [Hj _]. discriminate.
    - intros k v _ Hk. apply lookup_singleton_Some in Hk as [_ <-].
      eexists. reflexivity. }
  destruct (startswith "data:" s) eqn:E2.
  { destruct (json_loads rt (strip (str_drop 5 s))) as [j0|] eqn:Ej.
    - rewrite insert_not_empty_b.
      split; [split; [discriminate|intros (_ & H & _); discriminate]|].
      intros d [= <-]. split; [apply insert_non_empty|].
      split; [|split].
      + intros k [v Hk]. apply lookup_insert_Some in Hk as [[<- _]|[_ Hk]].
        * simpl. tauto.
        * apply lookup_singleton_Some in Hk as [<- _]. simpl. tauto.
      + intros j Hj. rewrite lookup_insert_eq in Hj. injection Hj as <-.
        exists (strip (str_drop 5 s)). split; [|exact Ej].
        rewrite lookup_insert_ne by discriminate.
        apply lookup_singleton_eq.
      + intros k v Hne Hk. rewrite lookup_insert_ne in Hk by congruence.
        apply lookup_singleton_Some in Hk as [_ <-]. eexists. reflexivity.
    - rewrite singleton_not_empty.
      split; [split; [discriminate|intros (_ & H & _); discriminate]|].
      intros d [= <-]. split; [apply insert_non_empty|].
      split; [|split].
      + intros k [v Hk]. apply lookup_singleton_Some in Hk as [<- _].
        simpl. tauto.
      + intros j Hj. apply lookup_singleton_Some in Hj as [Hj _]. discriminate.
      + intros k v _ Hk. apply lookup_singleton_Some in Hk as [_ <-].
        eexists. reflexivity. }
  destruct (startswith "id:" s) eqn:E3.
  { rewrite singleton_not_empty.
    split; [split; [discriminate|intros (_ & _ & H & _); discriminate]|].
    intros d [= <-]. split; [apply insert_non_empty|].
    split; [|split].
    - intros k [v Hk]. apply lookup_singleton_Some in Hk as [<- _].
      simpl. tauto.
    - intros j Hj. apply lookup_singleton_Some in Hj as [Hj _]. discriminate.
    - intros k v _ Hk. apply lookup_singleton_Some in Hk as [_ <-].
      eexists. reflexivity. }
  destruct (startswith "retry:" s) eqn:E4.
  { rewrite singleton_not_empty.
    split; [split; [discriminate|intros (_ & _ & _ & H); discriminate]|].
    intros d [= <-]. split; [apply insert_non_empty|].
    split; [|split].
    - intros k [v Hk]. apply lookup_singleton_Some in Hk as [<- _].
      simpl. tauto.
    - intros j Hj. apply lookup_singleton_Some in Hj as [Hj _]. discriminate.
    - intros k v _ Hk. apply lookup_singleton_Some in Hk as [_ <-].
      eexists. reflexivity. }
  rewrite bool_decide_eq_true_2 by reflexivity.
  split; [split; [intros _; repeat split; reflexivity|reflexivity]|].
  intros d. discriminate.
Qed.

Lemma parse_sse_line_fields_witness :
  exists d,
    parse_sse_line ascii_runtime (b "  data: x ") = Some d /\
    d <> ∅ /\ d !! "data"%string = Some (VStr "x") /\
    parse_sse_line ascii_runtime (b ": keep-alive") = None.
Proof.
  destruct (parse_sse_line ascii_runtime (b "  data: x ")) as [d|] eqn:E;
    [|vm_compute in E; discriminate E].
  exists d. split; [reflexivity|].
  split; [exact (proj1 (proj2 (parse_sse_line_fields ascii_runtime
                                  (b "  data: x ")) d E))|].
  split; [|vm_compute; reflexivity].
  vm_compute in E. injection E as <-. vm_compute. reflexivity.
Defined.

Lemma split_lines_nonempty (block : bytes) : split_lines block <> [].
Proof.
  induction block as [|x block IH]; simpl; [discriminate|].
  destruct x; try discriminate;
    destruct (split_lines block); try contradiction; discriminate.
Qed.

Lemma split_lines_app (block rest : bytes) :
  split_lines (block ++ x0a :: rest) = split_lines block ++ split_lines rest.
Proof.
  induction block as [|x block IH]; [reflexivity|].
  cbn [app split_lines]. rewrite IH.
  pose proof (split_lines_nonempty block) as Hne.
  destruct x; try reflexivity;
    destruct (split_lines block); try contradiction; reflexivity.
Qed.

Lemma split_lines_single (line : bytes) :
  ~ In x0a line -> split_lines line = [line].
Proof.
  induction line as [|x line IH]; intros H; [reflexivity|].
  cbn [split_lines]. rewrite IH by (intros Hin; apply H; now right).
  destruct x; try reflexivity. exfalso. apply H. now left.
Qed.

(** What one line does to the event under construction. *)
Definition line_update (rt : PyRuntime) (ev : pydict) (line : bytes) : pydict :=
  if bytes_blank line then ev
  else match parse_sse_line rt line with
       | Some parsed => parsed ∪ ev
       | None => ev
       end.

(** X8: within a block the last line wins.  Adding a line to a block
    updates the event by the fields of that line: a field the line sets
    replaces the earlier value, every other field keeps it - so a
    [data:] line whose text is not JSON replaces [data] and leaves the
    [data_json] of an earlier [data:] line in place. *)
Theorem parse_lines_last_wins (rt : PyRuntime) (ev : pydict)
        (block line : bytes) :
  ~ In x0a line ->
  parse_lines rt ev (block ++ x0a :: line)
  = line_update rt (parse_lines rt ev block) line /\
  (forall parsed,
      bytes_blank line = false ->
      parse_sse_line rt line = Some parsed ->
      forall k,
        parse_lines rt ev (block ++ x0a :: line) !! k
        = match parsed !! k with
          | Some v => Some v
          | None => parse_lines rt ev block !! k
          end) /\
  (bytes_blank line = true \/ parse_sse_line rt line = None ->
   parse_lines rt ev (block ++ x0a :: line) = parse_lines rt ev block).
Proof.
  intros Hline.
  assert (H : parse_lines rt ev (block ++ x0a :: line)
              = line_update rt (parse_lines rt ev block) line).
  { unfold parse_lines.
    rewrite split_lines_app, (split_lines_single line Hline), fold_left_app.
    reflexivity. }
  split; [exact H|]. split.
  - intros parsed Hb Hp k. rewrite H. unfold line_update. rewrite Hb, Hp.
    rewrite lookup_union. destruct (parsed !! k) as [v|].
    + now destruct (parse_lines rt ev block !! k).
    + now destruct (parse_lines rt ev block !! k).
  - intros [Hb|Hp]; rewrite H; unfold line_update.
    + now rewrite Hb.
    + rewrite Hp. now destruct (bytes_blank line).
Qed.

Lemma parse_lines_last_wins_witness :
  ~ In x0a (b "event: second") /\
  parse_lines ascii_runtime ∅ (b "event: first" ++ x0a :: b "event: second")
    !! "event"%string = Some (VStr "second").
Proof.
  assert (H : ~ In x0a (b "event: second")).
  { vm_compute. intros Hin.
    repeat (destruct Hin as [Hin|Hin]; [discriminate Hin|]). exact Hin. }
  split; [exact H|].
  rewrite (proj1 (parse_lines_last_wins ascii_runtime ∅ (b "event: first")
                    (b "event: second") H)).
  vm_compute. reflexivity.
Defined.

Lemma stream_block_acc (rt : PyRuntime) (events : list pydict) (blk : bytes) :
  stream_block rt events blk = events ++ stream_block rt [] blk.
Proof.
  unfold stream_block. destruct (bool_decide _); [now rewrite app_nil_r|].
  reflexivity.
Qed.

Lemma drain_stream_acc (rt : PyRuntime) (fuel : nat) :
  forall events buffer,
    drain (stream_block rt) fuel events buffer
    = (events ++ fst (drain (stream_block rt) fuel [] buffer),
       snd (drain (stream_block rt) fuel [] buffer)).
Proof.
  induction fuel as [|fuel IH]; intros events buffer; cbn [drain].
  - simpl. now rewrite app_nil_r.
  - destruct (split_nn buffer) as [[blk rest]|];
      [|simpl; now rewrite app_nil_r].
    rewrite (IH (stream_block rt events blk)),
      (IH (stream_block rt [] blk)).
    cbn [fst snd]. rewrite (stream_block_acc rt events blk).
    now rewrite app_assoc.
Qed.

Lemma stream_block_nonempty (rt : PyRuntime) (events : list pydict)
      (blk : bytes) :
  Forall (fun ev => ev <> ∅) events ->
  Forall (fun ev => ev <> ∅) (stream_block rt events blk).
Proof.
  intros H. unfold stream_block.
  destruct (bool_decide _) eqn:E; [exact H|].
  apply Forall_app. split; [exact H|].
  constructor; [|constructor]. now apply bool_decide_eq_false in E.
Qed.

(** X9: [parse_sse_stream] never records an empty event, ignores empty
    chunks, and decodes a stream block by block: if the bytes contain a
    separator, the events are those of the first block followed by the
    events of the bytes after the separator; if they contain none, the
    only possible event is the one parsed from the whole remainder. *)
Theorem parse_sse_stream_blocks (rt : PyRuntime) (stream : list bytes) :
  Forall (fun ev => ev <> ∅) (parse_sse_stream rt stream) /\
  (forall stream',
      parse_sse_stream rt (stream ++ [] :: stream')
      = parse_sse_stream rt (stream ++ stream')) /\
  (forall blk rest,
      split_nn (concat stream) = Some (blk, rest) ->
      parse_sse_stream rt stream
      = stream_block rt [] blk ++ parse_sse_stream rt [rest]) /\
  (split_nn (concat stream) = None ->
   parse_sse_stream rt stream
   = match remainder_event rt (concat stream) with
     | Some ev => [ev]
     | None => []
     end).
Proof.
  split; [|split; [|split]].
  - unfold parse_sse_stream.
    pose proof (feed_all_inv (stream_block rt) (fun evs (_ : bytes) => evs)
                  (Forall (fun ev : pydict => ev <> ∅))
                  (stream_block_nonempty rt) (fun evs _ H => H) stream
                  ([], []) (List.Forall_nil _)) as Hinv.
    destruct (feed_all _ _ stream ([], [])) as [events buffer].
    simpl in Hinv. unfold remainder_event.
    destruct (bytes_blank buffer); [exact Hinv|].
    destruct (bool_decide _) eqn:E; [exact Hinv|].
    apply Forall_app. split; [exact Hinv|].
    constructor; [|constructor]. now apply bool_decide_eq_false in E.
  - intros stream'. rewrite !parse_sse_stream_concat. f_equal.
    rewrite !concat_app. reflexivity.
  - intros blk rest Hs. rewrite !parse_sse_stream_concat.
    unfold decode_bytes. cbn [concat]. rewrite app_nil_r.
    pose proof (split_nn_length _ _ _ Hs) as Hl.
    destruct (length (concat stream)) as [|n] eqn:En; [lia|].
    cbn [drain]. rewrite Hs.
    rewrite (drain_fuel (stream_block rt) n) by lia.
    rewrite drain_stream_acc.
    destruct (drain (stream_block rt) (length rest) [] rest) as [evs buffer].
    cbn [fst snd].
    destruct (remainder_event rt buffer); [now rewrite app_assoc|reflexivity].
  - intros Hs. rewrite parse_sse_stream_concat. unfold decode_bytes.
    rewrite drain_no_separator by exact Hs. reflexivity.
Qed.

Lemma parse_sse_stream_blocks_witness :
  split_nn (concat [sample_body])
  = Some (b ("event: a" +:+ LF +:+ "data: x"),
          b ("id: 7" +:+ LF +:+ LF +:+ "retry: 5")) /\
  parse_sse_stream ascii_runtime [sample_body]
  = stream_block ascii_runtime [] (b ("event: a" +:+ LF +:+ "data: x"))
    ++ parse_sse_stream ascii_runtime
         [b ("id: 7" +:+ LF +:+ LF +:+ "retry: 5")].
Proof.
  assert (H : split_nn (concat [sample_body])
              = Some (b ("event: a" +:+ LF +:+ "data: x"),
                      b ("id: 7" +:+ LF +:+ LF +:+ "retry: 5")))
    by (vm_compute; reflexivity).
  split; [exact H|].
  exact (proj1 (proj2 (proj2 (parse_sse_stream_blocks ascii_runtime
                                [sample_body]))) _ _ H).
Defined.

(** ** What [make_request] leaves alone *)

(** A computation keeps a property of the metric. *)
Definition keeps {A} (P : RequestMetrics -> Prop) (c : M A) : Prop :=
  forall st, P (metric st) -> P (metric (snd (c st))).

Section Keeps.
Context (P : RequestMetrics -> Prop).

Lemma keeps_ret {A} (a : A) : keeps P (ret a).
Proof. intros st H. exact H. Qed.

Lemma keeps_raise {A} (e : exn) : keeps P (raise (A := A) e).
Proof. intros st H. exact H. Qed.

Lemma keeps_bind {A B} (c : M A) (k : A -> M B) :
  keeps P c -> (forall a, keeps P (k a)) -> keeps P (bind c k).
Proof.
  intros Hc Hk st H. unfold bind. specialize (Hc st H).
  destruct (c st) as [[a|e] st']; [apply Hk|]; exact Hc.
Qed.

Lemma keeps_tick (clock : nat -> Q) : keeps P (tick clock).
Proof. intros st H. exact H. Qed.

Lemma keeps_update (f : RequestMetrics -> RequestMetrics) :
  (forall m, P m -> P (f m)) -> keeps P (update f).
Proof. intros Hf st H. apply Hf, H. Qed.

Lemma keeps_get_metric {A} (k : RequestMetrics -> M A) :
  (forall m, keeps P (k m)) -> keeps P (bind get_metric k).
Proof. intros Hk st H. unfold bind, get_metric. apply Hk, H. Qed.

Lemma keeps_format_float (x : option Q) : keeps P (format_float x).
Proof. destruct x; [apply keeps_ret|apply keeps_raise]. Qed.

Lemma keeps_for_each {A B} (f : B -> A -> M B) (l : list A) :
  (forall acc x, keeps P (f acc x)) -> forall acc, keeps P (for_each f l acc).
Proof.
  intros Hf. induction l as [|x l IH]; intros acc; simpl.
  - apply keeps_ret.
  - apply keeps_bind; [apply Hf|apply IH].
Qed.
End Keeps.

Ltac keeps_step :=
  first
    [ apply keeps_ret | apply keeps_raise | apply keeps_tick
    | apply keeps_format_float
    | apply keeps_update; intros ? ?; assumption
    | apply keeps_get_metric; intros ?
    | apply keeps_bind; [|intros ?] ].

Ltac keeps_auto := repeat keeps_step.

(** Properties that no assignment of the streaming branches and of the
    handlers changes: they do not depend on the first-token time, the
    end time, the error, nor on the counters named in [bytes_free] and
    [tokens_free]. *)
Record frame (P : RequestMetrics -> Prop) : Prop := {
  frame_first_token : forall t m, P m -> P (set_first_token_time t m);
  frame_end : forall t m, P m -> P (set_end_time t m);
  frame_error : forall s m, P m -> P (set_error s m)
}.

Definition bytes_free (P : RequestMetrics -> Prop) : Prop :=
  forall n m, P m -> P (add_total_bytes n m).

Definition tokens_free (P : RequestMetrics -> Prop) : Prop :=
  (forall n m, P m -> P (set_total_tokens n m)) /\
  (forall evs m, P m -> P (set_events evs m)).

Section FrameFacts.
Context (rt : PyRuntime) (clock : nat -> Q) (config : RequestConfig).
Context (P : RequestMetrics -> Prop) (HP : frame P).

Lemma keeps_mark_first_token (loc : sse_locals) :
  keeps P (mark_first_token clock loc).
Proof.
  unfold mark_first_token.
  apply keeps_bind; [apply keeps_tick|intros t].
  apply keeps_bind;
    [apply keeps_update; intros m Hm; now apply frame_first_token|intros _].
  keeps_auto.
Qed.

Lemma keeps_handle_event (loc : sse_locals) (event_data : pydict) :
  keeps P (handle_event clock config loc event_data).
Proof.
  unfold handle_event.
  apply keeps_bind.
  - destruct (_ && _); keeps_auto.
  - intros loc2.
    destruct (first_token_found loc2); [keeps_auto|].
    destruct (str_truthy _).
    + destruct (pyval_is_str _ _);
        [apply keeps_mark_first_token|keeps_auto].
    + destruct (truthy _); [apply keeps_mark_first_token|keeps_auto].
Qed.

Lemma keeps_handler (e : exn) : keeps P (handler clock config e).
Proof.
  unfold handler.
  destruct (is_TimeoutError e); [|destruct e];
    (apply keeps_bind;
     [apply keeps_update; intros m Hm; now apply frame_error|intros _]);
    (apply keeps_bind; [apply keeps_tick|intros t]);
    try (apply keeps_bind;
         [apply keeps_update; intros m Hm; now apply frame_end|intros _]);
    try (apply keeps_update; intros m Hm; now apply frame_end);
    keeps_auto.
Qed.

Lemma keeps_first_token_fallback (loc : sse_locals) :
  keeps P (first_token_fallback clock loc).
Proof.
  unfold first_token_fallback.
  destruct (first_token_found loc); [keeps_auto|].
  destruct (float_truthy _).
  - destruct (first_event_time loc); [|keeps_auto].
    apply keeps_update. intros m Hm. now apply frame_first_token.
  - destruct (sse_events loc); [keeps_auto|].
    apply keeps_bind; [apply keeps_tick|intros t].
    apply keeps_update. intros m Hm. now apply frame_first_token.
Qed.

Lemma keeps_event_statistics (evs : list pydict) :
  keeps P (event_statistics evs).
Proof.
  unfold event_statistics. apply keeps_bind; [|intros _; keeps_auto].
  apply keeps_for_each. intros _ event.
  unfold hash_key. destruct (stat_event_type event); keeps_auto.
Qed.

Lemma keeps_sse_loop (stream : list bytes) (sb : sse_loop_state * bytes) :
  bytes_free P ->
  P (metric (snd (fst sb))) ->
  P (metric (snd (fst (feed_all (sse_block rt clock config) sse_chunk
                                stream sb)))).
Proof.
  intros Hb.
  apply (feed_all_inv (sse_block rt clock config) sse_chunk
                      (fun r => P (metric (snd r)))).
  - intros [[loc|e] st] blk H; unfold sse_block; [|exact H].
    destruct (bool_decide _); [exact H|].
    apply (keeps_handle_event loc _ st H).
  - intros [[loc|e] st] chunk H; unfold sse_chunk; [|exact H].
    apply Hb, H.
Qed.

Lemma keeps_sse_finish (loc : sse_locals) (buffer : bytes) :
  tokens_free P -> keeps P (sse_finish rt clock loc buffer).
Proof.
  intros [Ht He]. unfold sse_finish.
  apply keeps_bind; [apply keeps_first_token_fallback|intros _].
  apply keeps_bind; [apply keeps_update; intros m Hm; now apply He|intros _].
  apply keeps_bind; [apply keeps_tick|intros t].
  apply keeps_bind;
    [apply keeps_update; intros m Hm; now apply frame_end|intros _].
  apply keeps_bind; [apply keeps_update; intros m Hm; now apply Ht|intros _].
  apply keeps_event_statistics.
Qed.

Lemma keeps_sse_path (stream : stream_script) :
  bytes_free P -> tokens_free P -> keeps P (sse_path rt clock config stream).
Proof.
  intros Hb Ht st H. unfold sse_path.
  pose proof (keeps_sse_loop (chunks stream) ((Done sse_init, st), []) Hb H)
    as Hl.
  destruct (feed_all _ _ _ _) as [[[loc|e] st'] buffer]; simpl in Hl;
    [|exact Hl].
  destruct (stream_end stream); [exact Hl|].
  apply (keeps_sse_finish loc buffer Ht st' Hl).
Qed.

Lemma keeps_raw_chunk (loc : raw_locals) (chunk : bytes) :
  bytes_free P -> keeps P (raw_chunk clock loc chunk).
Proof.
  intros Hb. unfold raw_chunk. destruct chunk; [keeps_auto|].
  apply keeps_bind.
  - destruct (stream_started loc); [keeps_auto|].
    apply keeps_bind; [apply keeps_tick|intros t].
    apply keeps_bind;
      [apply keeps_update; intros m Hm; now apply frame_first_token|intros _].
    keeps_auto.
  - intros _. apply keeps_bind; [|intros _; keeps_auto].
    apply keeps_update. intros m Hm. now apply Hb.
Qed.

Lemma keeps_raw_path (stream : stream_script) :
  bytes_free P -> tokens_free P -> keeps P (raw_path clock stream).
Proof.
  intros Hb [Ht He]. unfold raw_path.
  apply keeps_bind.
  - apply keeps_for_each. intros loc chunk. now apply keeps_raw_chunk.
  - intros loc. destruct (stream_end stream); [keeps_auto|].
    apply keeps_bind; [apply keeps_update; intros m Hm; now apply Ht|intros _].
    apply keeps_bind; [apply keeps_tick|intros t].
    apply keeps_bind;
      [apply keeps_update; intros m Hm; now apply frame_end|intros _].
    keeps_auto.
Qed.
End FrameFacts.

(** The fields a request fixes before it reads the body. *)
Definition identified (rid : Z) (t0 : Q) (headers_time : option Q)
           (m : RequestMetrics) : Prop :=
  request_id m = rid /\ start_time m = t0 /\
  response_headers_time m = headers_time.

Lemma identified_frame rid t0 h : frame (identified rid t0 h).
Proof. split; intros; assumption. Qed.

Lemma identified_bytes_free rid t0 h : bytes_free (identified rid t0 h).
Proof. intros n m H. exact H. Qed.

Lemma identified_tokens_free rid t0 h : tokens_free (identified rid t0 h).
Proof. split; intros ? m H; exact H. Qed.

(** The time at which the headers of a response are recorded. *)
Definition headers_time_of (clock : nat -> Q) (net : net_script) : option Q :=
  match net with
  | Response status _ _ => if status =? 200 then Some (clock 1%nat) else None
  | RequestRaises _ => None
  end.

Lemma try_block_identified (rt : PyRuntime) (clock : nat -> Q)
      (config : RequestConfig) (net : net_script) (rid : Z) :
  identified rid (clock 0%nat) (headers_time_of clock net)
    (metric (snd (try_block rt clock config net rid
                            {| now := 1; metric := new_metric clock rid |}))).
Proof.
  unfold try_block.
  destruct (get_request_body_total config rid) as [p ->].
  destruct net as [e|status text stream]; [repeat split|].
  unfold headers_time_of.
  destruct (status =? 200) eqn:Es; cbn [negb].
  - unfold bind, tick, update. cbn [now metric].
    destruct (is_sse config).
    + apply (keeps_sse_path rt clock config _ (identified_frame _ _ _));
        [apply identified_bytes_free|apply identified_tokens_free|].
      repeat split.
    + apply (keeps_raw_path clock _ (identified_frame _ _ _));
        [apply identified_bytes_free|apply identified_tokens_free|].
      repeat split.
  - repeat split.
Qed.

(** X10: no exception escapes [make_request] when the clock never
    reads [0.0], whatever the network does; and every metric it returns
    carries the identifier of the request, the first clock reading as
    [start_time], and a [response_headers_time] exactly when a response
    with status 200 arrived (the second clock reading). *)
Theorem make_request_identity (rt : PyRuntime) (clock : nat -> Q)
        (config : RequestConfig) (net : net_script) (rid : Z) :
  (clock_nonzero clock ->
   exists m, make_request rt clock config net rid = Returned m) /\
  (forall m,
      make_request rt clock config net rid = Returned m ->
      request_id m = rid /\ start_time m = clock 0%nat /\
      response_headers_time m = headers_time_of clock net).
Proof.
  split; [apply make_request_returns|].
  intros m. rewrite make_request_finish. unfold finish_request.
  pose proof (try_block_identified rt clock config net rid) as H.
  destruct (try_block _ _ _ _ _ _) as [[u|e] st]; simpl in H.
  - intros [= <-]. exact H.
  - pose proof (keeps_handler clock config _ (identified_frame _ _ _) e st H)
      as Hh.
    destruct (handler clock config e st) as [[u|e'] st']; [|discriminate].
    intros [= <-]. exact Hh.
Qed.

Lemma make_request_identity_witness :
  clock_nonzero sample_clock /\
  exists m,
    make_request ascii_runtime sample_clock raw_config two_chunks 7
    = Returned m /\
    request_id m = 7 /\
    response_headers_time m = Some (sample_clock 1).
Proof.
  split; [exact sample_clock_nonzero|].
  destruct (make_request_identity ascii_runtime sample_clock raw_config
                                  two_chunks 7) as [Hret Hid].
  destruct (Hret sample_clock_nonzero) as [m Hm].
  exists m. split; [exact Hm|].
  destruct (Hid m Hm) as (H1 & _ & H3). split; [exact H1|exact H3].
Defined.

(** X11: for a metric returned without error, with a clock that never
    reads [0.0] and never goes back, the total time is defined and not
    negative, and the time to first token, when there is one, lies
    between 0 and the total time; it is absent exactly when
    [first_token_time] is. *)
Theorem ttft_within_total_time (rt : PyRuntime) (clock : nat -> Q)
        (config : RequestConfig) (net : net_script) (rid : Z)
        (m : RequestMetrics) :
  clock_nonzero clock -> clock_monotone clock ->
  make_request rt clock config net rid = Returned m ->
  error m = None ->
  exists d,
    total_time m = Some d /\ (0 <= d)%Q /\
    (ttft m = None <-> first_token_time m = None) /\
    (forall x, ttft m = Some x -> (0 <= x)%Q /\ (x <= d)%Q).
Proof.
  intros Hnz Hmono Hm He.
  destruct (make_request_cases rt clock config net rid m Hm)
    as [[H _]|[_ (st & Hst & Hc)]]; [contradiction|].
  destruct Hc as (_ & Hs & (j & _ & Hend & Hf) & _).
  rewrite Hst in *.
  assert (Tj : float_truthy (Some (clock j)) = true)
    by (apply float_truthy_Some, Hnz).
  exists (clock j - start_time m)%Q.
  split; [unfold total_time; rewrite Hend, Tj; reflexivity|].
  assert (H0j : (clock 0%nat <= clock j)%Q) by (apply Hmono; lia).
  split; [rewrite Hs; unfold Qminus; rewrite <- Qle_minus_iff; exact H0j|].
  unfold ttft.
  destruct (first_token_time m) as [t|] eqn:Et; [|split; [tauto|discriminate]].
  destruct (Hf t eq_refl) as (k & Hk & ->).
  assert (Tk : float_truthy (Some (clock k)) = true)
    by (apply float_truthy_Some, Hnz).
  rewrite Tk. split; [split; discriminate|].
  intros x [= <-]. rewrite Hs.
  assert (H0k : (clock 0%nat <= clock k)%Q) by (apply Hmono; lia).
  assert (Hkj : (clock k <= clock j)%Q) by (apply Hmono; lia).
  split.
  - unfold Qminus. rewrite <- Qle_minus_iff. exact H0k.
  - unfold Qminus. apply Qplus_le_l. exact Hkj.
Qed.

Lemma ttft_within_total_time_witness :
  exists m d,
    make_request ascii_runtime sample_clock raw_config two_chunks 1
    = Returned m /\
    error m = None /\ total_time m = Some d /\ (0 <= d)%Q.
Proof.
  destruct (make_request ascii_runtime sample_clock raw_config two_chunks 1)
    as [m|e] eqn:E; [|vm_compute in E; discriminate E].
  assert (He : error m = None).
  { vm_compute in E. injection E as <-. reflexivity. }
  destruct (ttft_within_total_time ascii_runtime sample_clock raw_config
              two_chunks 1 m sample_clock_nonzero sample_clock_monotone E He)
    as (d & Hd & H0 & _).
  exists m, d. split; [reflexivity|]. split; [exact He|].
  split; [exact Hd|exact H0].
Defined.

(** ** What a request counts *)

(** The size of the body received, and its number of non-empty chunks. *)
Definition total_length (stream : list bytes) : Z :=
  foldr (fun chunk acc => Z.of_nat (length chunk) + acc) 0 stream.

Definition count_nonempty (stream : list bytes) : Z :=
  foldr (fun chunk acc => match chunk with [] => acc | _ => 1 + acc end)
        0 stream.

Lemma count_nonempty_cons (chunk : bytes) (stream : list bytes) :
  count_nonempty (chunk :: stream)
  = count_nonempty [chunk] + count_nonempty stream.
Proof. unfold count_nonempty. simpl. destruct chunk; lia. Qed.

Lemma total_length_cons (chunk : bytes) (stream : list bytes) :
  total_length (chunk :: stream)
  = Z.of_nat (length chunk) + total_length stream.
Proof. reflexivity. Qed.

(** A value that can be used as a dictionary key. *)
Definition hashable (v : pyval) : bool :=
  match v with
  | VList _ | VDict _ => false
  | _ => true
  end.

(** The error text each handler records. *)
Definition failure_text (config : RequestConfig) (e : exn) : string :=
  if is_TimeoutError e then "Timeout (>" +:+ pretty (timeout config) +:+ "s)"
  else match e with
       | ServerTimeoutError msg => "Server Timeout: " +:+ msg
       | ClientConnectorError msg =>
           if str_contains "timeout" (lower msg)
              || str_contains "timed out" (lower msg)
           then "Connection Timeout: " +:+ msg
           else "Connection Error: " +:+ msg
       | _ => exn_str e
       end.

(** The state in which the body of a 200 response is read. *)
Definition body_state (clock : nat -> Q) (rid : Z) : req_state :=
  {| now := 2;
     metric := set_response_headers_time (clock 1%nat) (new_metric clock rid) |}.

(** A loop that also adds up the sizes of the chunks. *)
Section Counting.
Context {S : Type} (f : S -> bytes -> S).

Definition block_counting (t : S * Z) (blk : bytes) : S * Z :=
  (f (fst t) blk, snd t).

Definition chunk_counting (t : S * Z) (chunk : bytes) : S * Z :=
  (fst t, snd t + Z.of_nat (length chunk)).

Lemma drain_counting (fuel : nat) :
  forall s z buffer,
    drain block_counting fuel (s, z) buffer
    = (fst (drain f fuel s buffer), z, snd (drain f fuel s buffer)).
Proof.
  induction fuel as [|fuel IH]; intros s z buffer; cbn [drain];
    [reflexivity|].
  destruct (split_nn buffer) as [[blk rest]|]; [|reflexivity].
  unfold block_counting at 2. cbn [fst snd]. apply IH.
Qed.

Lemma feed_all_counting_sizes (stream : list bytes) :
  forall s z buffer,
    feed_all block_counting chunk_counting stream ((s, z), buffer)
    = (fst (feed_all f (fun s0 _ => s0) stream (s, buffer)),
       z + total_length stream,
       snd (feed_all f (fun s0 _ => s0) stream (s, buffer))).
Proof.
  induction stream as [|chunk stream IH]; intros s z buffer.
  - simpl. now rewrite Z.add_0_r.
  - rewrite total_length_cons.
    change (feed_all block_counting chunk_counting (chunk :: stream)
                     (s, z, buffer))
      with (feed_all block_counting chunk_counting stream
                     (feed block_counting chunk_counting (s, z, buffer) chunk)).
    change (feed_all f (fun s0 (_ : bytes) => s0) (chunk :: stream) (s, buffer))
      with (feed_all f (fun s0 (_ : bytes) => s0) stream
                     (feed f (fun s0 (_ : bytes) => s0) (s, buffer) chunk)).
    destruct chunk as [|c0 chunk'].
    + cbn [feed]. rewrite IH. cbn [length Z.of_nat].
      rewrite Z.add_0_l. reflexivity.
    + unfold feed. cbn [fst snd].
      change (chunk_counting (s, z) (c0 :: chunk'))
        with (s, z + Z.of_nat (length (c0 :: chunk'))).
      rewrite drain_counting.
      destruct (drain f _ s _) as [s1 rest]. cbn [fst snd].
      rewrite IH. rewrite Z.add_assoc. reflexivity.
Qed.
End Counting.

Section Accounting.
Context (rt : PyRuntime) (clock : nat -> Q) (config : RequestConfig).
Hypothesis nonzero : clock_nonzero clock.

Lemma try_block_200 (text : text_script) (stream : stream_script) (rid : Z) :
  try_block rt clock config (Response 200 text stream) rid
            {| now := 1; metric := new_metric clock rid |}
  = (if is_sse config then sse_path rt clock config stream
     else raw_path clock stream) (body_state clock rid).
Proof.
  unfold try_block.
  destruct (get_request_body_total config rid) as [p ->]. reflexivity.
Qed.

Lemma handler_error (e : exn) (st : req_state) :
  error (metric (snd (handler clock config e st)))
  = Some (failure_text config e).
Proof.
  unfold handler, failure_text.
  destruct (is_TimeoutError e); [|destruct e];
    unfold bind, tick, update, get_metric, format_float;
    cbn [now metric fst snd];
    repeat match goal with
           | |- context [match total_time ?m with _ => _ end] =>
               destruct (total_time m)
           end;
    reflexivity.
Qed.

(** The raw loop: nothing raises, every non-empty chunk is counted. *)
Lemma raw_loop_run (stream : list bytes) :
  forall loc st,
  exists loc' st',
    for_each (raw_chunk clock) stream loc st = (Done loc', st') /\
    chunk_count loc' = chunk_count loc + count_nonempty stream /\
    total_bytes (metric st') = total_bytes (metric st) + total_length stream /\
    total_tokens (metric st') = total_tokens (metric st) /\
    events (metric st') = events (metric st) /\
    start_time (metric st') = start_time (metric st) /\
    (now st <= now st')%nat.
Proof.
  induction stream as [|chunk stream IH]; intros loc st.
  - exists loc, st. simpl. repeat split; lia.
  - cbn [for_each]. unfold bind.
    assert (Hc : exists loc1 st1,
               raw_chunk clock loc chunk st = (Done loc1, st1) /\
               chunk_count loc1
               = chunk_count loc + count_nonempty [chunk] /\
               total_bytes (metric st1)
               = total_bytes (metric st) + Z.of_nat (length chunk) /\
               total_tokens (metric st1) = total_tokens (metric st) /\
               events (metric st1) = events (metric st) /\
               start_time (metric st1) = start_time (metric st) /\
               (now st <= now st1)%nat).
    { unfold raw_chunk. destruct chunk as [|c0 chunk'].
      - exists loc, st. simpl. repeat split; lia.
      - destruct (stream_started loc).
        + eexists. eexists. split; [reflexivity|]. simpl. repeat split; lia.
        + unfold bind, tick, update, get_metric, format_float, ttft.
          cbn [now metric first_token_time set_first_token_time].
          rewrite (proj2 (float_truthy_Some (clock (now st))) (nonzero _)).
          eexists. eexists. split; [reflexivity|]. simpl.
          repeat split; lia. }
    destruct Hc as (loc1 & st1 & -> & H1 & H2 & H3 & H4 & H5 & H6).
    destruct (IH loc1 st1) as (loc' & st' & -> & K1 & K2 & K3 & K4 & K5 & K6).
    exists loc', st'. split; [reflexivity|].
    rewrite count_nonempty_cons, total_length_cons.
    repeat split; try congruence; lia.
Qed.

(** The SSE loop: nothing raises, the events are those of
    [parse_sse_stream]'s loop, every chunk is counted. *)
Definition sse_loop_run (tokens : Z) (evs0 : list pydict)
           (r : sse_loop_state) (t : list pydict * Z) : Prop :=
  exists loc st,
    r = (Done loc, st) /\ sse_events loc = fst t /\
    total_bytes (metric st) = snd t /\
    total_tokens (metric st) = tokens /\ events (metric st) = evs0.

Lemma sse_loop_sim (tokens : Z) (evs0 : list pydict) (stream : list bytes)
      (st : req_state) :
  total_tokens (metric st) = tokens -> events (metric st) = evs0 ->
  exists loc st' buffer,
    feed_all (sse_block rt clock config) sse_chunk stream
             ((Done sse_init, st), [])
    = ((Done loc, st'), buffer) /\
    feed_all (stream_block rt) (fun evs _ => evs) stream ([], [])
    = (sse_events loc, buffer) /\
    total_bytes (metric st') = total_bytes (metric st) + total_length stream /\
    total_tokens (metric st') = tokens /\ events (metric st') = evs0.
Proof.
  intros Ht He.
  destruct (feed_all_sim (sse_block rt clock config) sse_chunk
              (block_counting (stream_block rt)) chunk_counting
              (sse_loop_run tokens evs0)) with
      (stream := stream) (sb := ((Done sse_init, st), @nil byte))
      (tb := (([], total_bytes (metric st)) : list pydict * Z, @nil byte))
    as [(loc & st' & Hr & Hev & Hb & Htk & Hevs) Hbuf].
  - intros r t blk (loc & st0 & -> & Hev & Hb & Htk & Hevs).
    unfold sse_block, block_counting, stream_block. rewrite <- Hev.
    cbn [fst snd].
    destruct (bool_decide _).
    + exists loc, st0. repeat split; assumption.
    + destruct (handle_event_appends clock config nonzero loc
                  (parse_lines rt ∅ blk) st0) as (loc' & st1 & E & Hev').
      pose proof (keeps_handle_event clock config
                    (fun m => total_bytes m = snd t /\
                              total_tokens m = tokens /\ events m = evs0)
                    ltac:(split; intros; assumption) loc
                    (parse_lines rt ∅ blk) st0
                    (conj Hb (conj Htk Hevs))) as Hk.
      rewrite E in *. cbn [snd] in Hk.
      exists loc', st1. split; [reflexivity|]. split; [exact Hev'|exact Hk].
  - intros r t chunk (loc & st0 & -> & Hev & Hb & Htk & Hevs).
    eexists. eexists. split; [reflexivity|].
    unfold chunk_counting. simpl. repeat split; try assumption. lia.
  - exists sse_init, st. repeat split; assumption.
  - reflexivity.
  - rewrite feed_all_counting_sizes in Hev, Hb, Hbuf.
    destruct (feed_all (sse_block rt clock config) sse_chunk stream
                       (Done sse_init, st, [])) as [r buffer].
    destruct (feed_all (stream_block rt) (fun evs _ => evs) stream ([], []))
      as [evs buffer'].
    cbn [fst snd] in *. subst r evs buffer'.
    exists loc, st', buffer. repeat split; try assumption; reflexivity.
Qed.

Lemma hash_loop_result (evs : list pydict) (st : req_state) :
  fst (for_each (fun _ event => hash_key (stat_event_type event)) evs tt st)
  = Done tt
  <-> Forall (fun ev => hashable (stat_event_type ev) = true) evs.
Proof.
  induction evs as [|ev evs IH]; [split; [constructor|reflexivity]|].
  cbn [for_each]. unfold bind, hash_key.
  destruct (stat_event_type ev) eqn:E; unfold ret, raise;
    try (rewrite IH; split;
         [intros H; constructor; [now rewrite E|exact H]
         |intros H; now inversion H]);
    (split; [discriminate|intros H; inversion H as [|? ? Hh _]; subst;
                          rewrite E in Hh; discriminate]).
Qed.

Lemma event_statistics_result (evs : list pydict) (st : req_state) :
  total_time (metric st) <> None ->
  (fst (event_statistics evs st) = Done tt
   <-> Forall (fun ev => hashable (stat_event_type ev) = true) evs).
Proof.
  intros Ht. rewrite <- (hash_loop_result evs st).
  unfold event_statistics. unfold bind at 1.
  pose proof (hash_loop_state evs st) as Hs.
  destruct (for_each _ evs tt st) as [[[]|e] st']; simpl in Hs; subst st';
    [|split; intros H; exact H].
  unfold bind, get_metric, format_float. cbn [fst snd].
  destruct (total_time (metric st)); [split; reflexivity|contradiction].
Qed.

(** After the fallback, the end of the SSE branch is the statistics
    run on the metric completed with events, end time and count. *)
Lemma sse_finish_unfold (loc : sse_locals) (buffer : bytes)
      (st : req_state) :
  exists st1,
    sse_finish rt clock loc buffer st
    = event_statistics (sse_events (with_remainder rt loc buffer))
        {| now := S (now st1);
           metric :=
             set_total_tokens
               (Z.of_nat (length (sse_events (with_remainder rt loc buffer))))
               (set_end_time (clock (now st1))
                  (set_events (sse_events (with_remainder rt loc buffer))
                              (metric st1))) |}.
Proof.
  unfold sse_finish. unfold bind at 1.
  destruct (first_token_fallback_cases clock
              (with_remainder rt loc buffer) st) as [Hd _].
  destruct (first_token_fallback clock _ st) as [r st1].
  simpl in Hd. subst r. exists st1. reflexivity.
Qed.

(** The end of the SSE branch stores the events and their number, and
    fails only on an event type that cannot be a dictionary key. *)
Lemma sse_finish_outcome (loc : sse_locals) (buffer : bytes)
      (st : req_state) :
  total_tokens (metric (snd (sse_finish rt clock loc buffer st)))
  = Z.of_nat (length (sse_events (with_remainder rt loc buffer))) /\
  (fst (sse_finish rt clock loc buffer st) = Done tt
   <-> Forall (fun ev => hashable (stat_event_type ev) = true)
              (sse_events (with_remainder rt loc buffer))).
Proof.
  destruct (sse_finish_unfold loc buffer st) as [st1 ->].
  rewrite event_statistics_state. split; [reflexivity|].
  apply event_statistics_result.
  unfold total_time. cbn [metric end_time set_total_tokens set_end_time].
  rewrite (proj2 (float_truthy_Some (clock (now st1))) (nonzero _)).
  discriminate.
Qed.

(** The outcome of a 200 response read in SSE mode to its normal end. *)
Lemma sse_path_outcome (stream : list bytes) (st : req_state) :
  total_tokens (metric st) = 0 -> events (metric st) = [] ->
  exists r st',
    sse_path rt clock config (ends_normally stream) st = (r, st') /\
    events (metric st') = parse_sse_stream rt stream /\
    total_tokens (metric st') = Z.of_nat (length (parse_sse_stream rt stream)) /\
    total_bytes (metric st') = total_bytes (metric st) + total_length stream /\
    (r = Done tt
     <-> Forall (fun ev => hashable (stat_event_type ev) = true)
                (parse_sse_stream rt stream)).
Proof.
  intros Ht He.
  destruct (sse_loop_sim 0 [] stream st Ht He)
    as (loc & st1 & buffer & E1 & E2 & Hb & _ & _).
  unfold sse_path. cbn [chunks stream_end ends_normally]. rewrite E1.
  assert (Hp : parse_sse_stream rt stream
               = sse_events (with_remainder rt loc buffer)).
  { unfold parse_sse_stream. rewrite E2. unfold with_remainder.
    destruct (remainder_event rt buffer); reflexivity. }
  rewrite Hp.
  pose proof (sse_finish_events rt clock loc buffer st1) as Hev.
  destruct (sse_finish_outcome loc buffer st1) as [Htk Hres].
  pose proof (keeps_sse_finish rt clock
                (fun m => total_bytes m = total_bytes (metric st)
                                          + total_length stream)
                ltac:(split; intros; assumption) loc buffer
                ltac:(split; intros; assumption) st1 Hb) as Hbytes.
  destruct (sse_finish rt clock loc buffer st1) as [r st2].
  cbn [fst snd] in *.
  exists r, st2. split; [reflexivity|].
  split; [exact Hev|]. split; [exact Htk|]. split; [exact Hbytes|exact Hres].
Qed.
End Accounting.

(** The fields the handlers leave alone. *)
Definition counted_fields (tokens bytes_count : Z) (evs : list pydict)
           (m : RequestMetrics) : Prop :=
  total_tokens m = tokens /\ total_bytes m = bytes_count /\ events m = evs.

Lemma counted_fields_frame tokens n evs : frame (counted_fields tokens n evs).
Proof. split; intros; assumption. Qed.

(** What [make_request] returns once the [try] block has ended, with a
    clock that never reads [0.0]. *)
Lemma finish_request_outcome (clock : nat -> Q) (config : RequestConfig)
      (r : result unit) (st : req_state) (tokens n : Z) (evs : list pydict) :
  clock_nonzero clock ->
  counted_fields tokens n evs (metric st) ->
  exists m,
    finish_request clock config (r, st) = Returned m /\
    counted_fields tokens n evs m /\
    match r with
    | Done _ => m = metric st
    | Raised e => error m = Some (failure_text config e) /\
                  end_time m = Some (clock (now st))
    end.
Proof.
  intros Hnz Hc. unfold finish_request. destruct r as [u|e].
  - exists (metric st). repeat split; apply Hc.
  - pose proof (keeps_handler clock config _ (counted_fields_frame _ _ _)
                              e st Hc) as Hk.
    pose proof (handler_error clock config e st) as He.
    pose proof (handler_sets_end_time clock config e st) as [_ Hend].
    destruct (handler_done clock config e st Hnz) as [st' Hd].
    rewrite Hd in *. cbn [snd] in *.
    exists (metric st'). split; [reflexivity|].
    split; [exact Hk|]. split; [exact He|exact Hend].
Qed.





(** ** The raw branch: what is counted and when it succeeds *)

Lemma count_nonempty_nonneg (stream : list bytes) : 0 <= count_nonempty stream.
Proof.
  induction stream as [|chunk stream IH]; [reflexivity|].
  rewrite count_nonempty_cons. unfold count_nonempty at 1. simpl.
  destruct chunk; lia.
Qed.

(** The number of clock readings the raw loop takes, and the time it
    records for the first non-empty chunk. *)
Definition raw_loop_now (started : bool) (stream : list bytes) (n : nat) : nat :=
  if started || (count_nonempty stream =? 0) then n else S n.

Lemma raw_loop_clock (clock : nat -> Q) (stream : list bytes) :
  clock_nonzero clock ->
  forall loc st,
    now (snd (for_each (raw_chunk clock) stream loc st))
    = raw_loop_now (stream_started loc) stream (now st) /\
    first_token_time (metric (snd (for_each (raw_chunk clock) stream loc st)))
    = (if stream_started loc || (count_nonempty stream =? 0)
       then first_token_time (metric st)
       else Some (clock (now st))).
Proof.
  intros nonzero. unfold raw_loop_now.
  induction stream as [|chunk stream IH]; intros loc st.
  - simpl. rewrite orb_true_r. split; reflexivity.
  - cbn [for_each]. unfold bind.
    pose proof (count_nonempty_nonneg stream) as Hpos.
    rewrite count_nonempty_cons.
    destruct chunk as [|c0 chunk'].
    + change (raw_chunk clock loc [] st) with (Done loc, st).
      change (count_nonempty [[]]) with 0. rewrite Z.add_0_l. apply IH.
    + change (count_nonempty [c0 :: chunk']) with (1 + 0).
      replace (1 + 0 + count_nonempty stream =? 0) with false
        by (symmetry; apply Z.eqb_neq; lia).
      rewrite orb_false_r.
      set (F := for_each (raw_chunk clock) stream) in *.
      unfold raw_chunk. destruct (stream_started loc) eqn:Es.
      * unfold bind, ret, update. cbn [fst snd].
        match goal with
        | |- context [F ?l ?s] => destruct (IH l s) as [H1 H2]
        end.
        cbn [stream_started orb now metric] in H1, H2.
        rewrite H1, H2. split; reflexivity.
      * unfold bind, tick, update, get_metric, format_float, ttft, ret.
        cbn [now metric first_token_time set_first_token_time].
        rewrite (proj2 (float_truthy_Some (clock (now st))) (nonzero _)).
        cbn [now metric fst snd].
        match goal with
        | |- context [F ?l ?s] => destruct (IH l s) as [H1 H2]
        end.
        cbn [stream_started orb now metric] in H1, H2.
        rewrite H1, H2. split; reflexivity.
Qed.

Lemma handler_first_token (clock : nat -> Q) (config : RequestConfig)
      (e : exn) (st : req_state) :
  first_token_time (metric (snd (handler clock config e st)))
  = first_token_time (metric st).
Proof.
  unfold handler.
  destruct (is_TimeoutError e); [|destruct e];
    unfold bind, tick, update, get_metric, format_float;
    cbn [now metric fst snd];
    repeat match goal with
           | |- context [match total_time ?m with _ => _ end] =>
               destruct (total_time m)
           end;
    reflexivity.
Qed.

(** The clock reading taken as [end_time] in the raw branch: the third
    one, or the fourth when a non-empty chunk had its own reading. *)
Definition raw_end_index (stream : list bytes) : nat :=
  raw_loop_now false stream 2.

(** X14: in raw mode, for a 200 response read to its normal end (clock
    never reading [0.0]), [make_request] returns a metric whose
    [total_tokens] is the number of non-empty chunks and whose
    [total_bytes] is the size of the body, with no events; a first
    token time is recorded exactly when some chunk is non-empty.  The
    request is reported without error exactly when the end reading of
    the clock is later than the start reading: with equal readings
    [tokens_per_second] is [None] and the final progress line fails,
    so a complete response is reported as an error. *)
Theorem raw_outcome_counts (rt : PyRuntime) (clock : nat -> Q)
        (config : RequestConfig) (text : text_script) (stream : list bytes)
        (rid : Z) :
  clock_nonzero clock -> is_sse config = false ->
  exists m,
    make_request rt clock config (Response 200 text (ends_normally stream)) rid
    = Returned m /\
    total_tokens m = count_nonempty stream /\
    total_bytes m = total_length stream /\
    events m = [] /\
    (first_token_time m = None <-> count_nonempty stream = 0) /\
    (error m = None
     <-> (clock 0%nat < clock (raw_end_index stream))%Q).
Proof.
  intros Hnz Hraw.
  rewrite make_request_finish, try_block_200, Hraw.
  pose proof (try_block_done rt clock config
                (Response 200 text (ends_normally stream)) rid) as Hdone.
  unfold start_state in Hdone. rewrite try_block_200, Hraw in Hdone.
  set (loc0 := {| chunk_count := 0; stream_started := false;
                  raw_buffer := [] |}).
  destruct (raw_loop_run clock Hnz stream loc0 (body_state clock rid))
    as (loc' & st' & E & Hc & Hb & Ht & Hev & Hs & _).
  destruct (raw_loop_clock clock stream Hnz loc0 (body_state clock rid))
    as [Hnow Hft].
  rewrite E in Hnow, Hft. cbn [snd stream_started loc0 orb] in Hnow, Hft.
  change (now (body_state clock rid)) with 2%nat in Hnow.
  fold (raw_end_index stream) in Hnow.
  assert (Hfirst : first_token_time (metric st') = None
                   <-> count_nonempty stream = 0).
  { rewrite Hft. destruct (count_nonempty stream =? 0) eqn:Ec.
    - apply Z.eqb_eq in Ec. split; [intros _; exact Ec|reflexivity].
    - apply Z.eqb_neq in Ec. split; [discriminate|contradiction]. }
  assert (Htrue : float_truthy (Some (clock (now st'))) = true)
    by (apply float_truthy_Some, Hnz).
  assert (Hstart : start_time (metric st') = clock 0%nat) by (rewrite Hs; reflexivity).
  unfold raw_path in *. unfold bind at 1 in Hdone. unfold bind at 1.
  cbn [chunks stream_end ends_normally] in *. fold loc0 in Hdone |- *.
  rewrite E in *.
  unfold bind, update, tick, get_metric, format_float, total_time,
    tokens_per_second, total_time in *.
  cbn [now metric end_time set_end_time set_total_tokens start_time
           total_tokens fst snd] in *.
  rewrite Htrue in *. rewrite Hstart, Hnow in *.
  set (d := (clock (raw_end_index stream) - clock 0%nat)%Q) in *.
  assert (Hd : (0 < d)%Q <-> (clock 0%nat < clock (raw_end_index stream))%Q).
  { unfold d. rewrite (Qlt_minus_iff (clock 0%nat)). unfold Qminus.
    reflexivity. }
  destruct (Qlt_le_dec 0 d) as [Hlt|Hle].
  - assert (Td : float_truthy (Some d) = true).
    { apply float_truthy_Some. intros E0. rewrite E0 in Hlt.
      exact (Qlt_irrefl 0 Hlt). }
    rewrite Td in *. cbn [finish_request ret] in *.
    eexists. split; [reflexivity|].
    cbn [metric total_tokens total_bytes events first_token_time error
                set_end_time set_total_tokens] in *.
    split; [rewrite Hc; reflexivity|].
    split; [simpl in Hb; lia|].
    split; [exact Hev|]. split; [exact Hfirst|].
    split; [intros _; apply Hd, Hlt|intros _].
    destruct Hdone as [(status & t & s & Hnet & Hne & _)|[He _]];
      [|exact He].
    injection Hnet as <- _ _. contradiction.
  - clear Hdone.
    set (st2 := {| now := S (raw_end_index stream);
                   metric := set_end_time (clock (raw_end_index stream))
                               (set_total_tokens (chunk_count loc')
                                                 (metric st')) |}).
    destruct (finish_request_outcome clock config (Raised format_None) st2
                (count_nonempty stream) (total_length stream) [] Hnz)
      as (m & Hm & (H1 & H2 & H3) & He & _).
    { repeat split; [simpl; rewrite Hc; reflexivity|simpl in *; lia
                     |exact Hev]. }
    assert (Hft2 : first_token_time m = first_token_time (metric st')).
    { pose proof (handler_first_token clock config format_None st2) as Hh.
      unfold finish_request in Hm.
      destruct (handler clock config format_None st2) as [[u|e'] st3];
        [|discriminate].
      injection Hm as <-. exact Hh. }
    exists m.
    split; [destruct (float_truthy (Some d)); exact Hm|].
    split; [exact H1|]. split; [exact H2|]. split; [exact H3|].
    split; [rewrite Hft2; exact Hfirst|].
    rewrite He. split; [discriminate|].
    intros Hlt. apply Hd in Hlt. exfalso.
    exact (Qlt_not_le _ _ Hlt Hle).
Qed.

Lemma raw_outcome_counts_witness :
  clock_nonzero sample_clock /\ is_sse raw_config = false /\
  exists m,
    make_request ascii_runtime sample_clock raw_config two_chunks 1
    = Returned m /\
    total_tokens m = 2 /\ total_bytes m = 3 /\ error m = None.
Proof.
  split; [exact sample_clock_nonzero|]. split; [reflexivity|].
  destruct (raw_outcome_counts ascii_runtime sample_clock raw_config
              (TextOk "") [b "ab"; b "c"] 1 sample_clock_nonzero eq_refl)
    as (m & Hm & Ht & Hb & _ & _ & He).
  exists m. split; [exact Hm|].
  split; [rewrite Ht; reflexivity|]. split; [rewrite Hb; reflexivity|].
  apply He. vm_compute. reflexivity.
Defined.

(** ** The worker pool: slots, [task_done] and the identifiers *)

Lemma tally_lookup (f : worker_pc -> nat) (ws : list worker_pc) (i : nat)
      (w : worker_pc) :
  ws !! i = Some w -> (f w <= tally f ws)%nat.
Proof.
  revert i. induction ws as [|w' ws IH]; intros i H; [discriminate|].
  destruct i as [|i]; simpl in *.
  - injection H as ->. lia.
  - specialize (IH i H). lia.
Qed.

(** X15: in every state [run] can reach (positive [concurrency],
    non-negative [total_requests]), [request_queue.task_done()] does not
    raise where the worker calls it: after a sentinel and after a
    request the counter of unfinished tasks is positive.  So the
    [except] branch of the worker loop is not entered from these calls,
    and a worker that takes a sentinel leaves its loop. *)
Theorem task_done_never_raises (rt : PyRuntime) (config : RequestConfig)
        (concurrency total_requests : Z) (s : pool_state) (i : nat) :
  0 < concurrency -> 0 <= total_requests ->
  rtc (step rt config) (pool_init concurrency total_requests) s ->
  (forall q,
      workers s !! i = Some AtGet -> queue s = None :: q ->
      task_done (set_queue q s) <> None /\
      workers (after_sentinel i (set_queue q s)) !! i = Some Exited) /\
  (forall rid m,
      workers s !! i = Some (InRequest rid) ->
      task_done (record_metric m s) <> None).
Proof.
  intros Hc Ht Hreach.
  destruct (reachable_inv rt config concurrency total_requests Hc Ht s Hreach)
    as (Hlen & Hsem & Hunf & _).
  split.
  - intros q Hw Hq. rewrite Hq in Hunf. simpl in Hunf.
    unfold after_sentinel, task_done. simpl.
    destruct (unfinished_tasks s <=? 0) eqn:E; [apply Z.leb_le in E; lia|].
    split; [discriminate|]. simpl.
    apply list_lookup_insert_eq. apply lookup_lt_Some in Hw. exact Hw.
  - intros rid m Hw.
    pose proof (tally_lookup in_request _ _ _ Hw) as Hpos. simpl in Hpos.
    unfold task_done. simpl.
    destruct (unfinished_tasks s <=? 0) eqn:E; [apply Z.leb_le in E; lia|].
    discriminate.
Qed.

Lemma task_done_never_raises_witness :
  0 < 2 /\ 0 <= 0 /\
  task_done (set_queue [None] (set_worker 0 AtGet
                                 (add_semaphore (-1) (pool_init 2 0))))
  <> None.
Proof.
  assert (H1 : 0 < 2) by lia.
  assert (H2 : 0 <= 0) by lia.
  split; [exact H1|]. split; [exact H2|].
  assert (Hr : rtc (step ascii_runtime raw_config) (pool_init 2 0)
                   (set_worker 0 AtGet (add_semaphore (-1) (pool_init 2 0)))).
  { pool_step (step_acquire ascii_runtime raw_config 0%nat). apply rtc_refl. }
  exact (proj1 (proj1 (task_done_never_raises ascii_runtime raw_config 2 0 _
                         0%nat H1 H2 Hr) [None] eq_refl eq_refl)).
Defined.

(** X16: in every reachable state the value of the semaphore is
    [concurrency] minus the number of workers inside
    [async with self.semaphore]; it stays between 0 and [concurrency],
    it is positive whenever a worker is about to acquire it (the
    semaphore never makes a worker wait), and the number of active
    workers printed by a worker holding it is between 1 and
    [concurrency]. *)
Theorem semaphore_never_blocks (rt : PyRuntime) (config : RequestConfig)
        (concurrency total_requests : Z) (s : pool_state) :
  0 < concurrency -> 0 <= total_requests ->
  rtc (step rt config) (pool_init concurrency total_requests) s ->
  semaphore_value s
  = concurrency - Z.of_nat (tally holds_slot (workers s)) /\
  0 <= semaphore_value s <= concurrency /\
  (forall i, workers s !! i = Some AtAcquire -> 0 < semaphore_value s) /\
  (forall i w, workers s !! i = Some w -> holds_slot w = 1%nat ->
               1 <= concurrency - semaphore_value s <= concurrency).
Proof.
  intros Hc Ht Hreach.
  destruct (reachable_inv rt config concurrency total_requests Hc Ht s Hreach)
    as (Hlen & Hsem & _).
  pose proof (tally_le holds_slot (workers s) holds_slot_le) as Hle.
  split; [lia|]. split; [lia|]. split.
  - intros i Hw.
    pose proof (tally_lt holds_slot _ i _ holds_slot_le Hw eq_refl). lia.
  - intros i w Hw Hh.
    pose proof (tally_lookup holds_slot _ _ _ Hw). lia.
Qed.

Lemma semaphore_never_blocks_witness :
  0 < 2 /\ 0 <= 1 /\
  exists s,
    rtc (step ascii_runtime raw_config) (pool_init 2 1) s /\
    0 <= semaphore_value s <= 2.
Proof.
  assert (H1 : 0 < 2) by lia.
  assert (H2 : 0 <= 1) by lia.
  split; [exact H1|]. split; [exact H2|].
  destruct sample_run as (s & Hr & _).
  exists s. split; [exact Hr|].
  exact (proj1 (proj2 (semaphore_never_blocks ascii_runtime raw_config 2 1 s
                         H1 H2 Hr))).
Defined.

(** The identifiers of the requests in progress, and those still in the
    queue. *)
Definition flight (w : worker_pc) : list Z :=
  match w with InRequest rid => [rid] | _ => [] end.

Definition in_flight (ws : list worker_pc) : list Z :=
  foldr (fun w acc => flight w ++ acc) [] ws.

Definition pending (q : list (option Z)) : list Z :=
  foldr (fun x acc => match x with Some rid => rid :: acc | None => acc end)
        [] q.

Definition accounted (s : pool_state) : list Z :=
  map request_id (metrics s) ++ in_flight (workers s) ++ pending (queue s).

(** The identifiers [run] puts in the queue. *)
Definition identifiers (total_requests : Z) : list Z :=
  map (fun i => Z.of_nat i + 1) (seq 0 (Z.to_nat total_requests)).

Lemma in_flight_insert (ws : list worker_pc) (i : nat) (old new : worker_pc) :
  ws !! i = Some old ->
  Permutation (in_flight (<[ i := new ]> ws) ++ flight old)
              (flight new ++ in_flight ws).
Proof.
  revert i. induction ws as [|w ws IH]; intros i H; [discriminate|].
  destruct i as [|i]; simpl in *.
  - injection H as ->. rewrite <- app_assoc. apply Permutation_app_head.
    apply Permutation_app_comm.
  - rewrite <- app_assoc, (IH i H).
    rewrite !app_assoc. apply Permutation_app_tail.
    apply Permutation_app_comm.
Qed.

Lemma in_flight_same (ws : list worker_pc) (i : nat) (old new : worker_pc) :
  ws !! i = Some old -> flight old = [] -> flight new = [] ->
  Permutation (in_flight (<[ i := new ]> ws)) (in_flight ws).
Proof.
  intros H Ho Hn. pose proof (in_flight_insert ws i old new H) as P.
  rewrite Ho, Hn, app_nil_r in P. exact P.
Qed.

Lemma make_request_request_id (rt : PyRuntime) (clock : nat -> Q)
      (config : RequestConfig) (net : net_script) (rid : Z)
      (m : RequestMetrics) :
  make_request rt clock config net rid = Returned m -> request_id m = rid.
Proof.
  rewrite make_request_finish. unfold finish_request.
  pose proof (try_block_identified rt clock config net rid) as H.
  destruct (try_block _ _ _ _ _ _) as [[u|e] st]; simpl in H.
  - intros [= <-]. apply H.
  - pose proof (keeps_handler clock config _ (identified_frame _ _ _) e st H)
      as Hh.
    destruct (handler clock config e st) as [[u|e'] st']; [|discriminate].
    intros [= <-]. apply Hh.
Qed.

Lemma step_accounted (rt : PyRuntime) (config : RequestConfig)
      (s s' : pool_state) :
  step rt config s s' -> Permutation (accounted s') (accounted s).
Proof.
  intros Hstep.
  destruct Hstep as [i s Hw Hpos|i s q Hw Hqs|i s rid q Hw Hqs
                    |i s rid clock net m Hw Hnz Hm];
    unfold accounted.
  - simpl. apply Permutation_app_head, Permutation_app_tail.
    exact (in_flight_same _ i _ AtGet Hw eq_refl eq_refl).
  - rewrite Hqs. unfold after_sentinel, task_done. simpl.
    destruct (unfinished_tasks s <=? 0); simpl;
      apply Permutation_app_head, Permutation_app_tail.
    + exact (in_flight_same _ i _ AtAcquire Hw eq_refl eq_refl).
    + exact (in_flight_same _ i _ Exited Hw eq_refl eq_refl).
  - rewrite Hqs. simpl. apply Permutation_app_head.
    pose proof (in_flight_insert _ i _ (InRequest rid) Hw) as P.
    simpl in P. rewrite app_nil_r in P. rewrite P.
    apply Permutation_middle.
  - apply make_request_request_id in Hm.
    pose proof (in_flight_insert _ i _ AtAcquire Hw) as P. simpl in P.
    assert (E : accounted (after_request i m s)
                = (map request_id (metrics s) ++ [rid])
                    ++ in_flight (<[ i := AtAcquire ]> (workers s))
                    ++ pending (queue s)).
    { unfold accounted, after_request, task_done. simpl.
      destruct (unfinished_tasks s <=? 0); simpl;
        rewrite map_app; simpl; rewrite Hm; reflexivity. }
    unfold accounted in E. rewrite E. rewrite <- app_assoc.
    apply Permutation_app_head. rewrite <- P.
    rewrite app_assoc. apply Permutation_app_tail.
    apply Permutation_app_comm.
Qed.

Lemma accounted_init (concurrency total_requests : Z) :
  accounted (pool_init concurrency total_requests)
  = identifiers total_requests.
Proof.
  unfold accounted, pool_init, identifiers. simpl.
  assert (Hf : forall n, in_flight (replicate n AtAcquire) = []).
  { induction n as [|n IH]; simpl; [reflexivity|exact IH]. }
  assert (Hp : forall (l : list nat) k,
             pending (map (fun i => Some (Z.of_nat i + 1)) l
                          ++ replicate k None)
             = map (fun i => Z.of_nat i + 1) l).
  { induction l as [|x l IH]; intros k; simpl.
    - induction k as [|k IHk]; simpl; [reflexivity|exact IHk].
    - now rewrite IH. }
  rewrite Hf, Hp. reflexivity.
Qed.

Lemma reachable_accounted (rt : PyRuntime) (config : RequestConfig)
      (concurrency total_requests : Z) (s : pool_state) :
  rtc (step rt config) (pool_init concurrency total_requests) s ->
  Permutation (accounted s) (identifiers total_requests).
Proof.
  intros H. revert s H. apply rtc_ind_r.
  - now rewrite accounted_init.
  - intros y z _ Hyz IH. rewrite (step_accounted rt config y z Hyz). exact IH.
Qed.

Lemma identifiers_NoDup (total_requests : Z) :
  NoDup (identifiers total_requests).
Proof.
  unfold identifiers. apply NoDup_fmap_2; [|apply NoDup_seq].
  intros x y H. lia.
Qed.

Lemma identifiers_range (total_requests rid : Z) :
  rid ∈ identifiers total_requests <-> 1 <= rid <= total_requests.
Proof.
  unfold identifiers. rewrite list_elem_of_fmap. split.
  - intros (i & -> & Hi). apply elem_of_seq in Hi. lia.
  - intros H. exists (Z.to_nat (rid - 1)). split; [lia|].
    apply elem_of_seq. lia.
Qed.

(** X17: the worker pool measures no request twice and none that was
    not queued: in every reachable state the identifiers of the
    recorded metrics are pairwise distinct and lie in
    [1..total_requests]; and when [run] has completed they are exactly
    the identifiers [1..total_requests], each once, in some order. *)
Theorem every_request_measured_once (rt : PyRuntime) (config : RequestConfig)
        (concurrency total_requests : Z) (s : pool_state) :
  0 < concurrency -> 0 <= total_requests ->
  rtc (step rt config) (pool_init concurrency total_requests) s ->
  NoDup (map request_id (metrics s)) /\
  (forall m, m ∈ metrics s -> 1 <= request_id m <= total_requests) /\
  (run_completed s ->
   Permutation (map request_id (metrics s)) (identifiers total_requests)).
Proof.
  intros Hc Ht Hreach.
  pose proof (reachable_accounted rt config concurrency total_requests s
                                  Hreach) as P.
  pose proof (identifiers_NoDup total_requests) as Hnd.
  rewrite <- P in Hnd. unfold accounted in *.
  split; [apply NoDup_app in Hnd; apply Hnd|]. split.
  - intros m Hm. apply identifiers_range.
    rewrite <- P. apply elem_of_app. left.
    apply list_elem_of_fmap. exists m. split; [reflexivity|exact Hm].
  - intros [_ Hall].
    pose proof (reachable_inv rt config concurrency total_requests Hc Ht s
                              Hreach) as Hinv.
    destruct (completed_inv concurrency total_requests Hc s Hinv Hall)
      as (Hq & _).
    assert (Hf : in_flight (workers s) = []).
    { clear -Hall. induction Hall as [|w ws -> _ IH]; simpl;
        [reflexivity|exact IH]. }
    rewrite Hf, Hq in P. simpl in P. rewrite app_nil_r in P. exact P.
Qed.

Lemma every_request_measured_once_witness :
  0 < 2 /\ 0 <= 1 /\
  exists s,
    rtc (step ascii_runtime raw_config) (pool_init 2 1) s /\
    run_completed s /\
    Permutation (map request_id (metrics s)) [1].
Proof.
  assert (H1 : 0 < 2) by lia.
  assert (H2 : 0 <= 1) by lia.
  split; [exact H1|]. split; [exact H2|].
  destruct sample_run as (s & Hr & Hcomp).
  exists s. split; [exact Hr|]. split; [exact Hcomp|].
  exact (proj2 (proj2 (every_request_measured_once ascii_runtime raw_config
                         2 1 s H1 H2 Hr)) Hcomp).
Defined.

(** * The first-token time of a request in SSE mode *)

(** The events of the blocks that a blank line has completed, and the
    event of the unterminated remainder of the buffer: together, the
    events of [parse_sse_stream]. *)
Definition complete_events (rt : PyRuntime) (stream : list bytes)
  : list pydict :=
  fst (feed_all (stream_block rt) (fun events _ => events) stream ([], [])).

Definition remainder_of (rt : PyRuntime) (stream : list bytes)
  : option pydict :=
  remainder_event rt
    (snd (feed_all (stream_block rt) (fun events _ => events) stream ([], []))).

(** The number of clock readings made once the loop has handled the
    complete events [evs]: two for the start and the headers, one when
    the first event is handled, one when an eligible event is. *)
Definition readings_made (config : RequestConfig) (evs : list pydict) : nat :=
  if existsb (eligible config) evs then 4%nat
  else match evs with [] => 2%nat | _ => 3%nat end.

(** The clock reading that becomes [first_token_time] when the stream
    ends normally: the one made for the first eligible complete event;
    else the one made for the first complete event; else, when the
    remainder is the only event, the one made after the stream. *)
Definition first_token_reading (config : RequestConfig)
           (complete : list pydict) (remainder : option pydict) : option nat :=
  if existsb (eligible config) complete then Some 3%nat
  else match complete, remainder with
       | _ :: _, _ => Some 2%nat
       | [], Some _ => Some 2%nat
       | [], None => None
       end.

Lemma parse_sse_stream_parts (rt : PyRuntime) (stream : list bytes) :
  parse_sse_stream rt stream
  = complete_events rt stream ++ option_list (remainder_of rt stream).
Proof.
  unfold parse_sse_stream, complete_events, remainder_of.
  destruct (feed_all _ _ stream _) as [evs buffer]. cbn [fst snd].
  destruct (remainder_event rt buffer); simpl; [reflexivity|].
  now rewrite app_nil_r.
Qed.

Lemma complete_events_app (rt : PyRuntime) (stream more : list bytes) :
  exists evs,
    complete_events rt (stream ++ more) = complete_events rt stream ++ evs.
Proof.
  unfold complete_events, feed_all. rewrite fold_left_app.
  set (sb := fold_left _ stream _).
  apply (feed_all_inv (stream_block rt) (fun events _ => events)
           (fun evs' => exists evs, evs' = fst sb ++ evs)).
  - intros evs' blk [evs ->]. unfold stream_block.
    destruct (bool_decide _); [exists evs; reflexivity|].
    eexists. rewrite <- app_assoc. reflexivity.
  - intros evs' chunk H. exact H.
  - exists []. now rewrite app_nil_r.
Qed.

Section FirstTokenRun.
Context (rt : PyRuntime) (clock : nat -> Q) (config : RequestConfig).
Hypothesis nonzero : clock_nonzero clock.

Ltac step_monad :=
  unfold bind, tick, update, get_metric, ret, raise, format_float;
  cbn [fst snd now metric first_token_time set_first_token_time
       sse_events first_token_found first_event_time event_count].

(** What handling an event does while the first token is not found. *)
Lemma handle_event_run (loc : sse_locals) (ev : pydict) (st : req_state) :
  first_token_found loc = false ->
  exists loc' st',
    handle_event clock config loc ev st = (Done loc', st') /\
    sse_events loc' = sse_events loc ++ [ev] /\
    event_count loc' = event_count loc + 1 /\
    first_token_found loc' = eligible config ev /\
    first_event_time loc'
    = (if event_count loc + 1 =? 1 then Some (clock (now st))
       else first_event_time loc) /\
    now st' = ((if (event_count loc + 1 =? 1)%Z then 1 else 0)
               + (if eligible config ev then 1 else 0) + now st)%nat /\
    first_token_time (metric st')
    = (if eligible config ev
       then Some (clock ((if (event_count loc + 1 =? 1)%Z then 1 else 0)
                         + now st)%nat)
       else first_token_time (metric st)).
Proof.
  intros Hf. unfold eligible.
  unfold handle_event, mark_first_token, ttft. step_monad.
  rewrite Hf. cbn [negb]. rewrite andb_true_r.
  destruct (event_count loc + 1 =? 1); step_monad; rewrite ?Hf;
    destruct (str_truthy (first_token_event config));
    match goal with
    | |- context [if ?c then _ else _] => destruct c
    end; step_monad;
    rewrite ?(proj2 (float_truthy_Some _) (nonzero _));
    eexists; eexists; (split; [reflexivity|]); repeat split.
Qed.

(** The state of the search after the complete events [evs]. *)
Definition searched (r : sse_loop_state) (evs : list pydict) : Prop :=
  exists loc st,
    r = (Done loc, st) /\ sse_events loc = evs /\
    event_count loc = Z.of_nat (length evs) /\
    first_token_found loc = existsb (eligible config) evs /\
    first_event_time loc
    = match evs with [] => None | _ => Some (clock 2%nat) end /\
    now st = readings_made config evs /\
    first_token_time (metric st)
    = if existsb (eligible config) evs then Some (clock 3%nat) else None.

Lemma existsb_snoc (evs : list pydict) (ev : pydict) :
  existsb (eligible config) (evs ++ [ev])
  = existsb (eligible config) evs || eligible config ev.
Proof. rewrite existsb_app. simpl. now rewrite orb_false_r. Qed.

Lemma sse_block_searched (r : sse_loop_state) (evs : list pydict)
      (blk : bytes) :
  searched r evs ->
  searched (sse_block rt clock config r blk) (stream_block rt evs blk).
Proof.
  intros (loc & st & -> & Hev & Hcnt & Hfound & Hfirst & Hnow & Hft).
  unfold sse_block, stream_block.
  destruct (bool_decide _);
    [exists loc, st; repeat split; assumption|].
  set (ev := parse_lines rt ∅ blk).
  unfold searched. rewrite existsb_snoc.
  destruct (existsb (eligible config) evs) eqn:Ex.
  - rewrite (handle_event_found clock config loc ev st Hfound).
    exists (counted_event loc ev), st. cbn [counted_event sse_events
      first_token_found first_event_time event_count orb].
    split; [reflexivity|]. split; [now rewrite Hev|].
    split; [rewrite length_app; simpl; lia|].
    split; [exact Hfound|].
    assert (Hne : evs <> []) by (intros ->; discriminate Ex).
    split; [destruct evs; [contradiction|exact Hfirst]|].
    split; [|exact Hft].
    rewrite Hnow. unfold readings_made. rewrite Ex, existsb_snoc, Ex.
    reflexivity.
  - destruct (handle_event_run loc ev st Hfound)
      as (loc' & st' & -> & E1 & E2 & E3 & E4 & E5 & E6).
    exists loc', st'. cbn [orb].
    split; [reflexivity|]. split; [now rewrite E1, Hev|].
    split; [rewrite E2, Hcnt, length_app; simpl; lia|].
    split; [exact E3|].
    unfold readings_made in *. rewrite existsb_snoc, Ex in *. cbn [orb].
    rewrite Hcnt in E4, E5, E6.
    destruct evs as [|ev0 evs0].
    + assert (Hz : (Z.of_nat (length (@nil pydict)) + 1 =? 1) = true)
        by reflexivity.
      rewrite Hz, Hnow, Hft in *.
      cbn [app]. split; [exact E4|]. split; [|exact E6].
      rewrite E5. destruct (eligible config ev); reflexivity.
    + assert (Hz : (Z.of_nat (length (ev0 :: evs0)) + 1 =? 1) = false)
        by (apply Z.eqb_neq; simpl length; lia).
      rewrite Hz, Hnow, Hft in *.
      cbn [app]. split; [now rewrite E4|]. split; [|exact E6].
      rewrite E5. destruct (eligible config ev); reflexivity.
Qed.

Lemma sse_chunk_searched (r : sse_loop_state) (evs : list pydict)
      (chunk : bytes) :
  searched r evs -> searched (sse_chunk r chunk) evs.
Proof.
  intros (loc & st & -> & H). eexists. eexists.
  split; [reflexivity|exact H].
Qed.

(** The loop of the SSE branch, started where the body of a 200
    response is read. *)
Lemma sse_loop_searched (stream : list bytes) (rid : Z) :
  exists loc st,
    feed_all (sse_block rt clock config) sse_chunk stream
             ((Done sse_init, body_state clock rid), [])
    = ((Done loc, st),
       snd (feed_all (stream_block rt) (fun events _ => events) stream
                     ([], []))) /\
    searched (Done loc, st) (complete_events rt stream).
Proof.
  destruct (feed_all_sim (sse_block rt clock config) sse_chunk
              (stream_block rt) (fun evs _ => evs) searched
              sse_block_searched sse_chunk_searched stream
              ((Done sse_init, body_state clock rid), []) ([], []))
    as [Hs Hbuf].
  - exists sse_init, (body_state clock rid). repeat split.
  - reflexivity.
  - fold (complete_events rt stream) in Hs.
    destruct (feed_all (sse_block rt clock config) sse_chunk stream _)
      as [r buffer].
    cbn [fst snd] in *. subst buffer.
    pose proof Hs as (loc & st & -> & _).
    exists loc, st. split; [reflexivity|exact Hs].
Qed.

(** After the fallback nothing changes the first-token time. *)
Lemma sse_finish_first_token (loc : sse_locals) (buffer : bytes)
      (st : req_state) :
  first_token_time (metric (snd (sse_finish rt clock loc buffer st)))
  = first_token_time
      (metric (snd (first_token_fallback clock
                      (with_remainder rt loc buffer) st))).
Proof.
  unfold sse_finish. unfold bind at 1.
  destruct (first_token_fallback_cases clock
              (with_remainder rt loc buffer) st) as [Hd _].
  destruct (first_token_fallback clock _ st) as [r st1].
  simpl in Hd. subst r.
  unfold bind, tick, update. cbn [now metric snd].
  match goal with
  | |- context [event_statistics ?evs ?s] =>
      pose proof (event_statistics_state evs s) as Hs;
      destruct (event_statistics evs s) as [[u|e] st2]
  end; simpl in Hs; subst st2; reflexivity.
Qed.

(** The [return metric] keeps the first-token time, and after a handler
    the end time is the next reading of the clock. *)
Lemma finish_request_first_token (r : result unit) (st : req_state) :
  exists m,
    finish_request clock config (r, st) = Returned m /\
    first_token_time m = first_token_time (metric st) /\
    match r with
    | Done _ => m = metric st
    | Raised _ => end_time m = Some (clock (now st))
    end.
Proof.
  unfold finish_request. destruct r as [u|e].
  - exists (metric st). repeat split.
  - pose proof (handler_first_token clock config e st) as Hf.
    pose proof (handler_sets_end_time clock config e st) as [_ Hend].
    destruct (handler_done clock config e st nonzero) as [st' Hd].
    rewrite Hd in *. cbn [snd] in *.
    exists (metric st'). split; [reflexivity|]. split; assumption.
Qed.

(** The SSE branch read to its normal end. *)
Lemma sse_path_first_token (stream : list bytes) (rid : Z) :
  first_token_time
    (metric (snd (sse_path rt clock config (ends_normally stream)
                           (body_state clock rid))))
  = option_map clock
      (first_token_reading config (complete_events rt stream)
                           (remainder_of rt stream)).
Proof.
  destruct (sse_loop_searched stream rid)
    as (loc & st & E & loc0 & st0 & Heq & Hev & Hcnt & Hfound & Hfirst
        & Hnow & Hft).
  injection Heq as <- <-.
  unfold sse_path. cbn [chunks stream_end ends_normally]. rewrite E.
  unfold first_token_reading, remainder_of.
  set (buffer := snd (feed_all _ _ stream _)).
  rewrite sse_finish_first_token.
  destruct (first_token_fallback_cases clock
              (with_remainder rt loc buffer) st) as [_ ->].
  unfold with_remainder.
  destruct (remainder_event rt buffer) as [current_event|];
    cbn [first_token_found first_event_time sse_events];
    rewrite Hfound, Hft, Hfirst, Hev;
    (destruct (existsb (eligible config) (complete_events rt stream));
     [reflexivity|]);
    (destruct (complete_events rt stream) as [|ev0 evs0];
     [|cbn [float_truthy];
       change (negb (Qeq_bool (clock 2%nat) 0))
         with (float_truthy (Some (clock 2%nat)));
       rewrite (proj2 (float_truthy_Some _) (nonzero 2%nat)); reflexivity]);
    cbn [float_truthy app option_map].
  - unfold readings_made in Hnow. simpl in Hnow. rewrite Hnow. reflexivity.
  - reflexivity.
Qed.

(** The SSE branch when the stream raises. *)
Lemma sse_path_raised (stream : list bytes) (e : exn) (rid : Z) :
  exists st,
    sse_path rt clock config {| chunks := stream; stream_end := Some e |}
             (body_state clock rid)
    = (Raised e, st) /\
    now st = readings_made config (complete_events rt stream) /\
    first_token_time (metric st)
    = if existsb (eligible config) (complete_events rt stream)
      then Some (clock 3%nat) else None.
Proof.
  destruct (sse_loop_searched stream rid)
    as (loc & st & E & loc0 & st0 & Heq & _ & _ & _ & _ & Hnow & Hft).
  injection Heq as <- <-.
  unfold sse_path. cbn [chunks stream_end]. rewrite E.
  exists st. split; [reflexivity|]. split; assumption.
Qed.
End FirstTokenRun.



(** The event named [go] is the first-token event. *)
Definition go_config : RequestConfig :=
  {| url := "http://localhost/stream"; method := "POST"; headers := ∅;
     body := VDict ∅; timeout := 300; data_source := None;
     data_rows := None; stream_format := Some "sse"%string;
     first_token_event := Some "go"%string;
     completion_event := None; output_path := None |}.

(** An event [go] left in the unterminated remainder is not examined:
    the first-token time is the time of the first event, [ping]; when a
    blank line completes the same event, it is the reading made for
    it. *)
Example remainder_is_not_examined :
  (exists m,
      make_request ascii_runtime sample_clock go_config
        (Response 200 (TextOk "")
                  (ends_normally [b ("event: ping" +:+ LF +:+ LF);
                                  b "event: go"])) 1
      = Returned m /\
      error m = None /\ length (events m) = 2%nat /\
      first_token_time m = Some (sample_clock 2)) /\
  (exists m,
      make_request ascii_runtime sample_clock go_config
        (Response 200 (TextOk "")
                  (ends_normally [b ("event: ping" +:+ LF +:+ LF);
                                  b ("event: go" +:+ LF +:+ LF)])) 1
      = Returned m /\
      error m = None /\ length (events m) = 2%nat /\
      first_token_time m = Some (sample_clock 3)).
Proof.
  split; eexists; (split; [vm_compute; reflexivity|]);
    repeat split; reflexivity.
Qed.

(** A stream that raises after an event that is not eligible leaves the
    first-token time absent, and the event is not kept. *)
Example failing_stream_has_no_first_token :
  exists m,
    make_request ascii_runtime sample_clock go_config
      (Response 200 (TextOk "")
                {| chunks := [b ("event: ping" +:+ LF +:+ LF)];
                   stream_end := Some TimeoutError |}) 1
    = Returned m /\
    error m = Some "Timeout (>300s)"%string /\
    first_token_time m = None /\ events m = [] /\
    end_time m = Some (sample_clock 3).
Proof.
  eexists. split; [vm_compute; reflexivity|]. repeat split; reflexivity.
Qed.
